(** * Node service of the jiva CSI driver (pkg/driver/node.go)

    A shallow embedding of the node volume-lifecycle code: the request
    messages, the JivaVolume record, the per-volume transition guard, the
    two bounded poll loops, the mount-state inspector and the RPC handlers,
    followed by the properties proved about them.

    The handlers are written in a state monad over the node state: the set
    of volumes in transition, the state of everything outside the process
    (record store, mount table, network, file system: [World]), the log
    of calls made to those collaborators, each with the answer it got, and
    the history of guard acquisitions. *)

From Stdlib Require Import ZArith List String Bool Lia.
From stdpp Require Import base tactics option gmap strings list.
Import ListNotations.

#[local] Set Warnings "-clear-no-such-hyp".

Local Open Scope string_scope.
Local Open Scope Z_scope.
Local Open Scope list_scope.

(** ** Status codes, messages and errors *)

(** google.golang.org/grpc/codes: the codes node.go uses, and [Unknown],
    the code gRPC gives an error that is not a status error. *)
Inductive Code :=
| Unknown | InvalidArgument | NotFound | FailedPrecondition
| Aborted | Unimplemented | Internal.

#[global] Instance Code_eq_dec : EqDecision Code.
Proof. solve_decision. Defined.

(** Formatted text is kept as the format string with its arguments. *)
#[local] Set Warnings "-register-all".
Inductive Text :=
| Lit (s : string)
| Num (z : Z)
| CodeName (c : Code)
| PathSet (m : gmap string bool)
| Sprintf (format : string) (args : list Text).

(** An error handed back by a collaborator (the Kubernetes client, the
    mounter, the iSCSI library, the operating system), with what
    [errors.IsNotFound] and [os.IsNotExist] answer on it. *)
Record ExtError := {
  ext_msg : string;
  ext_IsNotFound : bool;
  ext_IsNotExist : bool
}.

(** Go [error] values: a gRPC status error, an error made by [fmt.Errorf],
    or a collaborator's error passed on as it is. *)
Inductive error :=
| status_Error (c : Code) (msg : Text)
| fmt_Errorf (msg : Text)
| external (e : ExtError).

Definition status_Errorf (c : Code) (format : string) (args : list Text) : error :=
  status_Error c (Sprintf format args).

(** [err.Error()] *)
Definition Error (e : error) : Text :=
  match e with
  | status_Error c msg => Sprintf "rpc error: code = %s desc = %s" [CodeName c; msg]
  | fmt_Errorf msg => msg
  | external e => Lit (ext_msg e)
  end.

(** [errors.IsNotFound] *)
Definition errors_IsNotFound (e : ExtError) : bool := ext_IsNotFound e.

(** [os.IsNotExist]; false on the nil error. *)
Definition os_IsNotExist (e : option ExtError) : bool :=
  match e with Some e => ext_IsNotExist e | None => false end.

(** [err == nil] *)
Definition isNil {A} (e : option A) : bool :=
  match e with Some _ => false | None => true end.

(** [status.Code]: the code a caller of the RPC sees. *)
Definition status_Code (e : error) : Code :=
  match e with status_Error c _ => c | _ => Unknown end.

(** ** Messages of the CSI protocol *)

Record MountVolume := { FsType : string; MountFlags : list string }.

Inductive AccessTypeT :=
| VolumeCapability_Block
| VolumeCapability_Mount (Mount : option MountVolume).

Record VolumeCapability := {
  AccessType : option AccessTypeT;
  AccessMode : option Z
}.

(** [volCap.GetMount()] *)
Definition GetMount (volCap : VolumeCapability) : option MountVolume :=
  match AccessType volCap with
  | Some (VolumeCapability_Mount m) => m
  | _ => None
  end.

(** The getters of a possibly nil mount. *)
Definition GetFsType (m : option MountVolume) : string :=
  match m with Some m => FsType m | None => "" end.

Definition GetMountFlags (m : option MountVolume) : list string :=
  match m with Some m => MountFlags m | None => [] end.

Record NodeStageVolumeRequest := {
  stage_VolumeId : string;
  stage_StagingTargetPath : string;
  stage_VolumeCapability : option VolumeCapability
}.

Record NodeUnstageVolumeRequest := {
  unstage_VolumeId : string;
  unstage_StagingTargetPath : string
}.

Record NodePublishVolumeRequest := {
  publish_VolumeId : string;
  publish_StagingTargetPath : string;
  publish_TargetPath : string;
  publish_VolumeCapability : option VolumeCapability;
  publish_Readonly : bool
}.

Record NodeUnpublishVolumeRequest := {
  unpublish_VolumeId : string;
  unpublish_TargetPath : string
}.

Record NodeGetVolumeStatsRequest := {
  stats_VolumeId : string;
  stats_VolumePath : string
}.

Record VolumeUsage := { Available : Z; Total : Z; Used : Z; Unit : Z }.

Inductive Response :=
| NodeStageVolumeResponse
| NodeUnstageVolumeResponse
| NodePublishVolumeResponse
| NodeUnpublishVolumeResponse
| NodeGetVolumeStatsResponse (Usage : list VolumeUsage).

(** What a handler returns: Go's pair of a response and an error. *)
Definition Result : Type := option Response * option error.

Definition result_code (r : Result) : option Code := status_Code <$> r.2.

(** ** The JivaVolume record and the other collaborator data *)

Record ISCSISpecT := { TargetIP : string; TargetPort : Z; Iqn : string }.
Record MountInfoT := { FSType : string; DevicePath : string; Path : string }.
Record JivaVolumeSpec := { ISCSISpec : ISCSISpecT; MountInfo : MountInfoT }.
Record ReplicaStatus := { Address : string; Mode : string }.
Record JivaVolumeStatus := {
  Status : string;
  Phase : string;
  ReplicaStatuses : list ReplicaStatus
}.
Record JivaVolume := {
  Name : string;
  Spec : JivaVolumeSpec;
  VolStatus : JivaVolumeStatus
}.

Definition JivaVolumePhaseReady : string := "Ready".

(** An entry of the mount table, as [mounter.List] returns it. *)
Record MountPoint := {
  mp_Device : string; mp_Path : string; mp_Type : string;
  mp_Opts : list string; mp_Freq : Z; mp_Pass : Z
}.

Record Connector := {
  VolumeName : string; TargetIqn : string; Lun : Z; Interface : string;
  TargetPortals : list Text; DoDiscovery : bool
}.

(** ** Constants of node.go *)

Definition FSTypeExt4 : string := "ext4".
Definition defaultFsType : string := FSTypeExt4.
Definition defaultISCSILUN : Z := 0.
Definition defaultISCSIInterface : string := "default".
(** [time.Second], in nanoseconds. *)
Definition Second : Z := 1000000000.
(** The permissions 0750, written in octal in the source. *)
Definition perm_0750 : Z := 7 * 64 + 5 * 8.

(** [strings.Contains] *)
Fixpoint Contains (s substr : string) : bool :=
  String.prefix substr s ||
  match s with
  | EmptyString => false
  | String _ s' => Contains s' substr
  end.

(** ** The transition guard *)

(** Modelled from the spec: the Transition Guard of package request
    ([request.Transition] with [Insert] and [Delete]), whose source is not
    among the files: acquire tests and inserts atomically and reports
    whether it inserted; release removes the id unconditionally. *)
Definition Transition_Insert (id : string) (t : gset string) : bool * gset string :=
  if decide (id ∈ t) then (false, t) else (true, {[id]} ∪ t).

(** Modelled from the spec: [Delete] of the same guard, the release that
    removes the id whether it is there or not. *)
Definition Transition_Delete (id : string) (t : gset string) : gset string :=
  t ∖ {[id]}.

(** ** Calls to the collaborators *)

Inductive Event :=
| EvSleep (d : Z)
| EvClientSet (r : option ExtError)
| EvGetJivaVolume (volID : string) (r : JivaVolume + ExtError)
| EvUpdateJivaVolume (cr : JivaVolume) (r : option ExtError)
| EvList (r : list MountPoint * option ExtError)
| EvGetDeviceName (path : string) (r : string * Z * option ExtError)
| EvUnmount (target : string) (r : option ExtError)
| EvIsLikelyNotMountPoint (path : string) (r : bool * option ExtError)
| EvFormatAndMount (source target fstype : string) (options : list string)
    (r : option ExtError)
| EvMount (source target fstype : string) (options : list string)
    (r : option ExtError)
| EvExistsPath (path : string) (r : bool * option ExtError)
| EvDial (network : string) (address : Text) (r : option ExtError)
| EvConnClose
| EvConnect (c : Connector) (r : string * option ExtError)
| EvDisconnect (iqn : string) (portals : list Text) (r : option ExtError)
| EvMkdirAll (path : string) (perm : Z) (r : option ExtError)
| EvChmod (path : string) (perm : Z) (r : option ExtError)
| EvRemove (path : string) (r : option ExtError)
| EvRemoveAll (path : string) (r : option ExtError)
| EvGetStatistics (path : string) (r : list VolumeUsage * option ExtError).

(** The collaborators, each a function of the outside world: the record
    store client, the mounter, the iSCSI library, the network, the file
    system and the clock. *)
Record Env (World : Type) := {
  env_Sleep : Z → World → unit * World;
  env_ClientSet : World → option ExtError * World;
  env_GetJivaVolume : string → World → (JivaVolume + ExtError) * World;
  env_UpdateJivaVolume : JivaVolume → World → option ExtError * World;
  env_List : World → (list MountPoint * option ExtError) * World;
  env_GetDeviceName : string → World → (string * Z * option ExtError) * World;
  env_Unmount : string → World → option ExtError * World;
  env_IsLikelyNotMountPoint : string → World → (bool * option ExtError) * World;
  env_FormatAndMount :
    string → string → string → list string → World → option ExtError * World;
  env_Mount :
    string → string → string → list string → World → option ExtError * World;
  env_ExistsPath : string → World → (bool * option ExtError) * World;
  env_Dial : string → Text → World → option ExtError * World;
  env_ConnClose : World → unit * World;
  env_Connect : Connector → World → (string * option ExtError) * World;
  env_Disconnect : string → list Text → World → option ExtError * World;
  env_MkdirAll : string → Z → World → option ExtError * World;
  env_Chmod : string → Z → World → option ExtError * World;
  env_Remove : string → World → option ExtError * World;
  env_RemoveAll : string → World → option ExtError * World;
  env_GetStatistics :
    string → World → (list VolumeUsage * option ExtError) * World
}.

Arguments env_Sleep {World}. Arguments env_ClientSet {World}.
Arguments env_GetJivaVolume {World}. Arguments env_UpdateJivaVolume {World}.
Arguments env_List {World}. Arguments env_GetDeviceName {World}.
Arguments env_Unmount {World}. Arguments env_IsLikelyNotMountPoint {World}.
Arguments env_FormatAndMount {World}. Arguments env_Mount {World}.
Arguments env_ExistsPath {World}. Arguments env_Dial {World}.
Arguments env_ConnClose {World}. Arguments env_Connect {World}.
Arguments env_Disconnect {World}. Arguments env_MkdirAll {World}.
Arguments env_Chmod {World}. Arguments env_Remove {World}.
Arguments env_RemoveAll {World}. Arguments env_GetStatistics {World}.

(** The node state: the transition set, the world outside, the log of the
    calls to the collaborators, and the ids under which the guard has
    been taken so far. *)
Record State (World : Type) := {
  volumeTransition : gset string;
  world : World;
  trace : list Event;
  acquired : list string
}.

Arguments volumeTransition {World}. Arguments world {World}.
Arguments trace {World}. Arguments acquired {World}.
Arguments Build_State {World}.

(** ** The monad of the handlers

    [None] is a loop that ran out of fuel; the [outside_*] lemmas and
    [serve_keeps_guard] below show that no handler ever returns it. *)
Definition M (World A : Type) : Type := State World → option (A * State World).

Definition ret {World A} (a : A) : M World A := λ s, Some (a, s).

Definition bind {World A B} (m : M World A) (k : A → M World B) : M World B :=
  λ s, match m s with
       | Some (a, s') => k a s'
       | None => None
       end.

Notation "'let*' x := m 'in' k" := (bind m (λ x, k))
  (at level 10, x pattern, m at level 100, k at level 200, only parsing).

(** A call to a collaborator: the world moves on and the call is logged
    with its answer. *)
Definition extern {World A} (f : World → A * World) (ev : A → Event) : M World A :=
  λ s, let '(r, w) := f (world s) in
       Some (r, {| volumeTransition := volumeTransition s;
                   world := w;
                   trace := trace s ++ [ev r];
                   acquired := acquired s |}).

(** [ns.volumeTransition.Insert] and [ns.volumeTransition.Delete] *)
Definition volumeTransition_Insert {World} (id : string) : M World bool :=
  λ s, let '(ok, t) := Transition_Insert id (volumeTransition s) in
       Some (ok, {| volumeTransition := t; world := world s; trace := trace s;
                    acquired := if ok then acquired s ++ [id] else acquired s |}).

Definition volumeTransition_Delete {World} (id : string) : M World unit :=
  λ s, Some (tt, {| volumeTransition := Transition_Delete id (volumeTransition s);
                    world := world s; trace := trace s;
                    acquired := acquired s |}).

(** [defer cleanup] before [body]: the cleanup runs when the body returns. *)
Definition defer {World A} (cleanup : M World unit) (body : M World A) : M World A :=
  let* r := body in let* _ := cleanup in ret r.

(** [m], run in world [w0], answers [r], leaves the world [w] and logs
    [t], whatever the guard set and the log before it. *)
Definition runs {World A} (m : M World A) (w0 : World) (r : A) (w : World)
    (t : list Event) : Prop :=
  ∀ T tr ids,
    m (Build_State T w0 tr ids) = Some (r, Build_State T w (tr ++ t) ids).

(** [m] returns, and touches nothing of the node but the collaborators. *)
Definition outside {World A} (m : M World A) : Prop :=
  ∀ w0, ∃ r w t, runs m w0 r w t.

(** ** An in-memory double of the collaborators

    Every collaborator answers from a table; unmounting empties the mount
    answers. It serves to run the handlers on concrete requests. *)

Record Canned := {
  c_set : option ExtError;
  c_get : JivaVolume + ExtError;
  c_update : option ExtError;
  c_list : list MountPoint * option ExtError;
  c_device : string * Z * option ExtError;
  c_unmount : option ExtError;
  c_notmnt : bool * option ExtError;
  c_formatAndMount : option ExtError;
  c_mount : option ExtError;
  c_exists : bool * option ExtError;
  c_dial : option ExtError;
  c_connect : string * option ExtError;
  c_disconnect : option ExtError;
  c_mkdir : option ExtError;
  c_chmod : option ExtError;
  c_remove : option ExtError;
  c_removeAll : option ExtError;
  c_stats : list VolumeUsage * option ExtError
}.

Definition unmounted (w : Canned) : Canned :=
  {| c_set := c_set w; c_get := c_get w; c_update := c_update w;
     c_list := ([], None); c_device := ("", 0, None);
     c_unmount := c_unmount w; c_notmnt := (true, None);
     c_formatAndMount := c_formatAndMount w; c_mount := c_mount w;
     c_exists := c_exists w; c_dial := c_dial w; c_connect := c_connect w;
     c_disconnect := c_disconnect w; c_mkdir := c_mkdir w;
     c_chmod := c_chmod w; c_remove := c_remove w;
     c_removeAll := c_removeAll w; c_stats := c_stats w |}.

Definition cannedEnv : Env Canned :=
  {| env_Sleep := λ _ w, (tt, w);
     env_ClientSet := λ w, (c_set w, w);
     env_GetJivaVolume := λ _ w, (c_get w, w);
     env_UpdateJivaVolume := λ _ w, (c_update w, w);
     env_List := λ w, (c_list w, w);
     env_GetDeviceName := λ _ w, (c_device w, w);
     env_Unmount := λ _ w,
       (c_unmount w, if c_unmount w is None then unmounted w else w);
     env_IsLikelyNotMountPoint := λ _ w, (c_notmnt w, w);
     env_FormatAndMount := λ _ _ _ _ w, (c_formatAndMount w, w);
     env_Mount := λ _ _ _ _ w, (c_mount w, w);
     env_ExistsPath := λ _ w, (c_exists w, w);
     env_Dial := λ _ _ w, (c_dial w, w);
     env_ConnClose := λ w, (tt, w);
     env_Connect := λ _ w, (c_connect w, w);
     env_Disconnect := λ _ _ w, (c_disconnect w, w);
     env_MkdirAll := λ _ _ w, (c_mkdir w, w);
     env_Chmod := λ _ _ w, (c_chmod w, w);
     env_Remove := λ _ w, (c_remove w, w);
     env_RemoveAll := λ _ w, (c_removeAll w, w);
     env_GetStatistics := λ _ w, (c_stats w, w) |}.

(** A name normaliser that drops a leading "pvc-". *)
Definition TrimPrefix (prefix s : string) : string :=
  if String.prefix prefix s
  then String.substring (String.length prefix)
                        (String.length s - String.length prefix) s
  else s.

Definition stripPvc : string → string := TrimPrefix "pvc-".

Definition anyCapability (_ : list VolumeCapability) : bool := true.

Definition volume (phase status : string) : JivaVolume :=
  {| Name := "1";
     Spec := {| ISCSISpec := {| TargetIP := "10.0.0.7"; TargetPort := 3260;
                                Iqn := "iqn.2016-09.com.openebs.jiva:1" |};
                MountInfo := {| FSType := ""; DevicePath := ""; Path := "" |} |};
     VolStatus := {| Status := status; Phase := phase; ReplicaStatuses := [] |} |}.

(** A healthy node: the volume is ready, nothing is mounted yet. *)
Definition healthy : Canned :=
  {| c_set := None; c_get := inl (volume "Ready" "RW"); c_update := None;
     c_list := ([], None); c_device := ("", 0, None); c_unmount := None;
     c_notmnt := (true, None); c_formatAndMount := None; c_mount := None;
     c_exists := (true, None); c_dial := None;
     c_connect := ("/dev/sdb", None); c_disconnect := None; c_mkdir := None;
     c_chmod := None; c_remove := None; c_removeAll := None;
     c_stats := ([{| Available := 60; Total := 100; Used := 40; Unit := 1 |}], None) |}.

Definition start (w : Canned) : State Canned :=
  {| volumeTransition := ∅; world := w; trace := []; acquired := [] |}.

Definition mountCapability (fs : string) : VolumeCapability :=
  {| AccessType := Some (VolumeCapability_Mount
                           (Some {| FsType := fs; MountFlags := [] |}));
     AccessMode := Some 1 |}.

Definition stageReq (id path fs : string) : NodeStageVolumeRequest :=
  {| stage_VolumeId := id; stage_StagingTargetPath := path;
     stage_VolumeCapability := Some (mountCapability fs) |}.

Definition ioError : ExtError :=
  {| ext_msg := "connection refused"; ext_IsNotFound := false;
     ext_IsNotExist := false |}.

Definition notFound : ExtError :=
  {| ext_msg := "jivavolume 1 not found"; ext_IsNotFound := true;
     ext_IsNotExist := false |}.

Definition withGet (r : JivaVolume + ExtError) (w : Canned) : Canned :=
  {| c_set := c_set w; c_get := r; c_update := c_update w;
     c_list := c_list w; c_device := c_device w;
     c_unmount := c_unmount w; c_notmnt := c_notmnt w;
     c_formatAndMount := c_formatAndMount w; c_mount := c_mount w;
     c_exists := c_exists w; c_dial := c_dial w; c_connect := c_connect w;
     c_disconnect := c_disconnect w; c_mkdir := c_mkdir w;
     c_chmod := c_chmod w; c_remove := c_remove w;
     c_removeAll := c_removeAll w; c_stats := c_stats w |}.

Definition withUpdate (r : option ExtError) (w : Canned) : Canned :=
  {| c_set := c_set w; c_get := c_get w; c_update := r;
     c_list := c_list w; c_device := c_device w;
     c_unmount := c_unmount w; c_notmnt := c_notmnt w;
     c_formatAndMount := c_formatAndMount w; c_mount := c_mount w;
     c_exists := c_exists w; c_dial := c_dial w; c_connect := c_connect w;
     c_disconnect := c_disconnect w; c_mkdir := c_mkdir w;
     c_chmod := c_chmod w; c_remove := c_remove w;
     c_removeAll := c_removeAll w; c_stats := c_stats w |}.

Definition withExists (r : bool * option ExtError) (w : Canned) : Canned :=
  {| c_set := c_set w; c_get := c_get w; c_update := c_update w;
     c_list := c_list w; c_device := c_device w;
     c_unmount := c_unmount w; c_notmnt := c_notmnt w;
     c_formatAndMount := c_formatAndMount w; c_mount := c_mount w;
     c_exists := r; c_dial := c_dial w; c_connect := c_connect w;
     c_disconnect := c_disconnect w; c_mkdir := c_mkdir w;
     c_chmod := c_chmod w; c_remove := c_remove w;
     c_removeAll := c_removeAll w; c_stats := c_stats w |}.

Definition mountAt (path : string) : MountPoint :=
  {| mp_Device := "/dev/sdb"; mp_Path := path; mp_Type := "ext4";
     mp_Opts := ["rw"]; mp_Freq := 0; mp_Pass := 0 |}.

(** The volume staged at [paths]. *)
Definition withMounts (paths : list string) (w : Canned) : Canned :=
  {| c_set := c_set w; c_get := c_get w; c_update := c_update w;
     c_list := (mountAt <$> paths, None);
     c_device := ("/dev/sdb", Z.of_nat (length paths), None);
     c_unmount := c_unmount w; c_notmnt := (false, None);
     c_formatAndMount := c_formatAndMount w; c_mount := c_mount w;
     c_exists := c_exists w; c_dial := c_dial w; c_connect := c_connect w;
     c_disconnect := c_disconnect w; c_mkdir := c_mkdir w;
     c_chmod := c_chmod w; c_remove := c_remove w;
     c_removeAll := c_removeAll w; c_stats := c_stats w |}.

(** Worlds: the record never serves; the record store is down; the record
    cannot be updated; the volume is staged; it is mounted twice. *)
Definition pending : Canned := withGet (inl (volume "Pending" "RO")) healthy.
Definition storeDown : Canned := withGet (inr ioError) healthy.
Definition updateFails : Canned := withUpdate (Some ioError) healthy.
Definition staged : Canned := withMounts ["/staging/pvc-1"] healthy.
Definition mountedTwice : Canned :=
  withMounts ["/staging/pvc-1"; "/pods/a/volumes/pvc-1/mount"] healthy.

Definition unstageReq (id path : string) : NodeUnstageVolumeRequest :=
  {| unstage_VolumeId := id; unstage_StagingTargetPath := path |}.

Definition unpublishReq (id path : string) : NodeUnpublishVolumeRequest :=
  {| unpublish_VolumeId := id; unpublish_TargetPath := path |}.

Definition statsReq (id path : string) : NodeGetVolumeStatsRequest :=
  {| stats_VolumeId := id; stats_VolumePath := path |}.

(** More worlds: the target portal does not answer; the attach fails; the
    unmount fails; the bind mount fails. *)
Definition withDial (r : option ExtError) (w : Canned) : Canned :=
  {| c_set := c_set w; c_get := c_get w; c_update := c_update w;
     c_list := c_list w; c_device := c_device w;
     c_unmount := c_unmount w; c_notmnt := c_notmnt w;
     c_formatAndMount := c_formatAndMount w; c_mount := c_mount w;
     c_exists := c_exists w; c_dial := r; c_connect := c_connect w;
     c_disconnect := c_disconnect w; c_mkdir := c_mkdir w;
     c_chmod := c_chmod w; c_remove := c_remove w;
     c_removeAll := c_removeAll w; c_stats := c_stats w |}.

Definition withConnect (r : string * option ExtError) (w : Canned) : Canned :=
  {| c_set := c_set w; c_get := c_get w; c_update := c_update w;
     c_list := c_list w; c_device := c_device w;
     c_unmount := c_unmount w; c_notmnt := c_notmnt w;
     c_formatAndMount := c_formatAndMount w; c_mount := c_mount w;
     c_exists := c_exists w; c_dial := c_dial w; c_connect := r;
     c_disconnect := c_disconnect w; c_mkdir := c_mkdir w;
     c_chmod := c_chmod w; c_remove := c_remove w;
     c_removeAll := c_removeAll w; c_stats := c_stats w |}.

Definition withUnmount (r : option ExtError) (w : Canned) : Canned :=
  {| c_set := c_set w; c_get := c_get w; c_update := c_update w;
     c_list := c_list w; c_device := c_device w;
     c_unmount := r; c_notmnt := c_notmnt w;
     c_formatAndMount := c_formatAndMount w; c_mount := c_mount w;
     c_exists := c_exists w; c_dial := c_dial w; c_connect := c_connect w;
     c_disconnect := c_disconnect w; c_mkdir := c_mkdir w;
     c_chmod := c_chmod w; c_remove := c_remove w;
     c_removeAll := c_removeAll w; c_stats := c_stats w |}.

Definition withMount (r : option ExtError) (w : Canned) : Canned :=
  {| c_set := c_set w; c_get := c_get w; c_update := c_update w;
     c_list := c_list w; c_device := c_device w;
     c_unmount := c_unmount w; c_notmnt := c_notmnt w;
     c_formatAndMount := c_formatAndMount w; c_mount := r;
     c_exists := c_exists w; c_dial := c_dial w; c_connect := c_connect w;
     c_disconnect := c_disconnect w; c_mkdir := c_mkdir w;
     c_chmod := c_chmod w; c_remove := c_remove w;
     c_removeAll := c_removeAll w; c_stats := c_stats w |}.

Definition unreachable : Canned := withDial (Some ioError) healthy.
Definition attachFails : Canned := withConnect ("", Some ioError) healthy.
Definition busy : Canned := withUnmount (Some ioError) staged.
Definition mountFails : Canned := withMount (Some ioError) healthy.

(** The record of the volume once staged at "/staging/pvc-1", and a
    world whose store holds it. *)
Definition stagedVolume : JivaVolume :=
  {| Name := "1";
     Spec := {| ISCSISpec := ISCSISpec (Spec (volume "Ready" "RW"));
                MountInfo := {| FSType := "ext4"; DevicePath := "/dev/sdb";
                                Path := "/staging/pvc-1" |} |};
     VolStatus := VolStatus (volume "Ready" "RW") |}.

Definition stagedAndRecorded : Canned := withGet (inl stagedVolume) staged.

Definition publishReq (id staging target : string) (volCap : VolumeCapability)
    (readonly : bool) : NodePublishVolumeRequest :=
  {| publish_VolumeId := id; publish_StagingTargetPath := staging;
     publish_TargetPath := target; publish_VolumeCapability := Some volCap;
     publish_Readonly := readonly |}.

Definition mountCapabilityWith (fs : string) (flags : list string)
    : VolumeCapability :=
  {| AccessType := Some (VolumeCapability_Mount
                           (Some {| FsType := fs; MountFlags := flags |}));
     AccessMode := Some 1 |}.

Definition blockCapability : VolumeCapability :=
  {| AccessType := Some VolumeCapability_Block; AccessMode := Some 1 |}.

(** Answer and log of a run, and whether it left the guard set empty. *)
Definition observe {World A} (o : option (A * State World))
    : option (A * list Event * bool) :=
  (λ '(a, s), (a, trace s, bool_decide (volumeTransition s = ∅))) <$> o.

(** ** node.go *)

Record nodeStageRequest := {
  stagingPath : string;
  fsType : string;
  volumeID : string
}.

Section Node.
#[local] Set Default Proof Using "Type".
Context {World : Type}.
(** The collaborators of this node. *)
Variable env : Env World.
(** [utils.StripName], [isValidVolumeCapabilities] and the package
    variable [MaxRetryCount] are defined outside node.go. *)
Variable StripName : string → string.
Variable isValidVolumeCapabilities : list VolumeCapability → bool.
Variable MaxRetryCount : Z.

Abbreviation M := (M World).

Definition time_Sleep (d : Z) : M unit := extern (env_Sleep env d) (λ _, EvSleep d).
Definition client_Set : M (option ExtError) := extern (env_ClientSet env) EvClientSet.
Definition client_GetJivaVolume (volID : string) : M (JivaVolume + ExtError) :=
  extern (env_GetJivaVolume env volID) (EvGetJivaVolume volID).
Definition client_UpdateJivaVolume (cr : JivaVolume) : M (option ExtError) :=
  extern (env_UpdateJivaVolume env cr) (EvUpdateJivaVolume cr).
Definition mounter_List : M (list MountPoint * option ExtError) :=
  extern (env_List env) EvList.
Definition mounter_GetDeviceName (path : string) : M (string * Z * option ExtError) :=
  extern (env_GetDeviceName env path) (EvGetDeviceName path).
Definition mounter_Unmount (target : string) : M (option ExtError) :=
  extern (env_Unmount env target) (EvUnmount target).
Definition mounter_IsLikelyNotMountPoint (path : string) : M (bool * option ExtError) :=
  extern (env_IsLikelyNotMountPoint env path) (EvIsLikelyNotMountPoint path).
Definition mounter_FormatAndMount (source target fstype : string)
    (options : list string) : M (option ExtError) :=
  extern (env_FormatAndMount env source target fstype options)
         (EvFormatAndMount source target fstype options).
Definition mounter_Mount (source target fstype : string)
    (options : list string) : M (option ExtError) :=
  extern (env_Mount env source target fstype options)
         (EvMount source target fstype options).
Definition mounter_ExistsPath (path : string) : M (bool * option ExtError) :=
  extern (env_ExistsPath env path) (EvExistsPath path).
Definition net_Dial (network : string) (address : Text) : M (option ExtError) :=
  extern (env_Dial env network address) (EvDial network address).
Definition conn_Close : M unit := extern (env_ConnClose env) (λ _, EvConnClose).
Definition iscsi_Connect (c : Connector) : M (string * option ExtError) :=
  extern (env_Connect env c) (EvConnect c).
Definition iscsi_Disconnect (iqn : string) (portals : list Text) : M (option ExtError) :=
  extern (env_Disconnect env iqn portals) (EvDisconnect iqn portals).
Definition os_MkdirAll (path : string) (perm : Z) : M (option ExtError) :=
  extern (env_MkdirAll env path perm) (EvMkdirAll path perm).
Definition os_Chmod (path : string) (perm : Z) : M (option ExtError) :=
  extern (env_Chmod env path perm) (EvChmod path perm).
Definition os_Remove (path : string) : M (option ExtError) :=
  extern (env_Remove env path) (EvRemove path).
Definition os_RemoveAll (path : string) : M (option ExtError) :=
  extern (env_RemoveAll env path) (EvRemoveAll path).
Definition getStatistics (path : string) : M (list VolumeUsage * option ExtError) :=
  extern (env_GetStatistics env path) (EvGetStatistics path).

(** [fmt.Sprintf("%v:%v", TargetIP, TargetPort)] *)
Definition targetPortalOf (instance : JivaVolume) : Text :=
  Sprintf "%v:%v" [Lit (TargetIP (ISCSISpec (Spec instance)));
                   Num (TargetPort (ISCSISpec (Spec instance)))].

Definition attachDisk (instance : JivaVolume) : M (string * option error) :=
  let connector :=
    {| VolumeName := Name instance;
       TargetIqn := Iqn (ISCSISpec (Spec instance));
       Lun := defaultISCSILUN;
       Interface := defaultISCSIInterface;
       TargetPortals := [targetPortalOf instance];
       DoDiscovery := true |} in
  let* (devicePath, err) := iscsi_Connect connector in
  match err with
  | Some err => ret ("", Some (external err))
  | None =>
    if String.eqb devicePath ""
    then ret ("", Some (fmt_Errorf (Lit "connect reported success, but no path returned")))
    else ret (devicePath, None)
  end.

Definition doesVolumeExist (volID : string) : M (JivaVolume + error) :=
  let volID := StripName volID in
  let* err := client_Set in
  match err with
  | Some err => ret (inr (status_Error Internal (Error (external err))))
  | None =>
    let* r := client_GetJivaVolume volID in
    match r with
    | inr err =>
      if errors_IsNotFound err
      then ret (inr (status_Error NotFound (Error (external err))))
      else ret (inr (status_Error Internal (Error (external err))))
    | inl instance => ret (inl instance)
    end
  end.

(** The loop of [waitForVolumeToBeReady]; the three ways to continue
    differ in the warning they log only. *)
Fixpoint waitForVolumeToBeReady_loop (fuel : nat) (volID : string)
    (retry sleepInterval : Z) : M (JivaVolume + error) :=
  match fuel with
  | O => λ _, None
  | S fuel =>
    let* _ := time_Sleep (sleepInterval * Second) in
    let* r := doesVolumeExist volID in
    match r with
    | inr err => ret (inr err)
    | inl instance =>
      let retry := retry + 1 in
      if String.eqb (Phase (VolStatus instance)) JivaVolumePhaseReady
         && String.eqb (Status (VolStatus instance)) "RW"
      then ret (inl instance)
      else if retry <=? MaxRetryCount then
        let sleepInterval := 5 in
        if String.eqb (Status (VolStatus instance)) "RO" then
          let replicaStatus := ReplicaStatuses (VolStatus instance) in
          if negb (length replicaStatus =? 0)%nat
          then waitForVolumeToBeReady_loop fuel volID retry sleepInterval
          else waitForVolumeToBeReady_loop fuel volID retry sleepInterval
        else waitForVolumeToBeReady_loop fuel volID retry sleepInterval
      else ret (inr (fmt_Errorf (Lit "Max retry count exceeded, volume is not ready")))
    end
  end.

Definition waitForVolumeToBeReady (volID : string) : M (JivaVolume + error) :=
  waitForVolumeToBeReady_loop (S (Z.to_nat MaxRetryCount)) volID 0 0.

Fixpoint waitForVolumeToBeReachable_loop (fuel : nat) (targetPortal : Text)
    (retries : Z) : M (option error) :=
  match fuel with
  | O => λ _, None
  | S fuel =>
    let* err := net_Dial "tcp" targetPortal in
    match err with
    | None => let* _ := conn_Close in ret None
    | Some err =>
      let* _ := time_Sleep (2 * Second) in
      let retries := retries + 1 in
      if retries >=? MaxRetryCount
      then ret (Some (fmt_Errorf
             (Sprintf "iSCSI Target not reachable, TargetPortal {%v}, err:%v"
                      [targetPortal; Error (external err)])))
      else waitForVolumeToBeReachable_loop fuel targetPortal retries
    end
  end.

Definition waitForVolumeToBeReachable (targetPortal : Text) : M (option error) :=
  waitForVolumeToBeReachable_loop (S (Z.to_nat MaxRetryCount)) targetPortal 0.

Definition validateStagingReq (req : NodeStageVolumeRequest)
    : nodeStageRequest * option error :=
  let empty := {| stagingPath := ""; fsType := ""; volumeID := "" |} in
  let volumeID := stage_VolumeId req in
  if (String.length volumeID =? 0)%nat
  then (empty, Some (status_Error InvalidArgument (Lit "Volume ID not provided")))
  else
    let volID := StripName volumeID in
    match stage_VolumeCapability req with
    | None => (empty, Some (status_Error InvalidArgument (Lit "Volume capability not provided")))
    | Some volCap =>
      if negb (isValidVolumeCapabilities [volCap])
      then (empty, Some (status_Error InvalidArgument (Lit "Volume capability not supported")))
      else
        match GetMount volCap with
        | None =>
          (empty, Some (status_Error InvalidArgument
             (Lit "NodeStageVolume: mount is nil within volume capability")))
        | Some mount =>
          let fsType := FsType mount in
          let fsType := if (String.length fsType =? 0)%nat then defaultFsType else fsType in
          let stagingPath := stage_StagingTargetPath req in
          if (String.length stagingPath =? 0)%nat
          then (empty, Some (status_Error InvalidArgument (Lit "staging path is empty")))
          else ({| volumeID := volID; fsType := fsType; stagingPath := stagingPath |}, None)
        end
    end.

Definition isAlreadyMounted (volID path : string) : M (option error) :=
  let* (mountList, err) := mounter_List in
  match err with
  | Some _ => ret (Some (fmt_Errorf (Lit "Failed to list mount paths")))
  | None =>
    let currentMounts : gmap string bool :=
      fold_left (λ currentMounts mntInfo,
                   if Contains (mp_Path mntInfo) volID
                   then <[mp_Path mntInfo := true]> currentMounts
                   else currentMounts)
                mountList ∅ in
    if (1 <? size currentMounts)%nat then
      match currentMounts !! path with
      | Some true => ret None
      | _ => ret (Some (fmt_Errorf
               (Sprintf "Volume is already mounted at more than one place: {%v}"
                        [PathSet currentMounts])))
      end
    else ret None
  end.

Definition formatAndMount (req : NodeStageVolumeRequest) (devicePath : string)
    : M (option error) :=
  let mntPath := stage_StagingTargetPath req in
  let* (notMnt, err) := mounter_IsLikelyNotMountPoint mntPath in
  let* mkdirErr :=
    (if negb (isNil err) && negb (os_IsNotExist err)
     then os_MkdirAll mntPath perm_0750
     else ret None) in
  match mkdirErr with
  | Some err => ret (Some (external err))
  | None =>
    if negb notMnt then ret None
    else
      let mount := from_option GetMount None (stage_VolumeCapability req) in
      let fsType := GetFsType mount in
      let options := ([] ++ GetMountFlags mount)%list in
      let* err := mounter_FormatAndMount devicePath mntPath fsType options in
      match err with
      | Some err => ret (Some (external err))
      | None => ret None
      end
  end.

(** The answer to a call that finds its volume in transition. *)
Definition inProgress (volID : string) : Result :=
  (None, Some (status_Error Aborted
     (Sprintf "an operation on this volume=%q is already in progress" [Lit volID]))).

(** The guard prologue the four handlers share (as in lines 235 to 242):
    try to insert the id, answer Aborted when it is there already, else
    run the rest with the deletion deferred. *)
Definition guarded (volID : string) (rest : M Result) : M Result :=
  let* ok := volumeTransition_Insert volID in
  if negb ok then ret (inProgress volID)
  else defer (volumeTransition_Delete volID) rest.

(** [NodeStageVolume] after the guard is taken (lines 244 to 297). *)
Definition NodeStageVolume_body (req : NodeStageVolumeRequest)
    (reqParam : nodeStageRequest) : M Result :=
  let* r := waitForVolumeToBeReady (volumeID reqParam) in
  match r with
  | inr err => ret (None, Some (status_Error FailedPrecondition (Error err)))
  | inl instance =>
  let* err := isAlreadyMounted (volumeID reqParam) (stagingPath reqParam) in
  match err with
  | Some err => ret (None, Some err)
  | None =>
  let* err := waitForVolumeToBeReachable (targetPortalOf instance) in
  match err with
  | Some err => ret (None, Some (status_Error FailedPrecondition (Error err)))
  | None =>
  let* (devicePath, err) := attachDisk instance in
  match err with
  | Some err => ret (None, Some (status_Error Internal (Error err)))
  | None =>
  let* r := client_GetJivaVolume (volumeID reqParam) in
  match r with
  | inr err => ret (None, Some (external err))
  | inl instance =>
  let instance :=
    {| Name := Name instance;
       Spec := {| ISCSISpec := ISCSISpec (Spec instance);
                  MountInfo := {| FSType := fsType reqParam;
                                  DevicePath := devicePath;
                                  Path := stagingPath reqParam |} |};
       VolStatus := VolStatus instance |} in
  let* err := client_UpdateJivaVolume instance in
  match err with
  | Some err => ret (None, Some (status_Error Internal (Error (external err))))
  | None =>
  let* err := os_MkdirAll (stagingPath reqParam) perm_0750 in
  match err with
  | Some err => ret (None, Some (status_Error Internal (Error (external err))))
  | None =>
  let* err := formatAndMount req (DevicePath (MountInfo (Spec instance))) in
  match err with
  | Some err => ret (None, Some (status_Error Internal (Error err)))
  | None => ret (Some NodeStageVolumeResponse, None)
  end end end end end end end end.

Definition NodeStageVolume (req : NodeStageVolumeRequest) : M Result :=
  let (reqParam, err) := validateStagingReq req in
  match err with
  | Some err => ret (None, Some err)
  | None =>
    guarded (volumeID reqParam) (NodeStageVolume_body req reqParam)
  end.

(** [NodeUnstageVolume] after the guard is taken (lines 344 to 389); more
    than one reference to the device is logged and nothing else. *)
Definition NodeUnstageVolume_body (volID target : string) : M Result :=
  let* (dev, refCount, err) := mounter_GetDeviceName target in
  match err with
  | Some err =>
    ret (None, Some (status_Error Internal
           (Sprintf "failed to check if volume is mounted: %v" [Error (external err)])))
  | None =>
  if refCount =? 0 then ret (Some NodeUnstageVolumeResponse, None)
  else
  let* err := mounter_Unmount target in
  match err with
  | Some err =>
    ret (None, Some (status_Errorf Internal "Could not unmount target %q: %v"
                       [Lit target; Error (external err)]))
  | None =>
  let* r := doesVolumeExist volID in
  match r with
  | inr err => ret (None, Some err)
  | inl instance =>
  let* err := iscsi_Disconnect (Iqn (ISCSISpec (Spec instance)))
                               [targetPortalOf instance] in
  match err with
  | Some err => ret (None, Some (status_Error Internal (Error (external err))))
  | None =>
  let* err := os_RemoveAll (Path (MountInfo (Spec instance))) in
  match err with
  | Some err => ret (None, Some (status_Error Internal (Error (external err))))
  | None => ret (Some NodeUnstageVolumeResponse, None)
  end end end end end.

Definition NodeUnstageVolume (req : NodeUnstageVolumeRequest) : M Result :=
  let volID := unstage_VolumeId req in
  if String.eqb volID ""
  then ret (None, Some (status_Error InvalidArgument
              (Lit "NodeUnstageVolume Volume ID must be provided")))
  else
    let target := unstage_StagingTargetPath req in
    if (String.length target =? 0)%nat
    then ret (None, Some (status_Error InvalidArgument (Lit "Staging target not provided")))
    else
      guarded volID (NodeUnstageVolume_body volID target).

Fixpoint hasOption (options : list string) (opt : string) : bool :=
  match options with
  | [] => false
  | o :: options => if String.eqb o opt then true else hasOption options opt
  end.

Definition nodePublishVolumeForFileSystem (req : NodePublishVolumeRequest)
    (mountOptions : list string) (mode_Mount : option MountVolume) : M (option error) :=
  let target := publish_TargetPath req in
  let source := publish_StagingTargetPath req in
  let mountOptions :=
    match mode_Mount with
    | Some m =>
      fold_left (λ mountOptions f,
                   if negb (hasOption mountOptions f)
                   then (mountOptions ++ [f])%list else mountOptions)
                (MountFlags m) mountOptions
    | None => mountOptions
    end in
  let* err := os_MkdirAll target 0 in
  match err with
  | Some err =>
    ret (Some (status_Errorf Internal "Could not create dir {%q}, err: %v"
                 [Lit target; Error (external err)]))
  | None =>
  let* err := os_Chmod target 0 in
  match err with
  | Some err =>
    ret (Some (status_Errorf Internal "Could not change mode of dir {%q}, err: %v"
                 [Lit target; Error (external err)]))
  | None =>
  let fsType := GetFsType mode_Mount in
  let fsType := if (String.length fsType =? 0)%nat then defaultFsType else fsType in
  let* err := mounter_Mount source target fsType mountOptions in
  match err with
  | Some err =>
    let* removeErr := os_Remove target in
    match removeErr with
    | Some _ =>
      ret (Some (status_Errorf Internal "Could not remove mount target %q: %v"
                   [Lit target; Error (external err)]))
    | None =>
      ret (Some (status_Errorf Internal "Could not mount %q at %q: %v"
                   [Lit source; Lit target; Error (external err)]))
    end
  | None => ret None
  end end end.

(** [NodePublishVolume] after the guard is taken (lines 463 to 481). *)
Definition NodePublishVolume_body (req : NodePublishVolumeRequest)
    (volumeID target : string) (volCap : VolumeCapability) : M Result :=
  let* err := isAlreadyMounted volumeID target in
  match err with
  | Some err => ret (None, Some err)
  | None =>
    let mountOptions := ["bind"] in
    let mountOptions :=
      if publish_Readonly req then (mountOptions ++ ["ro"])%list else mountOptions in
    match AccessType volCap with
    | Some VolumeCapability_Block =>
      ret (Some NodePublishVolumeResponse,
           Some (status_Error Unimplemented
                   (Lit "doesn't support block device provisioning")))
    | Some (VolumeCapability_Mount mode_Mount) =>
      let* err := nodePublishVolumeForFileSystem req mountOptions mode_Mount in
      match err with
      | Some err => ret (None, Some err)
      | None => ret (Some NodePublishVolumeResponse, None)
      end
    | None => ret (Some NodePublishVolumeResponse, None)
    end
  end.

Definition NodePublishVolume (req : NodePublishVolumeRequest) : M Result :=
  let volumeID := publish_VolumeId req in
  if (String.length volumeID =? 0)%nat
  then ret (None, Some (status_Error InvalidArgument (Lit "Volume ID not provided")))
  else
    let target := publish_TargetPath req in
    if (String.length target =? 0)%nat
    then ret (None, Some (status_Error InvalidArgument (Lit "Target path not provided")))
    else
      match publish_VolumeCapability req with
      | None =>
        ret (None, Some (status_Error InvalidArgument (Lit "Volume capability not provided")))
      | Some volCap =>
        if negb (isValidVolumeCapabilities [volCap])
        then ret (None, Some (status_Error InvalidArgument
                    (Lit "Volume capability not supported")))
        else
          guarded volumeID (NodePublishVolume_body req volumeID target volCap)
      end.

Definition unmount (volumeID target : string) : M (option error) :=
  let* (notMnt, err) := mounter_IsLikelyNotMountPoint target in
  if (isNil err && notMnt) || os_IsNotExist err
  then ret None
  else
    let* err := mounter_Unmount target in
    match err with
    | Some err =>
      ret (Some (status_Errorf Internal "Could not unmount %q: %v"
                   [Lit target; Error (external err)]))
    | None => ret None
    end.

(** [NodeUnpublishVolume] after the guard is taken (lines 559 to 563). *)
Definition NodeUnpublishVolume_body (volumeID target : string) : M Result :=
  let* err := unmount volumeID target in
  match err with
  | Some err => ret (None, Some err)
  | None => ret (Some NodeUnpublishVolumeResponse, None)
  end.

Definition NodeUnpublishVolume (req : NodeUnpublishVolumeRequest) : M Result :=
  let volumeID := unpublish_VolumeId req in
  if (String.length volumeID =? 0)%nat
  then ret (None, Some (status_Error InvalidArgument (Lit "Volume ID not provided")))
  else
    let target := unpublish_TargetPath req in
    if (String.length target =? 0)%nat
    then ret (None, Some (status_Error InvalidArgument (Lit "Target path not provided")))
    else
      guarded volumeID (NodeUnpublishVolume_body volumeID target).

Definition NodeGetVolumeStats (req : NodeGetVolumeStatsRequest) : M Result :=
  let volumeID := stats_VolumeId req in
  if String.eqb volumeID ""
  then ret (None, Some (status_Error InvalidArgument
              (Lit "NodeGetVolumeStats Volume ID must be provided")))
  else
    let volumePath := stats_VolumePath req in
    if String.eqb volumePath ""
    then ret (None, Some (status_Error InvalidArgument
                (Lit "NodeGetVolumeStats Volume Path must be provided")))
    else
      let* (mounted, err) := mounter_ExistsPath volumePath in
      match err with
      | Some err =>
        ret (None, Some (status_Errorf Internal
               "failed to check if volume path %q is mounted: %s"
               [Lit volumePath; Error (external err)]))
      | None =>
        if negb mounted
        then ret (None, Some (status_Errorf NotFound "volume path %q is not mounted"
                                [Lit volumePath]))
        else
          let* (stats, err) := getStatistics volumePath in
          match err with
          | Some err =>
            ret (None, Some (status_Errorf Internal
                   "failed to retrieve capacity statistics for volume path %q: %s"
                   [Lit volumePath; Error (external err)]))
          | None => ret (Some (NodeGetVolumeStatsResponse stats), None)
          end
      end.

(** The two request validators at the end of node.go (lines 700 to
    728); the handlers above do not call them. *)
Definition validateNodePublishReq (req : NodePublishVolumeRequest) : option error :=
  match publish_VolumeCapability req with
  | None =>
    Some (status_Error InvalidArgument (Lit "Volume capability missing in request"))
  | Some _ =>
    if (String.length (publish_VolumeId req) =? 0)%nat
    then Some (status_Error InvalidArgument (Lit "Volume ID missing in request"))
    else None
  end.

Definition validateNodeUnpublishReq (req : NodeUnpublishVolumeRequest) : option error :=
  if String.eqb (unpublish_VolumeId req) ""
  then Some (status_Error InvalidArgument (Lit "Volume ID missing in request"))
  else if String.eqb (unpublish_TargetPath req) ""
  then Some (status_Error InvalidArgument (Lit "Target path missing in request"))
  else None.

(** The four calls that change a volume. *)
Inductive MutatingCall :=
| CallStage (req : NodeStageVolumeRequest)
| CallUnstage (req : NodeUnstageVolumeRequest)
| CallPublish (req : NodePublishVolumeRequest)
| CallUnpublish (req : NodeUnpublishVolumeRequest).

Definition serve (c : MutatingCall) : M Result :=
  match c with
  | CallStage req => NodeStageVolume req
  | CallUnstage req => NodeUnstageVolume req
  | CallPublish req => NodePublishVolume req
  | CallUnpublish req => NodeUnpublishVolume req
  end.

(** The volume id as the request carries it. *)
Definition requestVolumeId (c : MutatingCall) : string :=
  match c with
  | CallStage req => stage_VolumeId req
  | CallUnstage req => unstage_VolumeId req
  | CallPublish req => publish_VolumeId req
  | CallUnpublish req => unpublish_VolumeId req
  end.

(** The mount paths of a mount table that contain the volume id: the
    set the mount-state inspector is described by. *)
Definition pathsContaining (volID : string) (mountList : list MountPoint)
    : gset string :=
  list_to_set (filter (λ path, Contains path volID = true) (mp_Path <$> mountList)).

(** What a log shows: the number of status checks (reads of the volume
    record) and the delays slept, in order. *)
Definition statusChecks (t : list Event) : nat :=
  length (omap (λ e, match e with EvGetJivaVolume volID _ => Some volID | _ => None end) t).

Definition delays (t : list Event) : list Z :=
  omap (λ e, match e with EvSleep d => Some d | _ => None end) t.

(** The volume serves: the test of [waitForVolumeToBeReady]. *)
Definition serving (instance : JivaVolume) : Prop :=
  Phase (VolStatus instance) = JivaVolumePhaseReady
  ∧ Status (VolStatus instance) = "RW".

(** [m] returns outside the guard with an answer and a log that satisfy [Q]. *)
Definition yields {A} (m : M A) (Q : A → list Event → Prop) : Prop :=
  ∀ w0, ∃ r w t, runs m w0 r w t ∧ Q r t.

(** Kinds of logged calls: those of the readiness poll, those of the
    reachability poll, those of [formatAndMount], and the failed calls to
    the record store. *)
Definition pollEvent (e : Event) : Prop :=
  match e with
  | EvSleep _ | EvClientSet _ | EvGetJivaVolume _ _ => True
  | _ => False
  end.

Definition reachEvent (e : Event) : Prop :=
  match e with
  | EvDial _ _ _ | EvConnClose | EvSleep _ => True
  | _ => False
  end.

Definition mountEvent (fstype : string) (e : Event) : Prop :=
  match e with
  | EvIsLikelyNotMountPoint _ _ | EvMkdirAll _ _ _ => True
  | EvFormatAndMount _ _ fs _ _ => fs = fstype
  | _ => False
  end.

Definition storeFailure (e : Event) : Prop :=
  match e with
  | EvClientSet (Some _) | EvGetJivaVolume _ (inr _)
  | EvUpdateJivaVolume _ (Some _) => True
  | _ => False
  end.

(** The filesystem type a Stage request declares, and the one it resolves
    to (lines 204 to 207). *)
Definition declaredFsType (req : NodeStageVolumeRequest) : string :=
  GetFsType (from_option GetMount None (stage_VolumeCapability req)).

Definition resolvedFsType (req : NodeStageVolumeRequest) : string :=
  if (String.length (declaredFsType req) =? 0)%nat then defaultFsType
  else declaredFsType req.

(** What the answer and the log of a Stage sequence have to do with each
    other: how failed calls to the record store before the attach, a
    failed read after it and failed updates are answered, and which
    filesystem type goes into the record and which to the mounter. *)
Definition stageOutcome (req : NodeStageVolumeRequest) (reqParam : nodeStageRequest)
    (r : Result) (t : list Event) : Prop :=
  (∀ e, EvClientSet (Some e) ∈ t → result_code r = Some FailedPrecondition)
  ∧ (∀ id e, EvGetJivaVolume id (inr e) ∈ t → (∀ c x, EvConnect c x ∉ t) →
       result_code r = Some FailedPrecondition)
  ∧ (∀ id e c x, EvGetJivaVolume id (inr e) ∈ t → EvConnect c x ∈ t →
       r = (None, Some (external e)))
  ∧ (∀ cr e, EvUpdateJivaVolume cr (Some e) ∈ t →
       r = (None, Some (status_Error Internal (Lit (ext_msg e)))))
  ∧ (∀ cr x, EvUpdateJivaVolume cr x ∈ t →
       FSType (MountInfo (Spec cr)) = fsType reqParam)
  ∧ (∀ src tgt fs opts x, EvFormatAndMount src tgt fs opts x ∈ t →
       fs = declaredFsType req).

(** The id under which a call takes the guard, and the requests that
    pass validation; [serve_guard_key] below shows the two are right. *)
Definition guardKey (c : MutatingCall) : string :=
  match c with
  | CallStage req => StripName (stage_VolumeId req)
  | CallUnstage req => unstage_VolumeId req
  | CallPublish req => publish_VolumeId req
  | CallUnpublish req => unpublish_VolumeId req
  end.

Definition accepted (c : MutatingCall) : Prop :=
  match c with
  | CallStage req => (validateStagingReq req).2 = None
  | CallUnstage req =>
    unstage_VolumeId req ≠ "" ∧ unstage_StagingTargetPath req ≠ ""
  | CallPublish req =>
    publish_VolumeId req ≠ "" ∧ publish_TargetPath req ≠ ""
    ∧ ∃ volCap, publish_VolumeCapability req = Some volCap
                ∧ isValidVolumeCapabilities [volCap] = true
  | CallUnpublish req =>
    unpublish_VolumeId req ≠ "" ∧ unpublish_TargetPath req ≠ ""
  end.

(** A call got past the guard: it called a collaborator, and its answer is
    not Aborted. *)
Definition proceeds (r : Result) (t : list Event) : Prop :=
  t ≠ [] ∧ result_code r ≠ Some Aborted.

(** ** The logs of whole runs

    What the pieces of a handler leave in the log, call by call and in
    order; the exits of the handlers are described with them. *)

(** The connector [attachDisk] hands to [iscsi.Connect] (lines 98 to 105). *)
Definition connectorOf (instance : JivaVolume) : Connector :=
  {| VolumeName := Name instance;
     TargetIqn := Iqn (ISCSISpec (Spec instance));
     Lun := defaultISCSILUN;
     Interface := defaultISCSIInterface;
     TargetPortals := [targetPortalOf instance];
     DoDiscovery := true |}.

(** The most status checks the readiness poll makes, and the most probes
    the reachability poll makes. *)
Definition maxChecks : nat := Z.to_nat (Z.max 1 (MaxRetryCount + 1)).
Definition maxProbes : nat := Z.to_nat (Z.max 1 MaxRetryCount).

(** One status check that reads [instance] after a delay [d], and the
    checks that read the records [pending] one after the other, the first
    after [d] and the others after five seconds each. *)
Definition statusCheck (key : string) (d : Z) (instance : JivaVolume) : list Event :=
  [EvSleep d; EvClientSet None; EvGetJivaVolume key (inl instance)].

Fixpoint pendingChecks (key : string) (d : Z) (pending : list JivaVolume)
    : list Event :=
  match pending with
  | [] => []
  | instance :: pending =>
    statusCheck key d instance ++ pendingChecks key (5 * Second) pending
  end.

Definition nextDelay (d : Z) (pending : list JivaVolume) : Z :=
  match pending with [] => d | _ => 5 * Second end.

(** The probes that failed with [errs], each followed by its two seconds
    of sleep. *)
Definition failedProbes (targetPortal : Text) (errs : list ExtError) : list Event :=
  flat_map (λ e, [EvDial "tcp" targetPortal (Some e); EvSleep (2 * Second)]) errs.

(** [doesVolumeExist]: answer and log. *)
Definition lookupExit (key : string) (r : JivaVolume + error) (t : list Event) : Prop :=
  match r with
  | inl instance => t = [EvClientSet None; EvGetJivaVolume key (inl instance)]
  | inr err =>
    ∃ e, (t = [EvClientSet (Some e)]
          ∧ err = status_Error Internal (Lit (ext_msg e)))
         ∨ (t = [EvClientSet None; EvGetJivaVolume key (inr e)]
            ∧ err = status_Error (if errors_IsNotFound e then NotFound else Internal)
                                 (Lit (ext_msg e)))
  end.

(** [waitForVolumeToBeReady] with room for [n] checks, the first after
    [d]: it hands back the first record that serves; it gives up after
    [n] records that do not; it stops at the first check that fails. *)
Definition pollExit (key : string) (n : nat) (d : Z) (r : JivaVolume + error)
    (t : list Event) : Prop :=
  ∃ pending,
    Forall (λ instance, ¬ serving instance) pending
    ∧ match r with
      | inl instance =>
        serving instance ∧ (length pending < n)%nat
        ∧ t = pendingChecks key d pending
              ++ statusCheck key (nextDelay d pending) instance
      | inr err =>
        (length pending = n
         ∧ t = pendingChecks key d pending
         ∧ err = fmt_Errorf (Lit "Max retry count exceeded, volume is not ready"))
        ∨ ((length pending < n)%nat
           ∧ ∃ tl, lookupExit key (inr err) tl
                   ∧ t = pendingChecks key d pending
                         ++ EvSleep (nextDelay d pending) :: tl)
      end.

(** [waitForVolumeToBeReachable] with room for [n] probes: it returns at
    the first probe that connects, closing the connection; it gives up
    after [n] failed probes with the error of the last one. *)
Definition probeExit (targetPortal : Text) (n : nat) (r : option error)
    (t : list Event) : Prop :=
  ∃ errs,
    match r with
    | None =>
      (length errs < n)%nat
      ∧ t = failedProbes targetPortal errs
            ++ [EvDial "tcp" targetPortal None; EvConnClose]
    | Some err =>
      length errs = n
      ∧ t = failedProbes targetPortal errs
      ∧ ∃ e, last errs = Some e
             ∧ err = fmt_Errorf
                       (Sprintf "iSCSI Target not reachable, TargetPortal {%v}, err:%v"
                                [targetPortal; Lit (ext_msg e)])
    end.

(** [isAlreadyMounted]: one listing of the mount table. *)
Definition inspectExit (r : option error) (t : list Event) : Prop :=
  ∃ mountList err,
    t = [EvList (mountList, err)]
    ∧ match err with
      | Some _ => r = Some (fmt_Errorf (Lit "Failed to list mount paths"))
      | None =>
        ∀ e, r = Some e →
          ∃ m, e = fmt_Errorf
                     (Sprintf "Volume is already mounted at more than one place: {%v}"
                              [PathSet m])
      end.

(** [attachDisk]: one call to [iscsi.Connect]. *)
Definition attachExit (instance : JivaVolume) (r : string * option error)
    (t : list Event) : Prop :=
  ∃ devicePath err,
    t = [EvConnect (connectorOf instance) (devicePath, err)]
    ∧ match err with
      | Some e => r = ("", Some (external e))
      | None =>
        (devicePath = ""
         ∧ r = ("", Some (fmt_Errorf
                            (Lit "connect reported success, but no path returned"))))
        ∨ (devicePath ≠ "" ∧ r = (devicePath, None))
      end.

(** The calls Stage makes before it attaches the device, and the calls it
    makes after. *)
Definition beforeAttach (e : Event) : Prop :=
  match e with
  | EvSleep _ | EvClientSet _ | EvGetJivaVolume _ _ | EvList _
  | EvDial _ _ _ | EvConnClose => True
  | _ => False
  end.

Definition afterAttach (e : Event) : Prop :=
  match e with
  | EvGetJivaVolume _ _ | EvUpdateJivaVolume _ _ | EvMkdirAll _ _ _
  | EvIsLikelyNotMountPoint _ _ | EvFormatAndMount _ _ _ _ _ => True
  | _ => False
  end.

Definition upToAttach (e : Event) : Prop :=
  match e with EvConnect _ _ => True | _ => beforeAttach e end.

Definition upToUpdate (e : Event) : Prop :=
  match e with EvUpdateJivaVolume _ _ => True | _ => upToAttach e end.

(** The mount flags a Stage request declares. *)
Definition declaredMountFlags (req : NodeStageVolumeRequest) : list string :=
  GetMountFlags (from_option GetMount None (stage_VolumeCapability req)).

(** The directory is made again after a check of the mount point that
    failed for another reason than a missing path. *)
Definition remade (mntPath : string) (err : option ExtError) (mk : list Event) : Prop :=
  if isNil err || os_IsNotExist err then mk = []
  else mk = [EvMkdirAll mntPath perm_0750 None].

(** [formatAndMount]: the three ways out. *)
Inductive formatExit (req : NodeStageVolumeRequest) (devicePath : string)
    (r : option error) (t : list Event) : Prop :=
| format_mkdir_failed notMnt err e :
    isNil err || os_IsNotExist err = false →
    t = [EvIsLikelyNotMountPoint (stage_StagingTargetPath req) (notMnt, err);
         EvMkdirAll (stage_StagingTargetPath req) perm_0750 (Some e)] →
    r = Some (external e) →
    formatExit req devicePath r t
| format_already_mounted err mk :
    remade (stage_StagingTargetPath req) err mk →
    t = EvIsLikelyNotMountPoint (stage_StagingTargetPath req) (false, err) :: mk →
    r = None →
    formatExit req devicePath r t
| format_mounted err mk x :
    remade (stage_StagingTargetPath req) err mk →
    t = EvIsLikelyNotMountPoint (stage_StagingTargetPath req) (true, err) :: mk
        ++ [EvFormatAndMount devicePath (stage_StagingTargetPath req)
              (declaredFsType req) (declaredMountFlags req) x] →
    r = external <$> x →
    formatExit req devicePath r t.

(** Milestones of the Stage sequence: the volume was found serving, the
    inspector let the call pass and a probe connected; the device is
    attached; the record with the mount information is stored. *)
Definition readyAndReachable (reqParam : nodeStageRequest) (instance : JivaVolume)
    (t : list Event) : Prop :=
  ∃ tp mountList tr,
    pollExit (StripName (volumeID reqParam)) maxChecks 0 (inl instance) tp
    ∧ probeExit (targetPortalOf instance) maxProbes None tr
    ∧ t = tp ++ [EvList (mountList, None)] ++ tr.

Definition attached (reqParam : nodeStageRequest) (instance : JivaVolume)
    (devicePath : string) (t : list Event) : Prop :=
  ∃ t0,
    readyAndReachable reqParam instance t0 ∧ devicePath ≠ ""
    ∧ t = t0 ++ [EvConnect (connectorOf instance) (devicePath, None)].

(** The record Stage writes (lines 280 to 282): the record just read,
    with new mount information. *)
Definition stagedRecord (reqParam : nodeStageRequest) (devicePath : string)
    (instance : JivaVolume) : JivaVolume :=
  {| Name := Name instance;
     Spec := {| ISCSISpec := ISCSISpec (Spec instance);
                MountInfo := {| FSType := fsType reqParam;
                                DevicePath := devicePath;
                                Path := stagingPath reqParam |} |};
     VolStatus := VolStatus instance |}.

Definition persisted (reqParam : nodeStageRequest) (devicePath : string)
    (instance' : JivaVolume) (t : list Event) : Prop :=
  ∃ instance ta,
    attached reqParam instance devicePath ta
    ∧ t = ta ++ [EvGetJivaVolume (volumeID reqParam) (inl instance');
                 EvUpdateJivaVolume (stagedRecord reqParam devicePath instance') None].

(** The exits of [NodeStageVolume] after the guard is taken, each with
    the log up to it and the answer. *)
Inductive stageExit (req : NodeStageVolumeRequest) (reqParam : nodeStageRequest)
    (r : Result) (t : list Event) : Prop :=
| stage_not_ready err :
    pollExit (StripName (volumeID reqParam)) maxChecks 0 (inr err) t →
    r = (None, Some (status_Error FailedPrecondition (Error err))) →
    stageExit req reqParam r t
| stage_inspector_error instance tp ti err :
    pollExit (StripName (volumeID reqParam)) maxChecks 0 (inl instance) tp →
    inspectExit (Some err) ti →
    t = tp ++ ti →
    r = (None, Some err) →
    stageExit req reqParam r t
| stage_unreachable instance tp mountList tr err :
    pollExit (StripName (volumeID reqParam)) maxChecks 0 (inl instance) tp →
    probeExit (targetPortalOf instance) maxProbes (Some err) tr →
    t = tp ++ [EvList (mountList, None)] ++ tr →
    r = (None, Some (status_Error FailedPrecondition (Error err))) →
    stageExit req reqParam r t
| stage_attach_failed instance t0 ta d err :
    readyAndReachable reqParam instance t0 →
    attachExit instance (d, Some err) ta →
    t = t0 ++ ta →
    r = (None, Some (status_Error Internal (Error err))) →
    stageExit req reqParam r t
| stage_refetch_failed instance devicePath ta e :
    attached reqParam instance devicePath ta →
    t = ta ++ [EvGetJivaVolume (volumeID reqParam) (inr e)] →
    r = (None, Some (external e)) →
    stageExit req reqParam r t
| stage_update_failed instance devicePath ta instance' e :
    attached reqParam instance devicePath ta →
    t = ta ++ [EvGetJivaVolume (volumeID reqParam) (inl instance');
               EvUpdateJivaVolume (stagedRecord reqParam devicePath instance')
                                  (Some e)] →
    r = (None, Some (status_Error Internal (Lit (ext_msg e)))) →
    stageExit req reqParam r t
| stage_mkdir_failed devicePath instance' tu e :
    persisted reqParam devicePath instance' tu →
    t = tu ++ [EvMkdirAll (stagingPath reqParam) perm_0750 (Some e)] →
    r = (None, Some (status_Error Internal (Lit (ext_msg e)))) →
    stageExit req reqParam r t
| stage_mount_phase devicePath instance' tu tm rm :
    persisted reqParam devicePath instance' tu →
    formatExit req devicePath rm tm →
    t = tu ++ [EvMkdirAll (stagingPath reqParam) perm_0750 None] ++ tm →
    r = match rm with
        | Some err => (None, Some (status_Error Internal (Error err)))
        | None => (Some NodeStageVolumeResponse, None)
        end →
    stageExit req reqParam r t.

(** The exits of [NodeUnstageVolume] after the guard is taken. *)
Inductive unstageExit (volID target : string) (r : Result) (t : list Event) : Prop :=
| unstage_check_failed dev refCount e :
    t = [EvGetDeviceName target (dev, refCount, Some e)] →
    r = (None, Some (status_Error Internal
           (Sprintf "failed to check if volume is mounted: %v" [Lit (ext_msg e)]))) →
    unstageExit volID target r t
| unstage_not_mounted dev :
    t = [EvGetDeviceName target (dev, 0, None)] →
    r = (Some NodeUnstageVolumeResponse, None) →
    unstageExit volID target r t
| unstage_unmount_failed dev refCount e :
    refCount ≠ 0 →
    t = [EvGetDeviceName target (dev, refCount, None); EvUnmount target (Some e)] →
    r = (None, Some (status_Errorf Internal "Could not unmount target %q: %v"
                       [Lit target; Lit (ext_msg e)])) →
    unstageExit volID target r t
| unstage_lookup_failed dev refCount tl err :
    refCount ≠ 0 →
    lookupExit (StripName volID) (inr err) tl →
    t = [EvGetDeviceName target (dev, refCount, None); EvUnmount target None] ++ tl →
    r = (None, Some err) →
    unstageExit volID target r t
| unstage_detach dev refCount instance x tr :
    refCount ≠ 0 →
    t = [EvGetDeviceName target (dev, refCount, None); EvUnmount target None;
         EvClientSet None; EvGetJivaVolume (StripName volID) (inl instance);
         EvDisconnect (Iqn (ISCSISpec (Spec instance))) [targetPortalOf instance] x]
        ++ tr →
    match x with
    | Some e =>
      tr = [] ∧ r = (None, Some (status_Error Internal (Lit (ext_msg e))))
    | None =>
      ∃ y, tr = [EvRemoveAll (Path (MountInfo (Spec instance))) y]
           ∧ r = match y with
                 | Some e => (None, Some (status_Error Internal (Lit (ext_msg e))))
                 | None => (Some NodeUnstageVolumeResponse, None)
                 end
    end →
    unstageExit volID target r t.

(** The mount options and the filesystem type [NodePublishVolume] and
    [nodePublishVolumeForFileSystem] work out (lines 468 to 471, 487 to
    501 and 514 to 517). *)
Definition publishOptions (req : NodePublishVolumeRequest)
    (mode_Mount : option MountVolume) : list string :=
  let mountOptions := ["bind"] in
  let mountOptions :=
    if publish_Readonly req then mountOptions ++ ["ro"] else mountOptions in
  match mode_Mount with
  | Some m =>
    fold_left (λ mountOptions f,
                 if negb (hasOption mountOptions f)
                 then mountOptions ++ [f] else mountOptions)
              (MountFlags m) mountOptions
  | None => mountOptions
  end.

Definition publishFsType (mode_Mount : option MountVolume) : string :=
  if (String.length (GetFsType mode_Mount) =? 0)%nat then defaultFsType
  else GetFsType mode_Mount.

(** The exits of [nodePublishVolumeForFileSystem]. *)
Inductive publishMountExit (req : NodePublishVolumeRequest)
    (mode_Mount : option MountVolume) (r : option error) (t : list Event) : Prop :=
| publish_mkdir_failed e :
    t = [EvMkdirAll (publish_TargetPath req) 0 (Some e)] →
    r = Some (status_Errorf Internal "Could not create dir {%q}, err: %v"
                [Lit (publish_TargetPath req); Lit (ext_msg e)]) →
    publishMountExit req mode_Mount r t
| publish_chmod_failed e :
    t = [EvMkdirAll (publish_TargetPath req) 0 None;
         EvChmod (publish_TargetPath req) 0 (Some e)] →
    r = Some (status_Errorf Internal "Could not change mode of dir {%q}, err: %v"
                [Lit (publish_TargetPath req); Lit (ext_msg e)]) →
    publishMountExit req mode_Mount r t
| publish_mount_failed e y :
    t = [EvMkdirAll (publish_TargetPath req) 0 None;
         EvChmod (publish_TargetPath req) 0 None;
         EvMount (publish_StagingTargetPath req) (publish_TargetPath req)
                 (publishFsType mode_Mount) (publishOptions req mode_Mount) (Some e);
         EvRemove (publish_TargetPath req) y] →
    r = Some (match y with
              | Some _ =>
                status_Errorf Internal "Could not remove mount target %q: %v"
                  [Lit (publish_TargetPath req); Lit (ext_msg e)]
              | None =>
                status_Errorf Internal "Could not mount %q at %q: %v"
                  [Lit (publish_StagingTargetPath req); Lit (publish_TargetPath req);
                   Lit (ext_msg e)]
              end) →
    publishMountExit req mode_Mount r t
| publish_mounted :
    t = [EvMkdirAll (publish_TargetPath req) 0 None;
         EvChmod (publish_TargetPath req) 0 None;
         EvMount (publish_StagingTargetPath req) (publish_TargetPath req)
                 (publishFsType mode_Mount) (publishOptions req mode_Mount) None] →
    r = None →
    publishMountExit req mode_Mount r t.

(** The exits of [NodePublishVolume] after the guard is taken. *)
Inductive publishExit (req : NodePublishVolumeRequest) (volCap : VolumeCapability)
    (r : Result) (t : list Event) : Prop :=
| publish_inspector_error err :
    inspectExit (Some err) t →
    r = (None, Some err) →
    publishExit req volCap r t
| publish_block mountList :
    AccessType volCap = Some VolumeCapability_Block →
    t = [EvList (mountList, None)] →
    r = (Some NodePublishVolumeResponse,
         Some (status_Error Unimplemented
                 (Lit "doesn't support block device provisioning"))) →
    publishExit req volCap r t
| publish_no_access_type mountList :
    AccessType volCap = None →
    t = [EvList (mountList, None)] →
    r = (Some NodePublishVolumeResponse, None) →
    publishExit req volCap r t
| publish_file_system mountList mode_Mount rm tm :
    AccessType volCap = Some (VolumeCapability_Mount mode_Mount) →
    publishMountExit req mode_Mount rm tm →
    t = EvList (mountList, None) :: tm →
    r = match rm with
        | Some err => (None, Some err)
        | None => (Some NodePublishVolumeResponse, None)
        end →
    publishExit req volCap r t.

(** The exits of [NodeUnpublishVolume] after the guard is taken. *)
Inductive unpublishExit (target : string) (r : Result) (t : list Event) : Prop :=
| unpublish_not_mounted notMnt err :
    (isNil err && notMnt) || os_IsNotExist err = true →
    t = [EvIsLikelyNotMountPoint target (notMnt, err)] →
    r = (Some NodeUnpublishVolumeResponse, None) →
    unpublishExit target r t
| unpublish_unmount notMnt err x :
    (isNil err && notMnt) || os_IsNotExist err = false →
    t = [EvIsLikelyNotMountPoint target (notMnt, err); EvUnmount target x] →
    r = match x with
        | Some e =>
          (None, Some (status_Errorf Internal "Could not unmount %q: %v"
                         [Lit target; Lit (ext_msg e)]))
        | None => (Some NodeUnpublishVolumeResponse, None)
        end →
    unpublishExit target r t.

(** A call was turned away before it did anything: by the validation of
    its request, or by the guard. *)
Definition turnedAway (r : Result) : Prop :=
  r.1 = None
  ∧ (result_code r = Some InvalidArgument ∨ result_code r = Some Aborted).

(** The response of each of the four handlers, and the codes each can
    answer with in place of a response. *)
Definition responseOf (c : MutatingCall) : Response :=
  match c with
  | CallStage _ => NodeStageVolumeResponse
  | CallUnstage _ => NodeUnstageVolumeResponse
  | CallPublish _ => NodePublishVolumeResponse
  | CallUnpublish _ => NodeUnpublishVolumeResponse
  end.

Definition codes (c : MutatingCall) : list Code :=
  match c with
  | CallStage _ => [InvalidArgument; Aborted; FailedPrecondition; Unknown; Internal]
  | CallUnstage _ => [InvalidArgument; Aborted; Internal; NotFound]
  | CallPublish _ => [InvalidArgument; Aborted; Unknown; Internal]
  | CallUnpublish _ => [InvalidArgument; Aborted; Internal]
  end.

(** ** Running the monad *)

Lemma runs_ret {A} (a : A) w0 : runs (ret (World:=World) a) w0 a w0 [].
Proof. intros T tr ids. unfold ret. by rewrite app_nil_r. Qed.

Lemma runs_bind {A B} (m : M A) (k : A → M B) w0 a w1 t1 b w2 t2 :
  runs m w0 a w1 t1 → runs (k a) w1 b w2 t2 → runs (bind m k) w0 b w2 (t1 ++ t2).
Proof.
  intros Hm Hk T tr ids. unfold bind. rewrite Hm, Hk. by rewrite app_assoc.
Qed.

Lemma runs_extern {A} (f : World → A * World) (ev : A → Event) w0 :
  runs (extern f ev) w0 (f w0).1 (f w0).2 [ev (f w0).1].
Proof. intros T tr ids. unfold extern. simpl. by destruct (f w0). Qed.

Lemma outside_ret {A} (a : A) : outside (ret (World:=World) a).
Proof. intros w0. eauto using runs_ret. Qed.

Lemma outside_bind {A B} (m : M A) (k : A → M B) :
  outside m → (∀ a, outside (k a)) → outside (bind m k).
Proof.
  intros Hm Hk w0. destruct (Hm w0) as (a & w1 & t1 & H1).
  destruct (Hk a w1) as (b & w2 & t2 & H2). eauto using runs_bind.
Qed.

Lemma outside_extern {A} (f : World → A * World) (ev : A → Event) :
  outside (extern f ev).
Proof. intros w0. eauto using runs_extern. Qed.

Ltac outside_step :=
  lazymatch goal with
  | |- outside (ret _) => apply outside_ret
  | |- outside (bind _ _) => apply outside_bind; [| intros ?]
  | |- outside (extern _ _) => apply outside_extern
  | |- outside (match ?x with _ => _ end) => destruct x
  | |- outside (let (_, _) := ?x in _) => destruct x
  end.

Ltac outside_auto := repeat (simpl; first [assumption | outside_step]).

Lemma outside_doesVolumeExist volID : outside (doesVolumeExist volID).
Proof. unfold doesVolumeExist, client_Set, client_GetJivaVolume. outside_auto. Qed.

Lemma outside_waitForVolumeToBeReady_loop fuel volID retry sleepInterval :
  (Z.to_nat (MaxRetryCount - retry) < fuel)%nat →
  outside (waitForVolumeToBeReady_loop fuel volID retry sleepInterval).
Proof.
  revert retry sleepInterval.
  induction fuel as [|fuel IH]; intros retry sleepInterval Hfuel; [lia|].
  simpl. apply outside_bind; [apply outside_extern|intros _].
  apply outside_bind; [apply outside_doesVolumeExist|intros [instance|err]];
    [|apply outside_ret].
  destruct (_ && _); [apply outside_ret|].
  destruct (Z.leb_spec (retry + 1) MaxRetryCount); [|apply outside_ret].
  assert (Z.to_nat (MaxRetryCount - (retry + 1)) < fuel)%nat by lia.
  repeat case_match; by apply IH.
Qed.

Lemma outside_waitForVolumeToBeReady volID : outside (waitForVolumeToBeReady volID).
Proof. apply outside_waitForVolumeToBeReady_loop. lia. Qed.

Lemma outside_waitForVolumeToBeReachable_loop fuel targetPortal retries :
  (Z.to_nat (MaxRetryCount - retries) ≤ fuel)%nat → (0 < fuel)%nat →
  outside (waitForVolumeToBeReachable_loop fuel targetPortal retries).
Proof.
  revert retries.
  induction fuel as [|fuel IH]; intros retries Hfuel Hpos; [lia|].
  simpl. apply outside_bind; [apply outside_extern|intros [err|]].
  - apply outside_bind; [apply outside_extern|intros _].
    destruct (Z.geb_spec (retries + 1) MaxRetryCount); [apply outside_ret|].
    apply IH; lia.
  - apply outside_bind; [apply outside_extern|intros _]. apply outside_ret.
Qed.

Lemma outside_waitForVolumeToBeReachable targetPortal :
  outside (waitForVolumeToBeReachable targetPortal).
Proof. apply outside_waitForVolumeToBeReachable_loop; lia. Qed.

Lemma outside_isAlreadyMounted volID path : outside (isAlreadyMounted volID path).
Proof. unfold isAlreadyMounted, mounter_List. outside_auto. Qed.

Lemma outside_attachDisk instance : outside (attachDisk instance).
Proof. unfold attachDisk, iscsi_Connect. outside_auto. Qed.

Lemma outside_formatAndMount req devicePath : outside (formatAndMount req devicePath).
Proof.
  unfold formatAndMount, mounter_IsLikelyNotMountPoint, os_MkdirAll,
    mounter_FormatAndMount.
  outside_auto.
Qed.

Lemma outside_unmount volumeID target : outside (unmount volumeID target).
Proof.
  unfold unmount, mounter_IsLikelyNotMountPoint, mounter_Unmount. outside_auto.
Qed.

Lemma outside_nodePublishVolumeForFileSystem req mountOptions mode_Mount :
  outside (nodePublishVolumeForFileSystem req mountOptions mode_Mount).
Proof.
  unfold nodePublishVolumeForFileSystem, os_MkdirAll, os_Chmod, mounter_Mount,
    os_Remove.
  outside_auto.
Qed.

Lemma outside_NodeStageVolume_body req reqParam :
  outside (NodeStageVolume_body req reqParam).
Proof.
  unfold NodeStageVolume_body.
  apply outside_bind; [apply outside_waitForVolumeToBeReady|intros [instance|?]];
    [|apply outside_ret].
  apply outside_bind; [apply outside_isAlreadyMounted|intros [?|]];
    [apply outside_ret|].
  apply outside_bind; [apply outside_waitForVolumeToBeReachable|intros [?|]];
    [apply outside_ret|].
  apply outside_bind; [apply outside_attachDisk|intros [devicePath [?|]]];
    [apply outside_ret|].
  apply outside_bind; [apply outside_extern|intros [instance'|?]];
    [|apply outside_ret].
  apply outside_bind; [apply outside_extern|intros [?|]]; [apply outside_ret|].
  apply outside_bind; [apply outside_extern|intros [?|]]; [apply outside_ret|].
  apply outside_bind; [apply outside_formatAndMount|intros [?|]];
    apply outside_ret.
Qed.

Lemma outside_NodeUnstageVolume_body volID target :
  outside (NodeUnstageVolume_body volID target).
Proof.
  unfold NodeUnstageVolume_body.
  apply outside_bind; [apply outside_extern|intros [[dev refCount] [?|]]];
    [apply outside_ret|].
  destruct (refCount =? 0); [apply outside_ret|].
  apply outside_bind; [apply outside_extern|intros [?|]]; [apply outside_ret|].
  apply outside_bind; [apply outside_doesVolumeExist|intros [instance|?]];
    [|apply outside_ret].
  apply outside_bind; [apply outside_extern|intros [?|]]; [apply outside_ret|].
  apply outside_bind; [apply outside_extern|intros [?|]]; apply outside_ret.
Qed.

Lemma outside_NodePublishVolume_body req volumeID target volCap :
  outside (NodePublishVolume_body req volumeID target volCap).
Proof.
  unfold NodePublishVolume_body.
  apply outside_bind; [apply outside_isAlreadyMounted|intros [?|]];
    [apply outside_ret|].
  destruct (AccessType volCap) as [[|mode_Mount]|]; try apply outside_ret.
  apply outside_bind; [apply outside_nodePublishVolumeForFileSystem|intros [?|]];
    apply outside_ret.
Qed.

Lemma outside_NodeUnpublishVolume_body volumeID target :
  outside (NodeUnpublishVolume_body volumeID target).
Proof.
  unfold NodeUnpublishVolume_body.
  apply outside_bind; [apply outside_unmount|intros [?|]]; apply outside_ret.
Qed.

(** ** The guard around a handler *)

Lemma guarded_held volID rest s :
  volID ∈ volumeTransition s → guarded volID rest s = Some (inProgress volID, s).
Proof.
  intros H. unfold guarded, bind, volumeTransition_Insert, Transition_Insert.
  rewrite decide_True by done. simpl. by destruct s.
Qed.

Lemma guarded_free volID rest s r w t :
  volID ∉ volumeTransition s → runs rest (world s) r w t →
  guarded volID rest s
  = Some (r, Build_State (volumeTransition s) w (trace s ++ t)
                         (acquired s ++ [volID])).
Proof.
  intros H Hrest.
  unfold guarded, defer, bind, volumeTransition_Insert, Transition_Insert.
  rewrite decide_False by done. simpl. rewrite Hrest. simpl.
  unfold ret, Transition_Delete. do 3 f_equal. clear -H. set_solver.
Qed.

Lemma guarded_keeps_guard volID rest s :
  outside rest →
  ∃ r s', guarded volID rest s = Some (r, s')
          ∧ volumeTransition s' = volumeTransition s
          ∧ (acquired s' = acquired s
             ∨ (volID ∉ volumeTransition s) ∧ acquired s' = acquired s ++ [volID]).
Proof.
  intros Hrest. destruct (decide (volID ∈ volumeTransition s)) as [Hin|Hout].
  - rewrite guarded_held by done.
    eexists _, _. split; [reflexivity|]. split; [reflexivity|]. by left.
  - destruct (Hrest (world s)) as (r & w & t & Hrun).
    erewrite guarded_free by done.
    eexists _, _. split; [reflexivity|]. split; [reflexivity|]. by right.
Qed.

Lemma length_eqb_0 (x : string) : (String.length x =? 0)%nat = true ↔ x = "".
Proof. destruct x; simpl; split; congruence. Qed.

Lemma validateStagingReq_error req e :
  (validateStagingReq req).2 = Some e → ∃ msg, e = status_Error InvalidArgument msg.
Proof.
  unfold validateStagingReq. repeat case_match; simpl; intros [= <-]; eauto.
Qed.

Lemma validateStagingReq_empty_path req :
  stage_StagingTargetPath req = "" → is_Some (validateStagingReq req).2.
Proof.
  intros Hpath. unfold validateStagingReq. rewrite Hpath. simpl.
  repeat case_match; simpl; eauto.
Qed.

Lemma NodeStageVolume_invalid req e s :
  (validateStagingReq req).2 = Some e → NodeStageVolume req s = Some ((None, Some e), s).
Proof.
  unfold NodeStageVolume. destruct (validateStagingReq req) as [reqParam err].
  simpl. by intros ->.
Qed.

Lemma NodeStageVolume_valid req reqParam s :
  validateStagingReq req = (reqParam, None) →
  NodeStageVolume req s
  = guarded (volumeID reqParam) (NodeStageVolume_body req reqParam) s.
Proof. unfold NodeStageVolume. by intros ->. Qed.

Lemma NodeUnstageVolume_valid req s :
  unstage_VolumeId req ≠ "" → unstage_StagingTargetPath req ≠ "" →
  NodeUnstageVolume req s
  = guarded (unstage_VolumeId req)
      (NodeUnstageVolume_body (unstage_VolumeId req) (unstage_StagingTargetPath req)) s.
Proof.
  intros Hid Hpath. unfold NodeUnstageVolume.
  destruct (String.eqb_spec (unstage_VolumeId req) ""); [done|].
  destruct (_ =? _)%nat eqn:E; [by apply length_eqb_0 in E|done].
Qed.

Lemma NodePublishVolume_valid req volCap s :
  publish_VolumeId req ≠ "" → publish_TargetPath req ≠ "" →
  publish_VolumeCapability req = Some volCap →
  isValidVolumeCapabilities [volCap] = true →
  NodePublishVolume req s
  = guarded (publish_VolumeId req)
      (NodePublishVolume_body req (publish_VolumeId req) (publish_TargetPath req) volCap) s.
Proof.
  intros Hid Hpath Hcap Hok. unfold NodePublishVolume.
  destruct (_ =? _)%nat eqn:E1; [by apply length_eqb_0 in E1|].
  destruct (String.length (publish_TargetPath req) =? _)%nat eqn:E2;
    [by apply length_eqb_0 in E2|].
  by rewrite Hcap, Hok.
Qed.

Lemma NodeUnpublishVolume_valid req s :
  unpublish_VolumeId req ≠ "" → unpublish_TargetPath req ≠ "" →
  NodeUnpublishVolume req s
  = guarded (unpublish_VolumeId req)
      (NodeUnpublishVolume_body (unpublish_VolumeId req) (unpublish_TargetPath req)) s.
Proof.
  intros Hid Hpath. unfold NodeUnpublishVolume.
  destruct (_ =? _)%nat eqn:E1; [by apply length_eqb_0 in E1|].
  destruct (String.length (unpublish_TargetPath req) =? _)%nat eqn:E2;
    [by apply length_eqb_0 in E2|done].
Qed.

(** Every handler returns and leaves the guard set as it found it, having
    taken the guard at most once, under an id that was free. *)
Lemma serve_keeps_guard c s :
  ∃ r s', serve c s = Some (r, s')
          ∧ volumeTransition s' = volumeTransition s
          ∧ (acquired s' = acquired s
             ∨ ∃ id, (id ∉ volumeTransition s) ∧ acquired s' = acquired s ++ [id]).
Proof.
  assert (∀ volID rest, outside rest →
            ∃ r s', guarded volID rest s = Some (r, s')
                    ∧ volumeTransition s' = volumeTransition s
                    ∧ (acquired s' = acquired s
                       ∨ ∃ id, (id ∉ volumeTransition s)
                               ∧ acquired s' = acquired s ++ [id])) as Hguard.
  { intros volID rest Hrest.
    destruct (guarded_keeps_guard volID rest s Hrest) as (r & s' & ? & ? & [?|[? ?]]);
      eauto 10. }
  destruct c as [req|req|req|req]; simpl.
  - unfold NodeStageVolume. destruct (validateStagingReq req) as [reqParam [e|]].
    + unfold ret. eauto 10.
    + apply Hguard, outside_NodeStageVolume_body.
  - unfold NodeUnstageVolume. repeat case_match; try (unfold ret; by eauto 10).
    apply Hguard, outside_NodeUnstageVolume_body.
  - unfold NodePublishVolume. repeat case_match; try (unfold ret; by eauto 10).
    apply Hguard, outside_NodePublishVolume_body.
  - unfold NodeUnpublishVolume. repeat case_match; try (unfold ret; by eauto 10).
    apply Hguard, outside_NodeUnpublishVolume_body.
Qed.

(** C9. Each of the four mutating handlers returns, on every path, with the
    transition set exactly as it was when the call came in: every id
    under which the call took the guard is out of the set again once the
    call has returned, whether it succeeded or failed, and so is every
    other id that was not in the set before. *)
Theorem C9_guard_released_on_every_exit (c : MutatingCall) (s : State World) :
  ∃ r s' ids,
    serve c s = Some (r, s')
    ∧ acquired s' = acquired s ++ ids
    ∧ (∀ id, id ∈ ids → id ∉ volumeTransition s')
    ∧ volumeTransition s' = volumeTransition s
    ∧ ∀ id, id ∉ volumeTransition s → id ∉ volumeTransition s'.
Proof.
  destruct (serve_keeps_guard c s) as (r & s' & Hrun & Hsame & Hacq).
  destruct Hacq as [Hacq|(key & Hkey & Hacq)].
  - exists r, s', []. rewrite Hsame, app_nil_r. split_and!; try done.
    by intros id ?%elem_of_nil.
  - exists r, s', [key]. rewrite Hsame. split_and!; try done.
    by intros id ->%list_elem_of_singleton.
Qed.

(** C8. A Stage call with an empty staging path answers InvalidArgument
    and returns the node state it was given: the guard set and the
    record of guard acquisitions, the outside world and the log of
    collaborator calls are untouched. The same holds for every failure of
    the Stage validation, and for the validation of the other three
    mutating handlers. *)
Theorem C8_validation_precedes_side_effects (s : State World) :
  (∀ req, stage_StagingTargetPath req = "" →
     ∃ msg, NodeStageVolume req s
            = Some ((None, Some (status_Error InvalidArgument msg)), s))
  ∧ (∀ req e, (validateStagingReq req).2 = Some e →
       status_Code e = InvalidArgument
       ∧ NodeStageVolume req s = Some ((None, Some e), s))
  ∧ (∀ req, unstage_VolumeId req = "" ∨ unstage_StagingTargetPath req = "" →
       ∃ msg, NodeUnstageVolume req s
              = Some ((None, Some (status_Error InvalidArgument msg)), s))
  ∧ (∀ req, publish_VolumeId req = "" ∨ publish_TargetPath req = ""
            ∨ publish_VolumeCapability req = None
            ∨ (∃ volCap, publish_VolumeCapability req = Some volCap
                         ∧ isValidVolumeCapabilities [volCap] = false) →
       ∃ msg, NodePublishVolume req s
              = Some ((None, Some (status_Error InvalidArgument msg)), s))
  ∧ (∀ req, unpublish_VolumeId req = "" ∨ unpublish_TargetPath req = "" →
       ∃ msg, NodeUnpublishVolume req s
              = Some ((None, Some (status_Error InvalidArgument msg)), s)).
Proof.
  split_and!.
  - intros req Hpath.
    destruct (validateStagingReq_empty_path req Hpath) as [e He].
    destruct (validateStagingReq_error req e He) as [msg ->].
    exists msg. by apply NodeStageVolume_invalid.
  - intros req e He. split; [|by apply NodeStageVolume_invalid].
    by destruct (validateStagingReq_error req e He) as [msg ->].
  - intros req H. unfold NodeUnstageVolume, ret.
    destruct (String.eqb_spec (unstage_VolumeId req) ""); [by eauto|].
    destruct H as [?|H]; [done|]. rewrite H. simpl. eauto.
  - intros req H. unfold NodePublishVolume, ret.
    destruct (_ =? _)%nat eqn:E1; [by eauto|].
    destruct (String.length (publish_TargetPath req) =? _)%nat eqn:E2; [by eauto|].
    destruct H as [H|[H|[H|(volCap & H & Hbad)]]].
    + rewrite H in E1. done.
    + rewrite H in E2. done.
    + rewrite H. eauto.
    + rewrite H, Hbad. simpl. eauto.
  - intros req H. unfold NodeUnpublishVolume, ret.
    destruct (_ =? _)%nat eqn:E1; [by eauto|].
    destruct (String.length (unpublish_TargetPath req) =? _)%nat eqn:E2; [by eauto|].
    destruct H as [H|H]; [rewrite H in E1|rewrite H in E2]; done.
Qed.

(** ** The mount-state inspector *)

Lemma append_String a (p post : string) :
  (String a p +:+ post) = String a (p +:+ post).
Proof. reflexivity. Qed.

Lemma prefix_app (p x : string) :
  String.prefix p x = true ↔ ∃ post, x = p +:+ post.
Proof.
  revert x. induction p as [|a p IH]; intros x; simpl.
  - destruct x; split; eauto.
  - setoid_rewrite append_String. destruct x as [|b x]; simpl.
    + split; [done|]. by intros [post ?].
    + destruct (Ascii.ascii_dec a b) as [->|Hne].
      * rewrite IH. split; intros [post H]; exists post; congruence.
      * split; [done|]. intros [post H]. congruence.
Qed.

(** [Contains] is the substring test. *)
Lemma Contains_spec (x substr : string) :
  Contains x substr = true ↔ ∃ pre post, x = pre +:+ substr +:+ post.
Proof.
  induction x as [|a x IH].
  - change (Contains "" substr) with (String.prefix substr "" || false).
    rewrite orb_false_r, prefix_app. split.
    + intros [post H]. by exists "", post.
    + intros (pre & post & H). destruct pre; [by exists post|done].
  - change (Contains (String a x) substr)
      with (String.prefix substr (String a x) || Contains x substr).
    rewrite orb_true_iff, prefix_app, IH. split.
    + intros [[post H]|(pre & post & H)].
      * by exists "", post.
      * exists (String a pre), post. rewrite append_String. by rewrite H.
    + intros (pre & post & H). destruct pre as [|b pre].
      * left. by exists post.
      * right. exists pre, post. rewrite append_String in H. congruence.
Qed.

Lemma pathsContaining_cons volID mntInfo (mountList : list MountPoint) :
  pathsContaining volID (mntInfo :: mountList)
  = if Contains (mp_Path mntInfo) volID
    then {[mp_Path mntInfo]} ∪ pathsContaining volID mountList
    else pathsContaining volID mountList.
Proof.
  unfold pathsContaining. rewrite fmap_cons, filter_cons.
  destruct (Contains (mp_Path mntInfo) volID); case_decide; done.
Qed.

Lemma currentMounts_lookup volID (mountList : list MountPoint)
    (acc : gmap string bool) (path : string) :
  fold_left (λ currentMounts mntInfo,
               if Contains (mp_Path mntInfo) volID
               then <[mp_Path mntInfo := true]> currentMounts
               else currentMounts) mountList acc !! path
  = if decide (path ∈ pathsContaining volID mountList) then Some true
    else acc !! path.
Proof.
  revert acc.
  induction mountList as [|mntInfo mountList IH]; intros acc.
  - simpl. rewrite decide_False; [done|]. apply not_elem_of_empty.
  - cbn [fold_left]. rewrite IH, pathsContaining_cons.
    destruct (Contains (mp_Path mntInfo) volID) eqn:E; [|done].
    destruct (decide (path ∈ pathsContaining volID mountList)) as [Hin|Hout].
    + rewrite decide_True; [done|]. apply elem_of_union. by right.
    + destruct (decide (path = mp_Path mntInfo)) as [->|Hne].
      * rewrite decide_True; [by rewrite lookup_insert_eq|].
        apply elem_of_union. left. by apply elem_of_singleton.
      * rewrite decide_False; [by rewrite lookup_insert_ne|].
        by intros [?%elem_of_singleton|?]%elem_of_union.
Qed.

Lemma currentMounts_dom volID (mountList : list MountPoint) :
  dom (fold_left (λ currentMounts mntInfo,
                    if Contains (mp_Path mntInfo) volID
                    then <[mp_Path mntInfo := true]> currentMounts
                    else currentMounts) mountList (∅ : gmap string bool))
  = pathsContaining volID mountList.
Proof.
  apply set_eq. intros path. rewrite elem_of_dom, currentMounts_lookup.
  case_decide as Hin.
  - split; eauto.
  - rewrite lookup_empty. split; [by intros [? ?]|done].
Qed.

(** C6. When the mount table can be listed, the inspector looks only at
    the set of mount paths that contain the volume id: with at most one
    such path it accepts; with more than one it accepts exactly when the
    request's path is one of them, and otherwise answers the error that
    names the volume as mounted at more than one place. *)
Theorem C6_isAlreadyMounted_accepts (volID path : string) (s : State World)
    (mountList : list MountPoint) (w : World) :
  env_List env (world s) = ((mountList, None), w) →
  ∃ r s', isAlreadyMounted volID path s = Some (r, s')
    ∧ ((size (pathsContaining volID mountList) ≤ 1)%nat → r = None)
    ∧ ((1 < size (pathsContaining volID mountList))%nat →
         (r = None ↔ path ∈ pathsContaining volID mountList))
    ∧ ((1 < size (pathsContaining volID mountList))%nat →
       path ∉ pathsContaining volID mountList →
       ∃ currentMounts,
         dom currentMounts = pathsContaining volID mountList
         ∧ r = Some (fmt_Errorf
                 (Sprintf "Volume is already mounted at more than one place: {%v}"
                          [PathSet currentMounts]))).
Proof.
  intros HList.
  unfold isAlreadyMounted, mounter_List, bind, extern. rewrite HList. simpl.
  set (currentMounts := fold_left _ mountList ∅).
  assert (Hdom : dom currentMounts = pathsContaining volID mountList)
    by apply currentMounts_dom.
  assert (Hsize : size currentMounts = size (pathsContaining volID mountList))
    by (by rewrite <- Hdom, size_dom).
  assert (Hlook : currentMounts !! path
                  = if decide (path ∈ pathsContaining volID mountList)
                    then Some true else None).
  { unfold currentMounts. rewrite currentMounts_lookup.
    by rewrite lookup_empty. }
  rewrite Hsize, Hlook.
  destruct (Nat.ltb_spec 1 (size (pathsContaining volID mountList))) as [Hmany|Hfew].
  - destruct (decide (path ∈ pathsContaining volID mountList)) as [Hin|Hout].
    + exists None. eexists. split; [reflexivity|].
      repeat split; done.
    + eexists (Some _). eexists. split; [reflexivity|].
      repeat split; try done; try lia.
      intros _ _. by exists currentMounts.
  - exists None. eexists. split; [reflexivity|].
    repeat split; try done; lia.
Qed.

(** ** Teardown of what is not mounted *)

Lemma NodeUnstageVolume_not_mounted req s dev w :
  unstage_VolumeId req ≠ "" → unstage_StagingTargetPath req ≠ "" →
  unstage_VolumeId req ∉ volumeTransition s →
  env_GetDeviceName env (unstage_StagingTargetPath req) (world s) = ((dev, 0, None), w) →
  NodeUnstageVolume req s
  = Some ((Some NodeUnstageVolumeResponse, None),
          Build_State (volumeTransition s) w
            (trace s ++ [EvGetDeviceName (unstage_StagingTargetPath req) (dev, 0, None)])
            (acquired s ++ [unstage_VolumeId req])).
Proof.
  intros Hid Hpath Hfree Hdev. rewrite NodeUnstageVolume_valid by done.
  apply guarded_free; [done|]. intros T tr ids.
  unfold NodeUnstageVolume_body, bind, mounter_GetDeviceName, extern. simpl.
  by rewrite Hdev.
Qed.

Lemma NodeUnpublishVolume_not_mounted req s notMnt err w :
  unpublish_VolumeId req ≠ "" → unpublish_TargetPath req ≠ "" →
  unpublish_VolumeId req ∉ volumeTransition s →
  env_IsLikelyNotMountPoint env (unpublish_TargetPath req) (world s)
  = ((notMnt, err), w) →
  (err = None ∧ notMnt = true) ∨ os_IsNotExist err = true →
  NodeUnpublishVolume req s
  = Some ((Some NodeUnpublishVolumeResponse, None),
          Build_State (volumeTransition s) w
            (trace s ++ [EvIsLikelyNotMountPoint (unpublish_TargetPath req) (notMnt, err)])
            (acquired s ++ [unpublish_VolumeId req])).
Proof.
  intros Hid Hpath Hfree Hmnt Hnot. rewrite NodeUnpublishVolume_valid by done.
  apply guarded_free; [done|]. intros T tr ids.
  unfold NodeUnpublishVolume_body, unmount, bind, mounter_IsLikelyNotMountPoint,
    extern. simpl. rewrite Hmnt.
  assert ((isNil err && notMnt) || os_IsNotExist err = true) as ->; [|done].
  destruct Hnot as [[-> ->]| ->]; [done|]. by rewrite orb_true_r.
Qed.

(** C7. With a valid request and the volume not in transition: Unstage of
    a staging path whose reference count is zero, and Unpublish of a
    target that is not a mount point or does not exist, answer success
    after the one query of the mounter, so without any unmount or detach
    call. And a teardown repeated after a first one, on a target the
    first one left unmounted, succeeds in the same way. *)
Theorem C7_idempotent_teardown (s : State World) :
  (∀ req dev w,
     unstage_VolumeId req ≠ "" → unstage_StagingTargetPath req ≠ "" →
     unstage_VolumeId req ∉ volumeTransition s →
     env_GetDeviceName env (unstage_StagingTargetPath req) (world s)
     = ((dev, 0, None), w) →
     NodeUnstageVolume req s
     = Some ((Some NodeUnstageVolumeResponse, None),
             Build_State (volumeTransition s) w
               (trace s ++ [EvGetDeviceName (unstage_StagingTargetPath req)
                                            (dev, 0, None)])
               (acquired s ++ [unstage_VolumeId req])))
  ∧ (∀ req notMnt err w,
       unpublish_VolumeId req ≠ "" → unpublish_TargetPath req ≠ "" →
       unpublish_VolumeId req ∉ volumeTransition s →
       env_IsLikelyNotMountPoint env (unpublish_TargetPath req) (world s)
       = ((notMnt, err), w) →
       (err = None ∧ notMnt = true) ∨ os_IsNotExist err = true →
       NodeUnpublishVolume req s
       = Some ((Some NodeUnpublishVolumeResponse, None),
               Build_State (volumeTransition s) w
                 (trace s ++ [EvIsLikelyNotMountPoint (unpublish_TargetPath req)
                                                      (notMnt, err)])
                 (acquired s ++ [unpublish_VolumeId req])))
  ∧ (∀ req r1 s1 dev w,
       unstage_VolumeId req ≠ "" → unstage_StagingTargetPath req ≠ "" →
       unstage_VolumeId req ∉ volumeTransition s →
       NodeUnstageVolume req s = Some (r1, s1) →
       env_GetDeviceName env (unstage_StagingTargetPath req) (world s1)
       = ((dev, 0, None), w) →
       NodeUnstageVolume req s1
       = Some ((Some NodeUnstageVolumeResponse, None),
               Build_State (volumeTransition s1) w
                 (trace s1 ++ [EvGetDeviceName (unstage_StagingTargetPath req)
                                               (dev, 0, None)])
                 (acquired s1 ++ [unstage_VolumeId req])))
  ∧ (∀ req r1 s1 notMnt err w,
       unpublish_VolumeId req ≠ "" → unpublish_TargetPath req ≠ "" →
       unpublish_VolumeId req ∉ volumeTransition s →
       NodeUnpublishVolume req s = Some (r1, s1) →
       env_IsLikelyNotMountPoint env (unpublish_TargetPath req) (world s1)
       = ((notMnt, err), w) →
       (err = None ∧ notMnt = true) ∨ os_IsNotExist err = true →
       NodeUnpublishVolume req s1
       = Some ((Some NodeUnpublishVolumeResponse, None),
               Build_State (volumeTransition s1) w
                 (trace s1 ++ [EvIsLikelyNotMountPoint (unpublish_TargetPath req)
                                                       (notMnt, err)])
                 (acquired s1 ++ [unpublish_VolumeId req]))).
Proof.
  split_and!.
  - intros. by apply NodeUnstageVolume_not_mounted.
  - intros. by apply NodeUnpublishVolume_not_mounted.
  - intros req r1 s1 dev w Hid Hpath Hfree Hfirst Hdev.
    apply NodeUnstageVolume_not_mounted; try done.
    rewrite NodeUnstageVolume_valid in Hfirst by done.
    destruct (guarded_keeps_guard (unstage_VolumeId req)
                (NodeUnstageVolume_body (unstage_VolumeId req)
                                        (unstage_StagingTargetPath req)) s)
      as (r & s' & Hrun & Hsame & _); [apply outside_NodeUnstageVolume_body|].
    rewrite Hfirst in Hrun. simplify_eq. by rewrite Hsame.
  - intros req r1 s1 notMnt err w Hid Hpath Hfree Hfirst Hmnt Hnot.
    apply NodeUnpublishVolume_not_mounted; try done.
    rewrite NodeUnpublishVolume_valid in Hfirst by done.
    destruct (guarded_keeps_guard (unpublish_VolumeId req)
                (NodeUnpublishVolume_body (unpublish_VolumeId req)
                                          (unpublish_TargetPath req)) s)
      as (r & s' & Hrun & Hsame & _); [apply outside_NodeUnpublishVolume_body|].
    rewrite Hfirst in Hrun. simplify_eq. by rewrite Hsame.
Qed.

(** ** The readiness poll *)

Lemma doesVolumeExist_not_serving (Inv : World → Prop) volID w0 :
  (∀ w, Inv w → (env_ClientSet env w).1 = None ∧ Inv (env_ClientSet env w).2) →
  (∀ id w, Inv w → ∃ instance,
     (env_GetJivaVolume env id w).1 = inl instance ∧ ¬ serving instance
     ∧ Inv (env_GetJivaVolume env id w).2) →
  Inv w0 →
  ∃ instance w,
    runs (doesVolumeExist volID) w0 (inl instance) w
      [EvClientSet None; EvGetJivaVolume (StripName volID) (inl instance)]
    ∧ ¬ serving instance ∧ Inv w.
Proof.
  intros Hset Hget Hinv.
  destruct (env_ClientSet env w0) as [r1 w1] eqn:E1.
  destruct (Hset w0 Hinv) as [H1 Hinv1]. rewrite E1 in H1, Hinv1.
  simpl in H1, Hinv1. subst r1.
  destruct (env_GetJivaVolume env (StripName volID) w1) as [r2 w2] eqn:E2.
  destruct (Hget (StripName volID) w1 Hinv1) as (instance & H2 & Hns & Hinv2).
  rewrite E2 in H2, Hinv2. simpl in H2, Hinv2. subst r2.
  exists instance, w2. split; [|done]. intros T tr ids.
  unfold doesVolumeExist, bind, client_Set, client_GetJivaVolume, extern, ret.
  simpl. rewrite E1. simpl. rewrite E2. by rewrite <- app_assoc.
Qed.

Lemma statusChecks_app t1 t2 :
  statusChecks (t1 ++ t2) = (statusChecks t1 + statusChecks t2)%nat.
Proof. unfold statusChecks. by rewrite omap_app, length_app. Qed.

Lemma delays_app t1 t2 : delays (t1 ++ t2) = delays t1 ++ delays t2.
Proof. unfold delays. by rewrite omap_app. Qed.

Lemma serving_test instance :
  ¬ serving instance →
  String.eqb (Phase (VolStatus instance)) JivaVolumePhaseReady
  && String.eqb (Status (VolStatus instance)) "RW" = false.
Proof.
  intros Hns. apply not_true_is_false. intros [H1 H2]%andb_prop.
  apply Hns. split; by apply String.eqb_eq.
Qed.

Lemma waitForVolumeToBeReady_loop_never_serving (Inv : World → Prop)
    fuel volID retry sleepInterval w0 :
  (∀ d w, Inv w → Inv (env_Sleep env d w).2) →
  (∀ w, Inv w → (env_ClientSet env w).1 = None ∧ Inv (env_ClientSet env w).2) →
  (∀ id w, Inv w → ∃ instance,
     (env_GetJivaVolume env id w).1 = inl instance ∧ ¬ serving instance
     ∧ Inv (env_GetJivaVolume env id w).2) →
  Inv w0 →
  0 ≤ retry ≤ MaxRetryCount →
  (Z.to_nat (MaxRetryCount - retry) < fuel)%nat →
  ∃ w t,
    runs (waitForVolumeToBeReady_loop fuel volID retry sleepInterval) w0
      (inr (fmt_Errorf (Lit "Max retry count exceeded, volume is not ready"))) w t
    ∧ statusChecks t = S (Z.to_nat (MaxRetryCount - retry))
    ∧ delays t = sleepInterval * Second
                 :: replicate (Z.to_nat (MaxRetryCount - retry)) (5 * Second)
    ∧ length t = (3 * S (Z.to_nat (MaxRetryCount - retry)))%nat.
Proof.
  intros Hsleeps Hset Hget. revert retry sleepInterval w0.
  induction fuel as [|fuel IH]; intros retry sleepInterval w0 Hinv Hretry Hfuel;
    [lia|].
  pose proof (runs_extern (env_Sleep env (sleepInterval * Second))
                (λ _, EvSleep (sleepInterval * Second)) w0) as Hsleep.
  destruct (doesVolumeExist_not_serving Inv volID
              (env_Sleep env (sleepInterval * Second) w0).2 Hset Hget)
    as (instance & w1 & Hcheck & Hns & Hinv1); [by apply Hsleeps|].
  destruct (Z.leb_spec (retry + 1) MaxRetryCount) as [Hle|Hgt].
  - destruct (IH (retry + 1) 5 w1) as (w & t & Hrun & Hchecks & Hdelays & Hlen);
      [done|lia..|].
    exists w, ([EvSleep (sleepInterval * Second)]
               ++ [EvClientSet None;
                   EvGetJivaVolume (StripName volID) (inl instance)] ++ t).
    split_and!.
    + cbn [waitForVolumeToBeReady_loop].
      eapply runs_bind; [exact Hsleep|]. eapply runs_bind; [exact Hcheck|].
      simpl. rewrite serving_test by done.
      destruct (Z.leb_spec (retry + 1) MaxRetryCount); [|lia].
      repeat case_match; exact Hrun.
    + rewrite !statusChecks_app, Hchecks. cbn. f_equal. lia.
    + rewrite !delays_app, Hdelays.
      replace (Z.to_nat (MaxRetryCount - retry))
        with (S (Z.to_nat (MaxRetryCount - (retry + 1)))) by lia.
      done.
    + rewrite !length_app, Hlen. cbn. lia.
  - assert (retry = MaxRetryCount) as -> by lia.
    exists w1, ([EvSleep (sleepInterval * Second)]
                ++ [EvClientSet None;
                    EvGetJivaVolume (StripName volID) (inl instance)] ++ []).
    rewrite Z.sub_diag. split_and!; try done.
    cbn [waitForVolumeToBeReady_loop].
    eapply runs_bind; [exact Hsleep|]. eapply runs_bind; [exact Hcheck|].
    simpl. rewrite serving_test by done.
    destruct (Z.leb_spec (MaxRetryCount + 1) MaxRetryCount); [lia|].
    apply runs_ret.
Qed.

(** C2. A valid Stage request on a volume that is not in transition, with
    a retry budget N that is not negative, while the outside world stays
    such that every read of the record succeeds with a record that is not
    Ready and RW: the call makes exactly N+1 status checks and nothing
    else, the first after no delay and each of the N others after the
    fixed five seconds, and then answers FailedPrecondition. *)
Theorem C2_readiness_poll_bound (Inv : World → Prop) (req : NodeStageVolumeRequest)
    (reqParam : nodeStageRequest) (s : State World) :
  0 ≤ MaxRetryCount →
  validateStagingReq req = (reqParam, None) →
  volumeID reqParam ∉ volumeTransition s →
  Inv (world s) →
  (∀ d w, Inv w → Inv (env_Sleep env d w).2) →
  (∀ w, Inv w → (env_ClientSet env w).1 = None ∧ Inv (env_ClientSet env w).2) →
  (∀ id w, Inv w → ∃ instance,
     (env_GetJivaVolume env id w).1 = inl instance ∧ ¬ serving instance
     ∧ Inv (env_GetJivaVolume env id w).2) →
  ∃ w t,
    NodeStageVolume req s
    = Some ((None, Some (status_Error FailedPrecondition
                           (Lit "Max retry count exceeded, volume is not ready"))),
            Build_State (volumeTransition s) w (trace s ++ t)
                        (acquired s ++ [volumeID reqParam]))
    ∧ statusChecks t = S (Z.to_nat MaxRetryCount)
    ∧ delays t = 0 :: replicate (Z.to_nat MaxRetryCount) (5 * Second)
    ∧ length t = (3 * S (Z.to_nat MaxRetryCount))%nat.
Proof.
  intros HN Hvalid Hfree Hinv Hsleeps Hset Hget.
  destruct (waitForVolumeToBeReady_loop_never_serving Inv
              (S (Z.to_nat MaxRetryCount)) (volumeID reqParam) 0 0 (world s)
              Hsleeps Hset Hget Hinv)
    as (w & t & Hrun & Hchecks & Hdelays & Hlen); [lia..|].
  rewrite Z.sub_0_r in *. exists w, t. split_and!; try done.
  rewrite (NodeStageVolume_valid _ _ _ Hvalid).
  apply guarded_free; [done|]. unfold NodeStageVolume_body.
  rewrite <- (app_nil_r t). eapply runs_bind; [exact Hrun|]. apply runs_ret.
Qed.

(** ** Answers and logs of the Stage sequence *)

Lemma yields_ret {A} (a : A) (Q : A → list Event → Prop) :
  Q a [] → yields (ret a) Q.
Proof. intros HQ w0. exists a, w0, []. split; [apply runs_ret|done]. Qed.

Lemma yields_bind {A B} (m : M A) (k : A → M B) P (Q : B → list Event → Prop) :
  yields m P →
  (∀ a t1, P a t1 → yields (k a) (λ b t2, Q b (t1 ++ t2))) →
  yields (bind m k) Q.
Proof.
  intros Hm Hk w0. destruct (Hm w0) as (a & w1 & t1 & H1 & HP).
  destruct (Hk a t1 HP w1) as (b & w2 & t2 & H2 & HQ).
  exists b, w2, (t1 ++ t2). split; [by eapply runs_bind|done].
Qed.

Lemma yields_extern {A} (f : World → A * World) (ev : A → Event)
    (Q : A → list Event → Prop) :
  (∀ r, Q r [ev r]) → yields (extern f ev) Q.
Proof.
  intros HQ w0. exists (f w0).1, (f w0).2, [ev (f w0).1].
  split; [apply runs_extern|done].
Qed.

Lemma yields_doesVolumeExist volID :
  yields (doesVolumeExist volID)
    (λ r t, Forall pollEvent t
            ∧ ∀ instance, r = inl instance → Forall (λ e, ¬ storeFailure e) t).
Proof.
  unfold doesVolumeExist, client_Set, client_GetJivaVolume.
  eapply yields_bind; [apply (yields_extern _ _ (λ r t, t = [EvClientSet r]))|];
    [done|].
  intros [e|] ? ->.
  - apply yields_ret. split; [by repeat constructor|done].
  - eapply yields_bind;
      [apply (yields_extern _ _
                (λ r t, t = [EvGetJivaVolume (StripName volID) r]))|]; [done|].
    intros [instance|e] ? ->.
    + apply yields_ret. split; repeat constructor; simpl; tauto.
    + destruct (errors_IsNotFound e); apply yields_ret;
        (split; [by repeat constructor|done]).
Qed.

Lemma yields_waitForVolumeToBeReady_loop fuel volID retry sleepInterval :
  (Z.to_nat (MaxRetryCount - retry) < fuel)%nat →
  yields (waitForVolumeToBeReady_loop fuel volID retry sleepInterval)
    (λ r t, Forall pollEvent t
            ∧ (∀ instance, r = inl instance → Forall (λ e, ¬ storeFailure e) t)
            ∧ t ≠ []).
Proof.
  revert retry sleepInterval.
  induction fuel as [|fuel IH]; intros retry sleepInterval Hfuel; [lia|].
  cbn [waitForVolumeToBeReady_loop].
  eapply yields_bind;
    [apply (yields_extern _ _ (λ _ t, t = [EvSleep (sleepInterval * Second)]))|];
    [done|].
  intros _ ? ->.
  eapply yields_bind; [apply yields_doesVolumeExist|].
  intros [instance|e] t1 [Hpoll Hok].
  - specialize (Hok instance eq_refl).
    destruct (_ && _).
    { apply yields_ret. rewrite app_nil_r.
      split_and!; [|intros _ _|done]; (constructor; [simpl; tauto|done]). }
    destruct (Z.leb_spec (retry + 1) MaxRetryCount).
    + assert (Z.to_nat (MaxRetryCount - (retry + 1)) < fuel)%nat as Hfuel' by lia.
      assert (yields (waitForVolumeToBeReady_loop fuel volID (retry + 1) 5)
                (λ r t, Forall pollEvent ([EvSleep (sleepInterval * Second)] ++ t1 ++ t)
                        ∧ (∀ instance, r = inl instance →
                             Forall (λ e, ¬ storeFailure e)
                                    ([EvSleep (sleepInterval * Second)] ++ t1 ++ t))
                        ∧ [EvSleep (sleepInterval * Second)] ++ t1 ++ t ≠ []))
        as Hrec.
      { intros w0.
        destruct (IH (retry + 1) 5 Hfuel' w0) as (r & w & t & Hrun & H1 & H2 & _).
        exists r, w, t. split; [done|]. split_and!; [| |done].
        - constructor; [done|]. by apply Forall_app.
        - intros i Hi. constructor; [simpl; tauto|]. apply Forall_app. eauto. }
      repeat case_match; exact Hrec.
    + apply yields_ret. rewrite app_nil_r. split_and!; [|done..].
      by constructor.
  - apply yields_ret. rewrite app_nil_r. split_and!; [|done..]. by constructor.
Qed.

Lemma yields_waitForVolumeToBeReachable_loop fuel targetPortal retries :
  (Z.to_nat (MaxRetryCount - retries) ≤ fuel)%nat → (0 < fuel)%nat →
  yields (waitForVolumeToBeReachable_loop fuel targetPortal retries)
    (λ _ t, Forall reachEvent t).
Proof.
  revert retries.
  induction fuel as [|fuel IH]; intros retries Hfuel Hpos; [lia|].
  cbn [waitForVolumeToBeReachable_loop].
  eapply yields_bind;
    [apply (yields_extern _ _ (λ _ t, Forall reachEvent t))|];
    [by repeat constructor|].
  intros [e|] t1 H1.
  - eapply yields_bind;
      [apply (yields_extern _ _ (λ _ t, Forall reachEvent t))|];
      [by repeat constructor|].
    intros ? t2 H2.
    destruct (Z.geb_spec (retries + 1) MaxRetryCount).
    + apply yields_ret. rewrite app_nil_r. by apply Forall_app.
    + intros w0. destruct (IH (retries + 1)) with (w0 := w0)
        as (r & w & t & Hrun & H3); [lia..|].
      exists r, w, t. split; [done|]. rewrite !Forall_app. done.
  - eapply yields_bind;
      [apply (yields_extern _ _ (λ _ t, Forall reachEvent t))|];
      [by repeat constructor|].
    intros ? t2 H2. apply yields_ret. rewrite app_nil_r. by apply Forall_app.
Qed.

Lemma yields_formatAndMount req devicePath :
  yields (formatAndMount req devicePath)
    (λ _ t, Forall (mountEvent (declaredFsType req)) t).
Proof.
  unfold formatAndMount, mounter_IsLikelyNotMountPoint, os_MkdirAll,
    mounter_FormatAndMount.
  eapply yields_bind;
    [apply (yields_extern _ _ (λ _ t, Forall (mountEvent (declaredFsType req)) t))|];
    [by repeat constructor|].
  intros [notMnt err] t1 H1.
  eapply yields_bind with (P := λ _ t, Forall (mountEvent (declaredFsType req)) t).
  { destruct (_ && _); [apply yields_extern|apply yields_ret];
      by repeat constructor. }
  intros [e|] t2 H2.
  { apply yields_ret. rewrite app_nil_r. by apply Forall_app. }
  destruct notMnt; simpl.
  - eapply yields_bind;
      [apply (yields_extern _ _
                (λ _ t, Forall (mountEvent (declaredFsType req)) t))|];
      [by repeat constructor|].
    intros r t3 H3.
    assert (Forall (mountEvent (declaredFsType req)) (t1 ++ t2 ++ t3 ++ []))
      by (rewrite !Forall_app; auto).
    destruct r; by apply yields_ret.
  - apply yields_ret. rewrite app_nil_r. by apply Forall_app.
Qed.

Lemma yields_isAlreadyMounted volID path :
  yields (isAlreadyMounted volID path)
    (λ r t, (∃ x, t = [EvList x]) ∧ ∀ e, r = Some e → status_Code e = Unknown).
Proof.
  unfold isAlreadyMounted, mounter_List.
  eapply yields_bind; [apply (yields_extern _ _ (λ r t, t = [EvList r]))|]; [done|].
  intros [mountList err] ? ->.
  repeat case_match; apply yields_ret; (split; [by eauto|by intros ? [= <-]]).
Qed.

Lemma yields_attachDisk instance :
  yields (attachDisk instance) (λ _ t, ∃ c x, t = [EvConnect c x]).
Proof.
  unfold attachDisk, iscsi_Connect.
  eapply yields_bind;
    [apply (yields_extern _ _ (λ r t, ∃ c, t = [EvConnect c r]))|]; [by eauto|].
  intros [devicePath err] ? [c ->].
  repeat case_match; apply yields_ret; eauto.
Qed.

Ltac log_cases :=
  repeat match goal with
         | H : _ ∈ _ ++ _ |- _ => apply elem_of_app in H; destruct H
         | H : _ ∈ _ :: _ |- _ => apply elem_of_cons in H; destruct H
         | H : _ ∈ [] |- _ => by apply elem_of_nil in H
         | H : ?e ∈ ?t, F : Forall ?P ?t |- _ =>
           lazymatch goal with
           | _ : P e |- _ => fail
           | |- _ => pose proof (proj1 (Forall_forall P t) F e H)
           end
         end;
  simpl in *.

Ltac outcome :=
  unfold stageOutcome; rewrite ?app_nil_r; split_and!; intros;
  first [ solve [log_cases; simplify_eq/=; first [contradiction | tauto | eauto]]
        | solve [exfalso;
                 match goal with
                 | H : ∀ c x, EvConnect c x ∉ ?t |- _ =>
                   match t with context [EvConnect ?c ?y] => apply (H c y) end
                 end;
                 rewrite !elem_of_app, !elem_of_cons; clear; tauto] ].

Lemma yields_NodeStageVolume_body req reqParam :
  yields (NodeStageVolume_body req reqParam) (stageOutcome req reqParam).
Proof.
  unfold NodeStageVolume_body.
  eapply yields_bind; [apply yields_waitForVolumeToBeReady_loop; lia|].
  intros [instance|err] t1 (Hpoll & Hok & _); [|apply yields_ret; outcome].
  specialize (Hok instance eq_refl).
  eapply yields_bind; [apply yields_isAlreadyMounted|].
  intros [err|] ? [[x ->] _]; [apply yields_ret; outcome|].
  eapply yields_bind; [apply yields_waitForVolumeToBeReachable_loop; lia|].
  intros [err|] t3 Hreach; [apply yields_ret; outcome|].
  eapply yields_bind; [apply yields_attachDisk|].
  intros [devicePath [err|]] ? (c & y & ->); [apply yields_ret; outcome|].
  eapply yields_bind;
    [apply (yields_extern _ _
              (λ r t, t = [EvGetJivaVolume (volumeID reqParam) r]))|]; [done|].
  intros [instance'|err] ? ->; [|apply yields_ret; outcome].
  eapply yields_bind;
    [apply (yields_extern _ _
              (λ r t, ∃ cr, FSType (MountInfo (Spec cr)) = fsType reqParam
                            ∧ t = [EvUpdateJivaVolume cr r]))|];
    [intros r; eexists; split; [|reflexivity]; done|].
  intros [err|] ? (cr & Hcr & ->); [apply yields_ret; outcome|].
  eapply yields_bind;
    [apply (yields_extern _ _
              (λ r t, t = [EvMkdirAll (stagingPath reqParam) perm_0750 r]))|];
    [done|].
  intros [err|] ? ->; [apply yields_ret; outcome|].
  eapply yields_bind; [apply yields_formatAndMount|].
  intros [err|] t8 Hmount; apply yields_ret; outcome.
Qed.

Lemma guarded_yields volID rest Q s r s' :
  yields rest Q → guarded volID rest s = Some (r, s') →
  (r = inProgress volID ∧ s' = s)
  ∨ ((volID ∉ volumeTransition s)
     ∧ ∃ t, trace s' = trace s ++ t ∧ Q r t).
Proof.
  intros Hrest Hrun. destruct (decide (volID ∈ volumeTransition s)) as [Hin|Hout].
  - rewrite guarded_held in Hrun by done. left. by simplify_eq.
  - destruct (Hrest (world s)) as (r0 & w & t & Hr & HQ).
    erewrite guarded_free in Hrun by done. right. simplify_eq/=. eauto.
Qed.

Lemma validateStagingReq_ok req reqParam :
  validateStagingReq req = (reqParam, None) →
  volumeID reqParam = StripName (stage_VolumeId req)
  ∧ fsType reqParam = resolvedFsType req
  ∧ stagingPath reqParam = stage_StagingTargetPath req
  ∧ stage_VolumeId req ≠ "" ∧ stage_StagingTargetPath req ≠ "".
Proof.
  unfold validateStagingReq, resolvedFsType, declaredFsType.
  destruct (String.length (stage_VolumeId req) =? 0)%nat eqn:E1; [done|].
  destruct (stage_VolumeCapability req) as [volCap|]; [|done].
  destruct (negb _); [done|]. simpl.
  destruct (GetMount volCap) as [mount|]; [|done]. simpl.
  destruct (String.length (stage_StagingTargetPath req) =? 0)%nat eqn:E2; [done|].
  intros [= <-]. simpl. split_and!; try done.
  - intros H. by rewrite H in E1.
  - intros H. by rewrite H in E2.
Qed.

(** Every run of [NodeStageVolume] has the outcome of the Stage sequence. *)
Lemma NodeStageVolume_outcome req s r s' t :
  NodeStageVolume req s = Some (r, s') → trace s' = trace s ++ t →
  ∃ reqParam, fsType reqParam = resolvedFsType req ∧ stageOutcome req reqParam r t.
Proof.
  intros Hrun Ht.
  assert (∀ p, stageOutcome req p r []) as Hnil.
  { intros p. unfold stageOutcome. split_and!; intros; by log_cases. }
  assert (t = [] → ∃ reqParam,
            fsType reqParam = resolvedFsType req ∧ stageOutcome req reqParam r t)
    as Hquiet.
  { intros ->. by exists {| stagingPath := ""; fsType := resolvedFsType req;
                            volumeID := "" |}. }
  destruct (validateStagingReq req) as [reqParam [e|]] eqn:Hv.
  - rewrite (NodeStageVolume_invalid req e) in Hrun by (by rewrite Hv).
    simplify_eq. apply Hquiet. apply (app_inv_head (trace s')).
    by rewrite app_nil_r.
  - rewrite (NodeStageVolume_valid _ _ _ Hv) in Hrun.
    destruct (guarded_yields _ _ _ _ _ _ (yields_NodeStageVolume_body req reqParam) Hrun)
      as [[-> ->]|(_ & t' & Ht' & Hout)].
    + apply Hquiet. apply (app_inv_head (trace s)). by rewrite app_nil_r.
    + rewrite Ht' in Ht. apply app_inv_head in Ht. subst t'.
      exists reqParam. split; [|done].
      by destruct (validateStagingReq_ok _ _ Hv) as (_ & ? & _).
Qed.

(** C3. In every run of [NodeStageVolume], the record written to the store
    carries the resolved filesystem type, the default when the request
    declares none; the call to the mounter's [FormatAndMount] carries the
    type as the request declares it, so the empty string, not the
    default, for a request that declares none. *)
Theorem C3_fsType_in_record_and_in_mount_call (req : NodeStageVolumeRequest)
    (s : State World) (r : Result) (s' : State World) (t : list Event) :
  NodeStageVolume req s = Some (r, s') → trace s' = trace s ++ t →
  (∀ cr x, EvUpdateJivaVolume cr x ∈ t →
     FSType (MountInfo (Spec cr)) = resolvedFsType req)
  ∧ (∀ src tgt fs opts x, EvFormatAndMount src tgt fs opts x ∈ t →
       fs = declaredFsType req).
Proof.
  intros Hrun Ht.
  destruct (NodeStageVolume_outcome _ _ _ _ _ Hrun Ht)
    as (p & Hp & _ & _ & _ & _ & Hrec & Hmnt).
  split; [|done]. intros cr x Hin. rewrite <- Hp. eauto.
Qed.

(** C5, as amended. In every run of [NodeStageVolume]: a failed
    [client.Set] of a status check, and a failed read of the record
    before the volume is attached (a missing record included), are
    answered with FailedPrecondition; a failed update of the record is
    answered with Internal and the store's message. *)
Theorem C5_store_failures_in_stage (req : NodeStageVolumeRequest)
    (s s' : State World) (r : Result) (t : list Event) :
  NodeStageVolume req s = Some (r, s') → trace s' = trace s ++ t →
  (∀ e, EvClientSet (Some e) ∈ t → result_code r = Some FailedPrecondition)
  ∧ (∀ id e, EvGetJivaVolume id (inr e) ∈ t → (∀ c x, EvConnect c x ∉ t) →
       result_code r = Some FailedPrecondition)
  ∧ (∀ cr e, EvUpdateJivaVolume cr (Some e) ∈ t →
       r = (None, Some (status_Error Internal (Lit (ext_msg e))))).
Proof.
  intros Hrun Ht.
  destruct (NodeStageVolume_outcome _ _ _ _ _ Hrun Ht)
    as (p & _ & HA & HB & _ & HC & _).
  done.
Qed.

(** A failed read of the record after the attach is handed back as the
    store gave it, without a status code. *)
Lemma refetch_failure_is_returned_raw req s s' r t :
  NodeStageVolume req s = Some (r, s') → trace s' = trace s ++ t →
  ∀ id e c x, EvGetJivaVolume id (inr e) ∈ t → EvConnect c x ∈ t →
    r = (None, Some (external e)) ∧ result_code r = Some Unknown.
Proof.
  intros Hrun Ht id e c x Hget Hconnect.
  destruct (NodeStageVolume_outcome _ _ _ _ _ Hrun Ht)
    as (p & _ & _ & _ & Hraw & _).
  by rewrite (Hraw id e c x Hget Hconnect).
Qed.

(** C10, as amended. [NodeGetVolumeStats] answers InvalidArgument when
    the volume id or the volume path is empty; Internal when the check of
    the path itself fails; NotFound when the check says the path is not
    mounted; Internal when the usage query fails; and the usage
    statistics otherwise. *)
Theorem C10_NodeGetVolumeStats_outcomes (req : NodeGetVolumeStatsRequest)
    (s : State World) :
  (stats_VolumeId req = "" ∨ stats_VolumePath req = "" →
     ∃ msg, NodeGetVolumeStats req s
            = Some ((None, Some (status_Error InvalidArgument msg)), s))
  ∧ (stats_VolumeId req ≠ "" → stats_VolumePath req ≠ "" →
     ∀ mounted err w,
       env_ExistsPath env (stats_VolumePath req) (world s) = ((mounted, err), w) →
       match err with
       | Some _ =>
         ∃ msg s', NodeGetVolumeStats req s
                   = Some ((None, Some (status_Error Internal msg)), s')
       | None =>
         if negb mounted
         then ∃ msg s', NodeGetVolumeStats req s
                        = Some ((None, Some (status_Error NotFound msg)), s')
         else ∀ stats err' w',
           env_GetStatistics env (stats_VolumePath req) w = ((stats, err'), w') →
           match err' with
           | Some _ =>
             ∃ msg s', NodeGetVolumeStats req s
                       = Some ((None, Some (status_Error Internal msg)), s')
           | None =>
             ∃ s', NodeGetVolumeStats req s
                   = Some ((Some (NodeGetVolumeStatsResponse stats), None), s')
           end
       end).
Proof.
  split.
  - intros H. unfold NodeGetVolumeStats, ret.
    destruct (String.eqb_spec (stats_VolumeId req) ""); [by eauto|].
    destruct H as [?|H]; [done|]. rewrite H. simpl. eauto.
  - intros Hid Hpath mounted err w Hexists.
    unfold NodeGetVolumeStats.
    destruct (String.eqb_spec (stats_VolumeId req) ""); [done|].
    destruct (String.eqb_spec (stats_VolumePath req) ""); [done|].
    unfold bind, mounter_ExistsPath, getStatistics, extern, ret.
    rewrite Hexists. simpl.
    destruct err as [e|]; [by eauto|].
    destruct mounted; simpl; [|by eauto].
    intros stats err' w' Hstats. rewrite Hstats. simpl.
    destruct err'; eauto.
Qed.

(** ** Which id guards which call *)

Lemma yields_of_outside {A} (m : M A) : outside m → yields m (λ _ _, True).
Proof. intros Hm w0. destruct (Hm w0) as (r & w & t & H). by exists r, w, t. Qed.

Lemma proceeds_app r t1 t2 :
  t1 ≠ [] → result_code r ≠ Some Aborted → proceeds r (t1 ++ t2).
Proof. intros Hne Hr. split; [|done]. by intros [? ?]%app_eq_nil. Qed.

Lemma proceeds_err (x : option Response) e t1 t2 :
  t1 ≠ [] → status_Code e ≠ Aborted → proceeds (x, Some e) (t1 ++ t2).
Proof. intros Hne He. apply proceeds_app; [done|]. intros [= H]. done. Qed.

Lemma doesVolumeExist_codes volID :
  yields (doesVolumeExist volID)
    (λ r _, ∀ e, r = inr e → status_Code e ≠ Aborted).
Proof.
  unfold doesVolumeExist.
  eapply yields_bind; [apply yields_of_outside, outside_extern|].
  intros [e|] ? _; [apply yields_ret; by intros ? [= <-]|].
  eapply yields_bind; [apply yields_of_outside, outside_extern|].
  intros [instance|e] ? _; repeat case_match; apply yields_ret; by intros ? [= <-].
Qed.

Lemma proceeds_NodeStageVolume_body req reqParam :
  yields (NodeStageVolume_body req reqParam) proceeds.
Proof.
  unfold NodeStageVolume_body.
  eapply yields_bind; [apply yields_waitForVolumeToBeReady_loop; lia|].
  intros [instance|err] t1 (_ & _ & Hne);
    [|apply yields_ret; by apply proceeds_app].
  eapply yields_bind; [apply yields_isAlreadyMounted|].
  intros [err|] ? [_ Herr].
  { apply yields_ret. apply proceeds_err; [done|].
    by rewrite (Herr err eq_refl). }
  eapply yields_bind; [apply yields_of_outside, outside_waitForVolumeToBeReachable|].
  intros [err|] ? _; [apply yields_ret; by apply proceeds_app|].
  eapply yields_bind; [apply yields_of_outside, outside_attachDisk|].
  intros [devicePath [err|]] ? _; [apply yields_ret; by apply proceeds_app|].
  eapply yields_bind; [apply yields_of_outside, outside_extern|].
  intros [instance'|err] ? _; [|apply yields_ret; by apply proceeds_app].
  eapply yields_bind; [apply yields_of_outside, outside_extern|].
  intros [err|] ? _; [apply yields_ret; by apply proceeds_app|].
  eapply yields_bind; [apply yields_of_outside, outside_extern|].
  intros [err|] ? _; [apply yields_ret; by apply proceeds_app|].
  eapply yields_bind; [apply yields_of_outside, outside_formatAndMount|].
  intros [err|] ? _; apply yields_ret; by apply proceeds_app.
Qed.

Lemma proceeds_NodeUnstageVolume_body volID target :
  yields (NodeUnstageVolume_body volID target) proceeds.
Proof.
  unfold NodeUnstageVolume_body, mounter_GetDeviceName.
  eapply yields_bind;
    [apply (yields_extern _ _ (λ _ t, t ≠ []))|]; [done|].
  intros [[dev refCount] [err|]] t1 Hne;
    [apply yields_ret; by apply proceeds_app|].
  destruct (refCount =? 0); [apply yields_ret; by apply proceeds_app|].
  eapply yields_bind; [apply yields_of_outside, outside_extern|].
  intros [err|] ? _; [apply yields_ret; by apply proceeds_app|].
  eapply yields_bind; [apply doesVolumeExist_codes|].
  intros [instance|err] ? Herr.
  2:{ apply yields_ret. apply proceeds_err; [done|]. by apply Herr. }
  eapply yields_bind; [apply yields_of_outside, outside_extern|].
  intros [err|] ? _; [apply yields_ret; by apply proceeds_app|].
  eapply yields_bind; [apply yields_of_outside, outside_extern|].
  intros [err|] ? _; apply yields_ret; by apply proceeds_app.
Qed.

Lemma nodePublishVolumeForFileSystem_codes req mountOptions mode_Mount :
  yields (nodePublishVolumeForFileSystem req mountOptions mode_Mount)
    (λ r _, ∀ e, r = Some e → status_Code e = Internal).
Proof.
  unfold nodePublishVolumeForFileSystem.
  eapply yields_bind; [apply yields_of_outside, outside_extern|].
  intros [err|] ? _; [apply yields_ret; by intros ? [= <-]|].
  eapply yields_bind; [apply yields_of_outside, outside_extern|].
  intros [err|] ? _; [apply yields_ret; by intros ? [= <-]|].
  eapply yields_bind; [apply yields_of_outside, outside_extern|].
  intros [err|] ? _; [|by apply yields_ret].
  eapply yields_bind; [apply yields_of_outside, outside_extern|].
  intros [err'|] ? _; apply yields_ret; by intros ? [= <-].
Qed.

Lemma proceeds_NodePublishVolume_body req volumeID target volCap :
  yields (NodePublishVolume_body req volumeID target volCap) proceeds.
Proof.
  unfold NodePublishVolume_body.
  eapply yields_bind; [apply yields_isAlreadyMounted|].
  intros [err|] t1 [[x ->] Herr].
  { apply yields_ret. apply proceeds_err; [done|].
    by rewrite (Herr err eq_refl). }
  destruct (AccessType volCap) as [[|mode_Mount]|];
    try (apply yields_ret; by apply proceeds_app).
  eapply yields_bind; [apply nodePublishVolumeForFileSystem_codes|].
  intros [err|] ? Hcode; apply yields_ret; [|by apply proceeds_app].
  apply proceeds_err; [done|]. by rewrite (Hcode err eq_refl).
Qed.

Lemma proceeds_NodeUnpublishVolume_body volumeID target :
  yields (NodeUnpublishVolume_body volumeID target) proceeds.
Proof.
  unfold NodeUnpublishVolume_body, unmount, mounter_IsLikelyNotMountPoint.
  eapply yields_bind
    with (P := λ r t, t ≠ [] ∧ ∀ e, r = Some e → status_Code e = Internal).
  - eapply yields_bind; [apply (yields_extern _ _ (λ _ t, t ≠ []))|]; [done|].
    intros [notMnt err] t1 Hne.
    assert (∀ t2, t1 ++ t2 ≠ []) by (by intros t2 [? ?]%app_eq_nil).
    destruct (_ || _); [by apply yields_ret|].
    eapply yields_bind; [apply yields_of_outside, outside_extern|].
    intros [err'|] ? _; apply yields_ret; (split; [done|]); [|done].
    by intros ? [= <-].
  - intros [err|] t1 [Hne Herr]; apply yields_ret; [|by apply proceeds_app].
    apply proceeds_err; [done|]. by rewrite (Herr err eq_refl).
Qed.

(** A call that passes validation is answered Aborted, with the node
    state untouched, exactly when its guard key is in the transition set;
    otherwise it gets past the guard. *)
Lemma serve_guard_key c s :
  accepted c →
  (guardKey c ∈ volumeTransition s →
     serve c s = Some (inProgress (guardKey c), s))
  ∧ (guardKey c ∉ volumeTransition s →
     ∃ r w t, serve c s = Some (r, Build_State (volumeTransition s) w (trace s ++ t)
                                     (acquired s ++ [guardKey c]))
              ∧ proceeds r t).
Proof.
  intros Hacc.
  assert (∀ volID rest, yields rest proceeds →
            (volID ∈ volumeTransition s →
               guarded volID rest s = Some (inProgress volID, s))
            ∧ (volID ∉ volumeTransition s →
               ∃ r w t, guarded volID rest s
                        = Some (r, Build_State (volumeTransition s) w (trace s ++ t)
                                               (acquired s ++ [volID]))
                        ∧ proceeds r t)) as Hguard.
  { intros volID rest Hrest. split; intros Hkey.
    - by apply guarded_held.
    - destruct (Hrest (world s)) as (r & w & t & Hrun & Hp).
      exists r, w, t. split; [by apply guarded_free|done]. }
  destruct c as [req|req|req|req]; simpl in *.
  - destruct (validateStagingReq req) as [reqParam err] eqn:Hv.
    simpl in Hacc. subst err.
    destruct (validateStagingReq_ok _ _ Hv) as (<- & _).
    setoid_rewrite (NodeStageVolume_valid _ _ _ Hv).
    apply Hguard, proceeds_NodeStageVolume_body.
  - destruct Hacc as [Hid Hpath].
    setoid_rewrite NodeUnstageVolume_valid; [|done..].
    apply Hguard, proceeds_NodeUnstageVolume_body.
  - destruct Hacc as (Hid & Hpath & volCap & Hcap & Hok).
    setoid_rewrite (NodePublishVolume_valid _ volCap); [|done..].
    apply Hguard, proceeds_NodePublishVolume_body.
  - destruct Hacc as [Hid Hpath].
    setoid_rewrite NodeUnpublishVolume_valid; [|done..].
    apply Hguard, proceeds_NodeUnpublishVolume_body.
Qed.

(** X21. What an accepted call does once past the guard depends on the
    world outside only, not on which other ids are in transition: its
    answer, its calls to the collaborators and the world it leaves are
    the same from every state in which its guard key is free. *)
Lemma other_ids_do_not_matter c w0 :
  accepted c →
  ∃ r w t, ∀ T tr ids,
    guardKey c ∉ T →
    serve c (Build_State T w0 tr ids)
    = Some (r, Build_State T w (tr ++ t) (ids ++ [guardKey c])).
Proof.
  intros Hacc.
  assert (∀ volID rest, outside rest →
            ∃ r w t, ∀ T tr ids,
              volID ∉ T →
              guarded volID rest (Build_State T w0 tr ids)
              = Some (r, Build_State T w (tr ++ t) (ids ++ [volID]))) as Hguard.
  { intros volID rest Hrest. destruct (Hrest w0) as (r & w & t & Hrun).
    exists r, w, t. intros T tr ids Hfree.
    by rewrite (guarded_free volID rest (Build_State T w0 tr ids) r w t). }
  destruct c as [req|req|req|req]; simpl in *.
  - destruct (validateStagingReq req) as [reqParam err] eqn:Hv.
    simpl in Hacc. subst err.
    destruct (validateStagingReq_ok _ _ Hv) as (<- & _).
    setoid_rewrite (NodeStageVolume_valid _ _ _ Hv).
    apply Hguard, outside_NodeStageVolume_body.
  - destruct Hacc as [Hid Hpath].
    setoid_rewrite NodeUnstageVolume_valid; [|done..].
    apply Hguard, outside_NodeUnstageVolume_body.
  - destruct Hacc as (Hid & Hpath & volCap & Hcap & Hok).
    setoid_rewrite (NodePublishVolume_valid _ volCap); [|done..].
    apply Hguard, outside_NodePublishVolume_body.
  - destruct Hacc as [Hid Hpath].
    setoid_rewrite NodeUnpublishVolume_valid; [|done..].
    apply Hguard, outside_NodeUnpublishVolume_body.
Qed.

(** X20. Calls under the same guard key exclude each other: while one
    holds the key, the other, if its request passes validation, is
    answered Aborted and leaves the node state as it is, having called no
    collaborator. *)
Lemma same_key_excluded c s :
  accepted c → guardKey c ∈ volumeTransition s →
  ∃ r, serve c s = Some (r, s) ∧ result_code r = Some Aborted.
Proof.
  intros Hacc Hin. destruct (serve_guard_key c s Hacc) as [Hheld _].
  exists (inProgress (guardKey c)). split; [by apply Hheld|done].
Qed.

(** C4. The guard key of Unstage, Publish and Unpublish is the volume id
    as the request carries it, not the normalized one: such a call is
    answered Aborted when the raw id is in the transition set, and gets
    past the guard when only the normalized id is there. (Stage takes the
    guard under the normalized id, see [serve_guard_key].) *)
Theorem C4_guard_key_of_teardown_and_publish_is_raw (c : MutatingCall)
    (s : State World) :
  accepted c →
  (∀ req, c ≠ CallStage req) →
  (requestVolumeId c ∈ volumeTransition s →
     serve c s = Some (inProgress (requestVolumeId c), s))
  ∧ (StripName (requestVolumeId c) ∈ volumeTransition s →
     requestVolumeId c ∉ volumeTransition s →
     ∃ r w t, serve c s = Some (r, Build_State (volumeTransition s) w (trace s ++ t)
                                     (acquired s ++ [requestVolumeId c]))
              ∧ proceeds r t).
Proof.
  intros Hacc Hc. destruct (serve_guard_key c s Hacc) as [Hheld Hfree].
  destruct c as [req|req|req|req]; [by destruct (Hc req)|..]; simpl in *; auto.
Qed.

(** C1. A Stage call and an Unstage, Publish or Unpublish call for the
    same volume id do not exclude each other when normalizing changes the
    id: from a state with no operation on the volume, Stage takes the
    guard under the normalized id and runs on from there, and in that
    very state the other call gets past the guard as well. *)
Theorem C1_stage_does_not_exclude_other_calls (req : NodeStageVolumeRequest)
    (c : MutatingCall) (s : State World) :
  accepted (CallStage req) → accepted c →
  (∀ req', c ≠ CallStage req') →
  requestVolumeId c = stage_VolumeId req →
  StripName (stage_VolumeId req) ≠ stage_VolumeId req →
  stage_VolumeId req ∉ volumeTransition s →
  StripName (stage_VolumeId req) ∉ volumeTransition s →
  ∃ s1 reqParam,
    volumeTransition_Insert (StripName (stage_VolumeId req)) s = Some (true, s1)
    ∧ NodeStageVolume req s
      = defer (volumeTransition_Delete (StripName (stage_VolumeId req)))
              (NodeStageVolume_body req reqParam) s1
    ∧ ∃ r w t,
        serve c s1 = Some (r, Build_State (volumeTransition s1) w (trace s1 ++ t)
                                (acquired s1 ++ [requestVolumeId c]))
        ∧ proceeds r t.
Proof.
  intros Hstage Hacc Hc Hsame Hne Hraw Hnorm. simpl in Hstage.
  destruct (validateStagingReq req) as [reqParam err] eqn:Hv.
  simpl in Hstage. subst err.
  destruct (validateStagingReq_ok _ _ Hv) as (Hkey & _).
  exists (Build_State ({[StripName (stage_VolumeId req)]} ∪ volumeTransition s)
                      (world s) (trace s)
                      (acquired s ++ [StripName (stage_VolumeId req)])), reqParam.
  split_and!.
  - unfold volumeTransition_Insert, Transition_Insert.
    by rewrite decide_False by done.
  - rewrite (NodeStageVolume_valid _ _ _ Hv), Hkey.
    unfold guarded, bind at 1, volumeTransition_Insert, Transition_Insert.
    by rewrite decide_False by done.
  - assert (guardKey c = requestVolumeId c) as Hk.
    { destruct c as [req'|?|?|?]; [by destruct (Hc req')|done..]. }
    match goal with
    | |- ∃ r w t, serve c ?s1 = _ ∧ _ =>
      destruct (serve_guard_key c s1 Hacc) as [_ Hfree]
    end.
    rewrite Hk in Hfree. apply Hfree. simpl. rewrite Hsame.
    intros [?%elem_of_singleton|?]%elem_of_union; done.
Qed.

(** ** The exits of the pieces *)

Lemma yields_lookupExit volID :
  yields (doesVolumeExist volID) (lookupExit (StripName volID)).
Proof.
  unfold doesVolumeExist, client_Set, client_GetJivaVolume.
  eapply yields_bind; [apply (yields_extern _ _ (λ r t, t = [EvClientSet r]))|];
    [done|].
  intros [e|] ? ->.
  - apply yields_ret. exists e. by left.
  - eapply yields_bind;
      [apply (yields_extern _ _
                (λ r t, t = [EvGetJivaVolume (StripName volID) r]))|]; [done|].
    intros [instance|e] ? ->.
    + by apply yields_ret.
    + destruct (errors_IsNotFound e) eqn:E; apply yields_ret; exists e; right;
        simpl; by rewrite E.
Qed.

Lemma serving_true instance :
  String.eqb (Phase (VolStatus instance)) JivaVolumePhaseReady
  && String.eqb (Status (VolStatus instance)) "RW" = true →
  serving instance.
Proof. intros [H1 H2]%andb_prop. split; by apply String.eqb_eq. Qed.

Lemma serving_false instance :
  String.eqb (Phase (VolStatus instance)) JivaVolumePhaseReady
  && String.eqb (Status (VolStatus instance)) "RW" = false →
  ¬ serving instance.
Proof.
  intros H [H1 H2]. apply String.eqb_eq in H1, H2. by rewrite H1, H2 in H.
Qed.

Lemma yields_pollExit_loop fuel volID retry sleepInterval :
  (Z.to_nat (MaxRetryCount - retry) < fuel)%nat →
  yields (waitForVolumeToBeReady_loop fuel volID retry sleepInterval)
    (pollExit (StripName volID) (Z.to_nat (Z.max 1 (MaxRetryCount + 1 - retry)))
              (sleepInterval * Second)).
Proof.
  revert retry sleepInterval.
  induction fuel as [|fuel IH]; intros retry sleepInterval Hfuel; [lia|].
  cbn [waitForVolumeToBeReady_loop].
  eapply yields_bind;
    [apply (yields_extern _ _ (λ _ t, t = [EvSleep (sleepInterval * Second)]))|];
    [done|].
  intros _ ? ->.
  eapply yields_bind; [apply yields_lookupExit|].
  intros [instance|err] tl Hl.
  - simpl in Hl. subst tl.
    destruct (_ && _) eqn:Hs.
    { apply yields_ret. exists []. split; [constructor|].
      split; [by apply serving_true|]. split; [simpl; lia|done]. }
    apply serving_false in Hs.
    destruct (Z.leb_spec (retry + 1) MaxRetryCount) as [Hle|Hgt].
    + assert (yields (waitForVolumeToBeReady_loop fuel volID (retry + 1) 5)
                (λ r t, pollExit (StripName volID)
                          (Z.to_nat (Z.max 1 (MaxRetryCount + 1 - retry)))
                          (sleepInterval * Second) r
                          ([EvSleep (sleepInterval * Second)]
                           ++ [EvClientSet None;
                               EvGetJivaVolume (StripName volID) (inl instance)]
                           ++ t))) as Hrec.
      { intros w0.
        destruct (IH (retry + 1) 5 ltac:(lia) w0)
          as (r & w & t & Hrun & pending & Hpending & Hcase).
        exists r, w, t. split; [done|].
        exists (instance :: pending). split; [by constructor|].
        replace (Z.to_nat (Z.max 1 (MaxRetryCount + 1 - retry)))
          with (S (Z.to_nat (Z.max 1 (MaxRetryCount + 1 - (retry + 1))))) by lia.
        destruct r as [instance'|err].
        - destruct Hcase as (Hs' & Hlen & ->).
          split; [done|]. split; [simpl; lia|]. by destruct pending.
        - destruct Hcase as [(Hlen & -> & ->)|(Hlen & tl & Htl & ->)].
          + left. split; [simpl; lia|done].
          + right. split; [simpl; lia|]. exists tl. split; [done|].
            by destruct pending. }
      repeat case_match; exact Hrec.
    + apply yields_ret. exists [instance]. split; [by repeat constructor|].
      left. split; [simpl; lia|done].
  - apply yields_ret. exists []. split; [constructor|]. right.
    split; [simpl; lia|]. exists tl. split; [done|]. simpl. by rewrite app_nil_r.
Qed.

Lemma yields_pollExit volID :
  yields (waitForVolumeToBeReady volID) (pollExit (StripName volID) maxChecks 0).
Proof.
  unfold waitForVolumeToBeReady, maxChecks.
  replace (MaxRetryCount + 1) with (MaxRetryCount + 1 - 0) by lia.
  apply (yields_pollExit_loop _ volID 0 0). lia.
Qed.

Lemma failedProbes_cons targetPortal e errs :
  failedProbes targetPortal (e :: errs)
  = [EvDial "tcp" targetPortal (Some e); EvSleep (2 * Second)]
    ++ failedProbes targetPortal errs.
Proof. reflexivity. Qed.

Lemma yields_probeExit_loop fuel targetPortal retries :
  (Z.to_nat (MaxRetryCount - retries) ≤ fuel)%nat → (0 < fuel)%nat →
  yields (waitForVolumeToBeReachable_loop fuel targetPortal retries)
    (probeExit targetPortal (Z.to_nat (Z.max 1 (MaxRetryCount - retries)))).
Proof.
  revert retries.
  induction fuel as [|fuel IH]; intros retries Hfuel Hpos; [lia|].
  cbn [waitForVolumeToBeReachable_loop].
  eapply yields_bind;
    [apply (yields_extern _ _ (λ r t, t = [EvDial "tcp" targetPortal r]))|];
    [done|].
  intros [e|] ? ->.
  - eapply yields_bind;
      [apply (yields_extern _ _ (λ _ t, t = [EvSleep (2 * Second)]))|]; [done|].
    intros _ ? ->.
    destruct (Z.geb_spec (retries + 1) MaxRetryCount) as [Hge|Hlt].
    + apply yields_ret. exists [e]. split; [simpl; lia|]. split; [done|].
      by exists e.
    + intros w0.
      destruct (IH (retries + 1) ltac:(lia) ltac:(lia) w0)
        as (r & w & t & Hrun & errs & Hcase).
      exists r, w, t. split; [done|]. exists (e :: errs).
      replace (Z.to_nat (Z.max 1 (MaxRetryCount - retries)))
        with (S (Z.to_nat (Z.max 1 (MaxRetryCount - (retries + 1))))) by lia.
      destruct r as [err|].
      * destruct Hcase as (Hlen & -> & e' & Hlast & ->).
        split; [simpl; lia|]. split; [done|]. exists e'. split; [|done].
        destruct errs; [done|]. exact Hlast.
      * destruct Hcase as (Hlen & ->). split; [simpl; lia|done].
  - eapply yields_bind;
      [apply (yields_extern _ _ (λ _ t, t = [EvConnClose]))|]; [done|].
    intros _ ? ->. apply yields_ret. exists []. split; [simpl; lia|done].
Qed.

Lemma yields_probeExit targetPortal :
  yields (waitForVolumeToBeReachable targetPortal) (probeExit targetPortal maxProbes).
Proof.
  unfold waitForVolumeToBeReachable, maxProbes.
  replace MaxRetryCount with (MaxRetryCount - 0) at 2 by lia.
  apply yields_probeExit_loop; lia.
Qed.

Lemma yields_inspectExit volID path :
  yields (isAlreadyMounted volID path) inspectExit.
Proof.
  unfold isAlreadyMounted, mounter_List.
  eapply yields_bind; [apply (yields_extern _ _ (λ r t, t = [EvList r]))|]; [done|].
  intros [mountList err] ? ->.
  repeat case_match; apply yields_ret; exists mountList; eexists;
    (split; [reflexivity|]); simpl; try done; intros ? [= <-]; eauto.
Qed.

Lemma yields_attachExit instance :
  yields (attachDisk instance) (attachExit instance).
Proof.
  unfold attachDisk, iscsi_Connect.
  eapply yields_bind;
    [apply (yields_extern _ _
              (λ r t, t = [EvConnect (connectorOf instance) r]))|]; [done|].
  intros [devicePath [e|]] ? ->.
  - apply yields_ret. by exists devicePath, (Some e).
  - destruct (String.eqb_spec devicePath ""); apply yields_ret;
      exists devicePath, None; (split; [done|]); [by left|by right].
Qed.

Lemma yields_formatExit req devicePath :
  yields (formatAndMount req devicePath) (formatExit req devicePath).
Proof.
  unfold formatAndMount, mounter_IsLikelyNotMountPoint, os_MkdirAll,
    mounter_FormatAndMount.
  eapply yields_bind;
    [apply (yields_extern _ _
              (λ r t, t = [EvIsLikelyNotMountPoint (stage_StagingTargetPath req) r]))|];
    [done|].
  intros [notMnt err] ? ->.
  eapply yields_bind
    with (P := λ mkdirErr mk,
            match mkdirErr with
            | Some e =>
              isNil err || os_IsNotExist err = false
              ∧ mk = [EvMkdirAll (stage_StagingTargetPath req) perm_0750 (Some e)]
            | None => remade (stage_StagingTargetPath req) err mk
            end).
  { unfold remade.
    destruct err as [e|]; simpl; [|by apply yields_ret].
    destruct (ext_IsNotExist e); simpl; [by apply yields_ret|].
    apply yields_extern. by intros [e'|]. }
  intros [e|] mk Hmk.
  { destruct Hmk as [Hcond ->]. apply yields_ret.
    by eapply format_mkdir_failed. }
  destruct notMnt; simpl.
  - eapply yields_bind;
      [apply (yields_extern _ _
                (λ r t, t = [EvFormatAndMount devicePath (stage_StagingTargetPath req)
                               (declaredFsType req) (declaredMountFlags req) r]))|];
      [done|].
    intros x ? ->.
    assert (formatExit req devicePath (external <$> x)
              ([EvIsLikelyNotMountPoint (stage_StagingTargetPath req) (true, err)]
               ++ mk
               ++ [EvFormatAndMount devicePath (stage_StagingTargetPath req)
                     (declaredFsType req) (declaredMountFlags req) x] ++ []))
      by (eapply format_mounted; [done| |done]; by rewrite app_nil_r).
    destruct x; by apply yields_ret.
  - apply yields_ret. eapply format_already_mounted; [done| |done].
    by rewrite app_nil_r.
Qed.

Lemma yields_stageExit req reqParam :
  yields (NodeStageVolume_body req reqParam) (stageExit req reqParam).
Proof.
  unfold NodeStageVolume_body.
  eapply yields_bind; [apply yields_pollExit|].
  intros [instance|err] tp Hpoll;
    [|apply yields_ret; rewrite app_nil_r; by eapply stage_not_ready].
  eapply yields_bind; [apply yields_inspectExit|].
  intros [err|] ti Hinspect.
  { apply yields_ret. rewrite app_nil_r. by eapply stage_inspector_error. }
  assert (∃ mountList, ti = [EvList (mountList, None)]) as [mountList ->].
  { destruct Hinspect as (mountList & [e|] & -> & H); [done|by eauto]. }
  clear Hinspect.
  eapply yields_bind; [apply yields_probeExit|].
  intros [err|] tr Hprobe.
  { apply yields_ret. rewrite app_nil_r. by eapply stage_unreachable. }
  assert (readyAndReachable reqParam instance
            (tp ++ [EvList (mountList, None)] ++ tr)) as Hreach
    by (by exists tp, mountList, tr).
  eapply yields_bind; [apply yields_attachExit|].
  intros [devicePath [err|]] ta Hattach.
  { apply yields_ret. rewrite app_nil_r.
    eapply stage_attach_failed; [done..| |done]. by rewrite <- !app_assoc. }
  assert (attached reqParam instance devicePath
            ((tp ++ [EvList (mountList, None)] ++ tr) ++ ta)) as Hatt.
  { destruct Hattach as (d & [e|] & -> & H); [done|].
    destruct H as [[_ [=]]|[Hne [= ->]]]. by eexists. }
  clear Hattach.
  eapply yields_bind;
    [apply (yields_extern _ _
              (λ r t, t = [EvGetJivaVolume (volumeID reqParam) r]))|]; [done|].
  intros [instance'|e] ? ->.
  2:{ apply yields_ret. rewrite app_nil_r.
      eapply stage_refetch_failed; [done| |done]. by rewrite <- !app_assoc. }
  eapply yields_bind;
    [apply (yields_extern _ _
              (λ r t, t = [EvUpdateJivaVolume
                             (stagedRecord reqParam devicePath instance') r]))|];
    [done|].
  intros [e|] ? ->.
  { apply yields_ret. rewrite app_nil_r.
    eapply stage_update_failed; [done| |done]. by rewrite <- !app_assoc. }
  assert (persisted reqParam devicePath instance'
            (((tp ++ [EvList (mountList, None)] ++ tr) ++ ta)
             ++ [EvGetJivaVolume (volumeID reqParam) (inl instance');
                 EvUpdateJivaVolume (stagedRecord reqParam devicePath instance') None]))
    as Hpers by (by eexists _, _).
  eapply yields_bind;
    [apply (yields_extern _ _
              (λ r t, t = [EvMkdirAll (stagingPath reqParam) perm_0750 r]))|];
    [done|].
  intros [e|] ? ->.
  { apply yields_ret. rewrite app_nil_r.
    eapply stage_mkdir_failed; [done| |done]. by rewrite <- !app_assoc. }
  eapply yields_bind; [apply yields_formatExit|].
  intros rm tm Hformat.
  assert (stageExit req reqParam
            match rm with
            | Some err => (None, Some (status_Error Internal (Error err)))
            | None => (Some NodeStageVolumeResponse, None)
            end
            (tp ++ [EvList (mountList, None)] ++ tr ++ ta
             ++ [EvGetJivaVolume (volumeID reqParam) (inl instance')]
             ++ [EvUpdateJivaVolume (stagedRecord reqParam devicePath instance') None]
             ++ [EvMkdirAll (stagingPath reqParam) perm_0750 None] ++ tm ++ [])).
  { eapply stage_mount_phase; [done..| |done].
    rewrite app_nil_r. by rewrite <- !app_assoc. }
  destruct rm; by apply yields_ret.
Qed.

Lemma yields_unstageExit volID target :
  yields (NodeUnstageVolume_body volID target) (unstageExit volID target).
Proof.
  unfold NodeUnstageVolume_body, mounter_GetDeviceName, mounter_Unmount,
    iscsi_Disconnect, os_RemoveAll.
  eapply yields_bind;
    [apply (yields_extern _ _ (λ r t, t = [EvGetDeviceName target r]))|]; [done|].
  intros [[dev refCount] [e|]] ? ->.
  { apply yields_ret. by eapply unstage_check_failed. }
  destruct (Z.eqb_spec refCount 0) as [->|Hmounted].
  { apply yields_ret. by eapply unstage_not_mounted. }
  eapply yields_bind;
    [apply (yields_extern _ _ (λ r t, t = [EvUnmount target r]))|]; [done|].
  intros [e|] ? ->.
  { apply yields_ret. by eapply unstage_unmount_failed. }
  eapply yields_bind; [apply yields_lookupExit|].
  intros [instance|err] tl Hlookup.
  2:{ apply yields_ret. eapply unstage_lookup_failed; [done..| |done].
      by rewrite app_nil_r. }
  simpl in Hlookup. subst tl.
  eapply yields_bind;
    [apply (yields_extern _ _
              (λ r t, t = [EvDisconnect (Iqn (ISCSISpec (Spec instance)))
                             [targetPortalOf instance] r]))|]; [done|].
  intros [e|] ? ->.
  { apply yields_ret. eapply (unstage_detach _ _ _ _ _ _ instance (Some e) []);
      [done| |done]. done. }
  eapply yields_bind;
    [apply (yields_extern _ _
              (λ r t, t = [EvRemoveAll (Path (MountInfo (Spec instance))) r]))|];
    [done|].
  intros y ? ->.
  assert (unstageExit volID target
            match y with
            | Some e => (None, Some (status_Error Internal (Lit (ext_msg e))))
            | None => (Some NodeUnstageVolumeResponse, None)
            end
            ([EvGetDeviceName target (dev, refCount, None)]
             ++ [EvUnmount target None]
             ++ [EvClientSet None; EvGetJivaVolume (StripName volID) (inl instance)]
             ++ [EvDisconnect (Iqn (ISCSISpec (Spec instance)))
                   [targetPortalOf instance] None]
             ++ [EvRemoveAll (Path (MountInfo (Spec instance))) y] ++ [])).
  { eapply (unstage_detach _ _ _ _ _ _ instance None); [done|done|]. by exists y. }
  destruct y; by apply yields_ret.
Qed.

Lemma yields_publishMountExit req mountOptions mode_Mount :
  mountOptions
  = (if publish_Readonly req then ["bind"] ++ ["ro"] else ["bind"]) →
  yields (nodePublishVolumeForFileSystem req mountOptions mode_Mount)
    (publishMountExit req mode_Mount).
Proof.
  intros ->.
  unfold nodePublishVolumeForFileSystem, os_MkdirAll, os_Chmod, mounter_Mount,
    os_Remove.
  eapply yields_bind;
    [apply (yields_extern _ _
              (λ r t, t = [EvMkdirAll (publish_TargetPath req) 0 r]))|]; [done|].
  intros [e|] ? ->.
  { apply yields_ret. by eapply publish_mkdir_failed. }
  eapply yields_bind;
    [apply (yields_extern _ _
              (λ r t, t = [EvChmod (publish_TargetPath req) 0 r]))|]; [done|].
  intros [e|] ? ->.
  { apply yields_ret. by eapply publish_chmod_failed. }
  eapply yields_bind;
    [apply (yields_extern _ _
              (λ r t, t = [EvMount (publish_StagingTargetPath req)
                             (publish_TargetPath req) (publishFsType mode_Mount)
                             (publishOptions req mode_Mount) r]))|]; [done|].
  intros [e|] ? ->.
  2:{ apply yields_ret. by eapply publish_mounted. }
  eapply yields_bind;
    [apply (yields_extern _ _
              (λ r t, t = [EvRemove (publish_TargetPath req) r]))|]; [done|].
  intros y ? ->.
  destruct y; apply yields_ret;
    by eapply (publish_mount_failed _ _ _ _ e).
Qed.

Lemma yields_publishExit req volCap :
  yields (NodePublishVolume_body req (publish_VolumeId req) (publish_TargetPath req)
            volCap)
    (publishExit req volCap).
Proof.
  unfold NodePublishVolume_body.
  eapply yields_bind; [apply yields_inspectExit|].
  intros [err|] ti Hinspect.
  { apply yields_ret. rewrite app_nil_r. by eapply publish_inspector_error. }
  assert (∃ mountList, ti = [EvList (mountList, None)]) as [mountList ->].
  { destruct Hinspect as (mountList & [e|] & -> & H); [done|by eauto]. }
  clear Hinspect.
  destruct (AccessType volCap) as [[|mode_Mount]|] eqn:Hmode.
  - apply yields_ret. by eapply publish_block.
  - eapply yields_bind; [by apply yields_publishMountExit|].
    intros rm tm Hmount.
    assert (publishExit req volCap
              match rm with
              | Some err => (None, Some err)
              | None => (Some NodePublishVolumeResponse, None)
              end
              ([EvList (mountList, None)] ++ tm ++ [])).
    { eapply publish_file_system; [done..| |done]. by rewrite app_nil_r. }
    destruct rm; by apply yields_ret.
  - apply yields_ret. by eapply publish_no_access_type.
Qed.

Lemma yields_unpublishExit volumeID target :
  yields (NodeUnpublishVolume_body volumeID target) (unpublishExit target).
Proof.
  unfold NodeUnpublishVolume_body, unmount, mounter_IsLikelyNotMountPoint,
    mounter_Unmount.
  eapply yields_bind
    with (P := λ err t,
            unpublishExit target
              match err with
              | Some err => (None, Some err)
              | None => (Some NodeUnpublishVolumeResponse, None)
              end t).
  - eapply yields_bind;
      [apply (yields_extern _ _
                (λ r t, t = [EvIsLikelyNotMountPoint target r]))|]; [done|].
    intros [notMnt err] ? ->.
    destruct (_ || _) eqn:Hcond.
    { apply yields_ret. by eapply unpublish_not_mounted. }
    eapply yields_bind;
      [apply (yields_extern _ _ (λ r t, t = [EvUnmount target r]))|]; [done|].
    intros x ? ->.
    destruct x; apply yields_ret;
      by eapply (unpublish_unmount _ _ _ notMnt err).
  - intros [err|] t Hexit; apply yields_ret; by rewrite app_nil_r.
Qed.

(** ** The exits of the handlers *)

Lemma log_of_unchanged (s : State World) t : trace s = trace s ++ t → t = [].
Proof.
  intros H. apply (app_inv_head (trace s)). by rewrite app_nil_r.
Qed.

Lemma guarded_exit volID rest Q s r s' t :
  yields rest Q → guarded volID rest s = Some (r, s') → trace s' = trace s ++ t →
  (t = [] ∧ turnedAway r) ∨ Q r t.
Proof.
  intros Hrest Hrun Ht.
  destruct (guarded_yields _ _ _ _ _ _ Hrest Hrun) as [[-> ->]|(_ & t' & Ht' & HQ)].
  - left. split; [by apply log_of_unchanged in Ht|]. split; [done|by right].
  - right. rewrite Ht' in Ht. apply app_inv_head in Ht. by subst t'.
Qed.

Lemma rejected_exit (s s' : State World) (r : Result) msg t :
  ret (None, Some (status_Error InvalidArgument msg)) s = Some (r, s') →
  trace s' = trace s ++ t →
  t = [] ∧ turnedAway r.
Proof.
  unfold ret. intros [= <- <-] Ht. split; [by apply log_of_unchanged in Ht|].
  split; [done|by left].
Qed.

Lemma NodeStageVolume_exit req s r s' t :
  NodeStageVolume req s = Some (r, s') → trace s' = trace s ++ t →
  (t = [] ∧ turnedAway r)
  ∨ ∃ reqParam, validateStagingReq req = (reqParam, None) ∧ stageExit req reqParam r t.
Proof.
  intros Hrun Ht.
  destruct (validateStagingReq req) as [reqParam [e|]] eqn:Hv.
  - left. rewrite (NodeStageVolume_invalid req e) in Hrun by (by rewrite Hv).
    destruct (validateStagingReq_error req e) as [msg ->]; [by rewrite Hv|].
    by eapply rejected_exit.
  - rewrite (NodeStageVolume_valid _ _ _ Hv) in Hrun.
    destruct (guarded_exit _ _ _ _ _ _ _ (yields_stageExit req reqParam) Hrun Ht);
      [by left|right; by exists reqParam].
Qed.

Lemma NodeUnstageVolume_exit req s r s' t :
  NodeUnstageVolume req s = Some (r, s') → trace s' = trace s ++ t →
  (t = [] ∧ turnedAway r)
  ∨ unstageExit (unstage_VolumeId req) (unstage_StagingTargetPath req) r t.
Proof.
  unfold NodeUnstageVolume. intros Hrun Ht.
  repeat case_match; try (left; by eapply rejected_exit).
  by eapply guarded_exit; [apply yields_unstageExit|..].
Qed.

Lemma NodePublishVolume_exit req s r s' t :
  NodePublishVolume req s = Some (r, s') → trace s' = trace s ++ t →
  (t = [] ∧ turnedAway r)
  ∨ ∃ volCap, publish_VolumeCapability req = Some volCap
              ∧ publishExit req volCap r t.
Proof.
  unfold NodePublishVolume. intros Hrun Ht.
  repeat case_match; try (left; by eapply rejected_exit).
  destruct (guarded_exit _ _ _ _ _ _ _ (yields_publishExit req _) Hrun Ht);
    [by left|right; by eauto].
Qed.

Lemma NodeUnpublishVolume_exit req s r s' t :
  NodeUnpublishVolume req s = Some (r, s') → trace s' = trace s ++ t →
  (t = [] ∧ turnedAway r) ∨ unpublishExit (unpublish_TargetPath req) r t.
Proof.
  unfold NodeUnpublishVolume. intros Hrun Ht.
  repeat case_match; try (left; by eapply rejected_exit).
  by eapply guarded_exit; [apply yields_unpublishExit|..].
Qed.

(** ** What the logs are made of *)

Lemma pendingChecks_events key d pending : Forall pollEvent (pendingChecks key d pending).
Proof.
  revert d. induction pending as [|instance pending IH]; intros d; simpl;
    [constructor|]. repeat (constructor; [done|]). apply IH.
Qed.

Lemma failedProbes_events targetPortal errs :
  Forall reachEvent (failedProbes targetPortal errs).
Proof.
  induction errs as [|e errs IH]; simpl; [constructor|].
  repeat (constructor; [done|]). apply IH.
Qed.

Lemma pollExit_events key n d r t : pollExit key n d r t → Forall pollEvent t.
Proof.
  intros (pending & _ & H). pose proof (pendingChecks_events key d pending).
  destruct r as [instance|err].
  - destruct H as (_ & _ & ->). apply Forall_app. split; [done|].
    by repeat constructor.
  - destruct H as [(_ & -> & _)|(_ & tl & (e & [[-> _]|[-> _]]) & ->)]; [done|..];
      (apply Forall_app; split; [done|]); by repeat constructor.
Qed.

Lemma probeExit_events targetPortal n r t :
  probeExit targetPortal n r t → Forall reachEvent t.
Proof.
  intros (errs & H). pose proof (failedProbes_events targetPortal errs).
  destruct r as [err|].
  - by destruct H as (_ & -> & _).
  - destruct H as (_ & ->). apply Forall_app. split; [done|].
    by repeat constructor.
Qed.

Lemma formatExit_events req devicePath r t :
  formatExit req devicePath r t → Forall (mountEvent (declaredFsType req)) t.
Proof.
  assert (∀ err mk, remade (stage_StagingTargetPath req) err mk →
            Forall (mountEvent (declaredFsType req)) mk) as Hmk.
  { unfold remade. intros err mk. destruct (_ || _); intros ->;
      by repeat constructor. }
  intros [notMnt err e _ -> _|err mk Hr -> _|err mk x Hr -> _].
  - by repeat constructor.
  - constructor; [done|]. by eapply Hmk.
  - constructor; [done|]. apply Forall_app. split; [by eapply Hmk|].
    by repeat constructor.
Qed.

(** ** The Stage sequence, call by call *)

Ltac absurd_event :=
  match goal with
  | H : ?e ∈ ?t, F : Forall ?P ?t |- _ =>
    exfalso; exact (proj1 (Forall_forall P t) F e H)
  end.

Lemma readyAndReachable_events reqParam instance t :
  readyAndReachable reqParam instance t → Forall beforeAttach t.
Proof.
  intros (tp & mountList & tr & Hp%pollExit_events & Hr%probeExit_events & ->).
  rewrite !Forall_app. split_and!.
  - eapply Forall_impl; [exact Hp|]. by intros [].
  - by repeat constructor.
  - eapply Forall_impl; [exact Hr|]. by intros [].
Qed.

Lemma attached_events reqParam instance devicePath t :
  attached reqParam instance devicePath t → Forall upToAttach t.
Proof.
  intros (t0 & Hreach%readyAndReachable_events & _ & ->).
  rewrite Forall_app. split; [|by repeat constructor].
  eapply Forall_impl; [exact Hreach|]. by intros [].
Qed.

Lemma persisted_events reqParam devicePath instance' t :
  persisted reqParam devicePath instance' t → Forall upToUpdate t.
Proof.
  intros (instance & ta & Hatt%attached_events & ->).
  rewrite Forall_app. split; [|by repeat constructor].
  eapply Forall_impl; [exact Hatt|]. by intros [].
Qed.

Lemma formatExit_afterAttach req devicePath r t :
  formatExit req devicePath r t → Forall afterAttach t.
Proof.
  intros H%formatExit_events. eapply Forall_impl; [exact H|]. by intros [].
Qed.

Lemma stageExit_phases req reqParam r t :
  stageExit req reqParam r t →
  Forall beforeAttach t
  ∨ ∃ instance t0 x rest,
      readyAndReachable reqParam instance t0
      ∧ t = t0 ++ EvConnect (connectorOf instance) x :: rest
      ∧ Forall afterAttach rest.
Proof.
  intros [err Hpoll Hr|instance tp ti err Hpoll Hinspect Ht Hr
         |instance tp mountList tr err Hpoll Hprobe Ht Hr
         |instance t0 ta d err Hreach Hattach Ht Hr
         |instance devicePath ta e Hatt Ht Hr
         |instance devicePath ta instance' e Hatt Ht Hr
         |devicePath instance' tu e Hpers Ht Hr
         |devicePath instance' tu tm rm Hpers Hformat Ht Hr]; try subst t.
  - left. apply pollExit_events in Hpoll.
    eapply Forall_impl; [exact Hpoll|]. by intros [].
  - left. apply pollExit_events in Hpoll.
    destruct Hinspect as (mountList & lerr & -> & _).
    rewrite Forall_app. split; [|by repeat constructor].
    eapply Forall_impl; [exact Hpoll|]. by intros [].
  - left. apply pollExit_events in Hpoll. apply probeExit_events in Hprobe.
    rewrite !Forall_app. split_and!; [|by repeat constructor|].
    + eapply Forall_impl; [exact Hpoll|]. by intros [].
    + eapply Forall_impl; [exact Hprobe|]. by intros [].
  - right. destruct Hattach as (d' & err' & -> & _).
    by exists instance, t0, (d', err'), [].
  - right. destruct Hatt as (t0 & Hreach & _ & ->).
    eexists instance, t0, _, _. split; [done|].
    split; [by rewrite <- app_assoc|]. by repeat constructor.
  - right. destruct Hatt as (t0 & Hreach & _ & ->).
    eexists instance, t0, _, _. split; [done|].
    split; [by rewrite <- app_assoc|]. by repeat constructor.
  - right. destruct Hpers as (instance & ta & (t0 & Hreach & _ & ->) & ->).
    eexists instance, t0, _, _. split; [done|].
    split; [by rewrite <- !app_assoc|]. by repeat constructor.
  - right. destruct Hpers as (instance & ta & (t0 & Hreach & _ & ->) & ->).
    apply formatExit_afterAttach in Hformat.
    eexists instance, t0, _, _. split; [done|].
    split; [by rewrite <- !app_assoc|].
    repeat (constructor; [done|]). done.
Qed.

(** X3. Whenever [NodeStageVolume] calls [iscsi.Connect], the log of the
    run up to that call reads: status checks that found records not
    serving, fewer than the most the poll makes; one status check that
    read a record with phase Ready and status RW; one successful listing
    of the mount table; probes of the target portal of that record that
    failed, fewer than the most the poll makes; one probe that connected,
    and its close. The connector is the one of that record, with LUN 0,
    the default interface and discovery on, and there is one attach at
    most in a run. *)
Theorem X3_stage_attaches_only_when_ready_and_reachable
    (req : NodeStageVolumeRequest) (s s' : State World) (r : Result)
    (t : list Event) :
  NodeStageVolume req s = Some (r, s') → trace s' = trace s ++ t →
  ∀ c x, EvConnect c x ∈ t →
    ∃ instance pending mountList errs rest,
      serving instance
      ∧ Forall (λ instance, ¬ serving instance) pending
      ∧ (length pending < maxChecks)%nat
      ∧ (length errs < maxProbes)%nat
      ∧ c = {| VolumeName := Name instance;
               TargetIqn := Iqn (ISCSISpec (Spec instance));
               Lun := 0; Interface := "default";
               TargetPortals := [targetPortalOf instance];
               DoDiscovery := true |}
      ∧ t = pendingChecks (StripName (StripName (stage_VolumeId req))) 0 pending
            ++ statusCheck (StripName (StripName (stage_VolumeId req)))
                           (nextDelay 0 pending) instance
            ++ [EvList (mountList, None)]
            ++ failedProbes (targetPortalOf instance) errs
            ++ [EvDial "tcp" (targetPortalOf instance) None; EvConnClose]
            ++ EvConnect c x :: rest
      ∧ ∀ c' x', EvConnect c' x' ∉ rest.
Proof.
  intros Hrun Ht c x Hin.
  destruct (NodeStageVolume_exit _ _ _ _ _ Hrun Ht)
    as [[-> _]|(reqParam & Hv & Hexit)]; [by apply elem_of_nil in Hin|].
  destruct (validateStagingReq_ok _ _ Hv) as (Hkey & _).
  destruct (stageExit_phases _ _ _ _ Hexit)
    as [Hbefore|(instance & t0 & x0 & rest & Hreach & -> & Hafter)];
    [absurd_event|].
  pose proof (readyAndReachable_events _ _ _ Hreach) as Hbefore.
  apply elem_of_app in Hin as [Hin|Hin]; [absurd_event|].
  apply elem_of_cons in Hin as [[= -> ->]|Hin]; [|absurd_event].
  destruct Hreach as (tp & mountList & tr & (pending & Hpending & Hs & Hlen & ->)
                      & (errs & Hlen' & ->) & ->).
  exists instance, pending, mountList, errs, rest. rewrite <- Hkey.
  split_and!; try done.
  - by rewrite <- !app_assoc.
  - intros c' x' Hin. absurd_event.
Qed.

Ltac note H :=
  let T := type of H in
  lazymatch goal with
  | _ : T |- _ => fail
  | _ => pose proof H
  end.

Ltac stage_facts :=
  repeat match goal with
         | H : pollExit _ _ _ _ _ |- _ => note (pollExit_events _ _ _ _ _ H)
         | H : probeExit _ _ _ _ |- _ => note (probeExit_events _ _ _ _ H)
         | H : formatExit _ _ _ _ |- _ => note (formatExit_events _ _ _ _ H)
         | H : readyAndReachable _ _ _ |- _ =>
           note (readyAndReachable_events _ _ _ H)
         | H : attached _ _ _ _ |- _ => note (attached_events _ _ _ _ H)
         | H : persisted _ _ _ _ |- _ => note (persisted_events _ _ _ _ H)
         | H : inspectExit _ _ |- _ =>
           let mountList := fresh "mountList" in
           let lerr := fresh "lerr" in
           destruct H as (mountList & lerr & -> & H)
         | H : attachExit _ _ _ |- _ =>
           let d := fresh "d" in
           let aerr := fresh "aerr" in
           destruct H as (d & aerr & -> & H)
         end.

Ltac stage_exits H :=
  destruct H as [err Hpoll Hr|instance tp ti err Hpoll Hinspect Ht Hr
                |instance tp mountList tr err Hpoll Hprobe Ht Hr
                |instance t0 ta d err Hreach Hattach Ht Hr
                |instance devicePath ta e Hatt Ht Hr
                |instance devicePath ta instance' e Hatt Ht Hr
                |devicePath instance' tu e Hpers Ht Hr
                |devicePath instance' tu tm rm Hpers Hformat Ht Hr];
  try subst; stage_facts.

Ltac event_cases :=
  repeat match goal with
         | H : _ ∈ _ ++ _ |- _ => apply elem_of_app in H; destruct H
         | H : _ ∈ _ :: _ |- _ => apply elem_of_cons in H; destruct H
         | H : _ ∈ [] |- _ => by apply elem_of_nil in H
         | H : ?e ∈ ?t, F : Forall ?P ?t |- _ =>
           exfalso; exact (proj1 (Forall_forall P t) F e H)
         end;
  simplify_eq.

Lemma resolvedFsType_nonempty req : resolvedFsType req ≠ "".
Proof.
  unfold resolvedFsType.
  destruct (_ =? _)%nat eqn:E; [done|]. intros H. by rewrite H in E.
Qed.

Lemma stageExit_update req reqParam r t cr x :
  stageExit req reqParam r t → EvUpdateJivaVolume cr x ∈ t →
  ∃ instance devicePath ta instance' rest,
    attached reqParam instance devicePath ta
    ∧ cr = stagedRecord reqParam devicePath instance'
    ∧ t = ta ++ [EvGetJivaVolume (volumeID reqParam) (inl instance');
                 EvUpdateJivaVolume cr x] ++ rest
    ∧ Forall (mountEvent (declaredFsType req)) rest.
Proof.
  intros Hexit Hin. stage_exits Hexit; try (by event_cases).
  - event_cases. by eexists instance, devicePath, ta, instance', [].
  - destruct Hpers as (instance & ta & Hatt & ->). stage_facts.
    event_cases.
    eexists instance, devicePath, ta, instance', _. split; [done|].
    split; [done|]. split; [by rewrite <- app_assoc|]. by repeat constructor.
  - destruct Hpers as (instance & ta & Hatt & ->). stage_facts.
    event_cases.
    eexists instance, devicePath, ta, instance', _. split; [done|].
    split; [done|]. split; [by rewrite <- app_assoc|].
    by constructor.
Qed.

(** X4. Whenever [NodeStageVolume] writes the volume record, it has just
    attached the device and read the record again: the three calls follow
    each other in the log. The device path of the attach is not empty, and
    the record written is the record read, under the once-normalized id,
    with new mount information and nothing else changed: the resolved
    filesystem type, which is not empty, the device path of the attach,
    and the staging path of the request, which is not empty. The record is
    written once at most in a run. *)
Theorem X4_stage_writes_record_after_attach
    (req : NodeStageVolumeRequest) (s s' : State World) (r : Result)
    (t : list Event) :
  NodeStageVolume req s = Some (r, s') → trace s' = trace s ++ t →
  ∀ cr x, EvUpdateJivaVolume cr x ∈ t →
    ∃ t0 c devicePath instance' rest,
      t = t0 ++ [EvConnect c (devicePath, None);
                 EvGetJivaVolume (StripName (stage_VolumeId req)) (inl instance');
                 EvUpdateJivaVolume cr x] ++ rest
      ∧ devicePath ≠ ""
      ∧ cr = {| Name := Name instance';
                Spec := {| ISCSISpec := ISCSISpec (Spec instance');
                           MountInfo := {| FSType := resolvedFsType req;
                                           DevicePath := devicePath;
                                           Path := stage_StagingTargetPath req |} |};
                VolStatus := VolStatus instance' |}
      ∧ resolvedFsType req ≠ ""
      ∧ stage_StagingTargetPath req ≠ ""
      ∧ (∀ cr' x', EvUpdateJivaVolume cr' x' ∉ t0)
      ∧ (∀ cr' x', EvUpdateJivaVolume cr' x' ∉ rest).
Proof.
  intros Hrun Ht cr x Hin.
  destruct (NodeStageVolume_exit _ _ _ _ _ Hrun Ht)
    as [[-> _]|(reqParam & Hv & Hexit)]; [by apply elem_of_nil in Hin|].
  destruct (validateStagingReq_ok _ _ Hv) as (Hkey & Hfs & Hpath & _ & Hne).
  destruct (stageExit_update _ _ _ _ _ _ Hexit Hin)
    as (instance & devicePath & ta & instance' & rest & Hatt & -> & -> & Hrest).
  destruct Hatt as (t0 & Hreach%readyAndReachable_events & Hdev & ->).
  exists t0, (connectorOf instance), devicePath, instance', rest.
  unfold stagedRecord. rewrite Hkey, Hfs, Hpath.
  split_and!; try done.
  - by rewrite <- app_assoc.
  - apply resolvedFsType_nonempty.
  - intros cr' x' Hin'. event_cases.
  - intros cr' x' Hin'. event_cases.
Qed.

Ltac open_milestones :=
  repeat match goal with
         | H : persisted _ _ _ _ |- _ =>
           let instance := fresh "instance" in
           let ta := fresh "ta" in
           destruct H as (instance & ta & H & ->)
         | H : attached _ _ _ _ |- _ =>
           let t0 := fresh "t0" in
           let Hdev := fresh "Hdev" in
           destruct H as (t0 & H & Hdev & ->)
         | H : readyAndReachable _ _ _ |- _ =>
           let tp := fresh "tp" in
           let mountList := fresh "mountList" in
           let tr := fresh "tr" in
           let Hpoll := fresh "Hpoll" in
           let Hprobe := fresh "Hprobe" in
           destruct H as (tp & mountList & tr & Hpoll & Hprobe & ->)
         end.

Lemma last_two {A} (l : list A) a b : last (l ++ [a; b]) = Some b.
Proof. change (l ++ [a; b]) with (l ++ [a] ++ [b]). by rewrite app_assoc, last_snoc. Qed.

Lemma remade_cases mntPath err mk :
  remade mntPath err mk → mk = [] ∨ mk = [EvMkdirAll mntPath perm_0750 None].
Proof. unfold remade. destruct (_ || _); auto. Qed.

Lemma stageExit_format req reqParam r t src tgt fs opts x :
  stageExit req reqParam r t → EvFormatAndMount src tgt fs opts x ∈ t →
  ∃ instance' tu err mk,
    persisted reqParam src instance' tu
    ∧ remade (stage_StagingTargetPath req) err mk
    ∧ tgt = stage_StagingTargetPath req
    ∧ opts = declaredMountFlags req
    ∧ t = tu ++ [EvMkdirAll (stagingPath reqParam) perm_0750 None;
                 EvIsLikelyNotMountPoint tgt (true, err)]
             ++ mk ++ [EvFormatAndMount src tgt fs opts x]
    ∧ r = match x with
          | Some e => (None, Some (status_Error Internal (Lit (ext_msg e))))
          | None => (Some NodeStageVolumeResponse, None)
          end.
Proof.
  intros Hexit Hin. stage_exits Hexit; try (by event_cases).
  destruct Hformat as [notMnt err e _ -> _|err mk Hmk -> _|err mk x0 Hmk -> ->].
  - by event_cases.
  - destruct (remade_cases _ _ _ Hmk) as [->| ->]; by event_cases.
  - assert (EvFormatAndMount src tgt fs opts x
            = EvFormatAndMount devicePath (stage_StagingTargetPath req)
                (declaredFsType req) (declaredMountFlags req) x0) as [= -> -> -> -> ->].
    { destruct (remade_cases _ _ _ Hmk) as [->| ->]; by event_cases. }
    exists instance', tu, err, mk. split_and!; try done. by destruct x0.
Qed.

(** X5. Whenever [NodeStageVolume] calls the mounter's [FormatAndMount],
    it is the last call of the run and comes after the record was stored
    and the staging directory made, and after the mounter reported the
    staging path as not being a mount point (with the directory made once
    more when that check failed for another reason than a missing path).
    The device is the one stored in the record, the target is the staging
    path of the request, the options are the mount flags of the request,
    and the answer of the run is success when the call succeeds and
    Internal with the mounter's message when it fails. *)
Theorem X5_stage_formats_after_record_is_stored
    (req : NodeStageVolumeRequest) (s s' : State World) (r : Result)
    (t : list Event) :
  NodeStageVolume req s = Some (r, s') → trace s' = trace s ++ t →
  ∀ src tgt fs opts x, EvFormatAndMount src tgt fs opts x ∈ t →
    ∃ t0 cr err mk,
      t = t0 ++ [EvUpdateJivaVolume cr None;
                 EvMkdirAll tgt perm_0750 None;
                 EvIsLikelyNotMountPoint tgt (true, err)]
             ++ mk ++ [EvFormatAndMount src tgt fs opts x]
      ∧ remade tgt err mk
      ∧ src = DevicePath (MountInfo (Spec cr))
      ∧ src ≠ ""
      ∧ tgt = stage_StagingTargetPath req
      ∧ opts = declaredMountFlags req
      ∧ r = match x with
            | Some e => (None, Some (status_Error Internal (Lit (ext_msg e))))
            | None => (Some NodeStageVolumeResponse, None)
            end.
Proof.
  intros Hrun Ht src tgt fs opts x Hin.
  destruct (NodeStageVolume_exit _ _ _ _ _ Hrun Ht)
    as [[-> _]|(reqParam & Hv & Hexit)]; [by apply elem_of_nil in Hin|].
  destruct (validateStagingReq_ok _ _ Hv) as (_ & _ & Hpath & _).
  destruct (stageExit_format _ _ _ _ _ _ _ _ _ Hexit Hin)
    as (instance' & tu & err & mk & Hpers & Hmk & -> & -> & -> & ->).
  destruct Hpers as (instance & ta & (t0 & _ & Hdev & _) & ->).
  exists (ta ++ [EvGetJivaVolume (volumeID reqParam) (inl instance')]),
    (stagedRecord reqParam src instance'), err, mk.
  rewrite Hpath. split_and!; try done. by rewrite <- !app_assoc.
Qed.

Lemma stageExit_success req reqParam r t :
  stageExit req reqParam r t → r.2 = None →
  ∃ devicePath instance' tu notMnt err mk,
    persisted reqParam devicePath instance' tu
    ∧ remade (stage_StagingTargetPath req) err mk
    ∧ r = (Some NodeStageVolumeResponse, None)
    ∧ t = tu ++ [EvMkdirAll (stagingPath reqParam) perm_0750 None;
                 EvIsLikelyNotMountPoint (stage_StagingTargetPath req) (notMnt, err)]
             ++ mk
             ++ (if notMnt : bool
                 then [EvFormatAndMount devicePath (stage_StagingTargetPath req)
                         (declaredFsType req) (declaredMountFlags req) None]
                 else []).
Proof.
  intros Hexit Hok. stage_exits Hexit; try done.
  destruct Hformat as [notMnt err e _ -> ->|err mk Hmk -> ->|err mk x0 Hmk -> ->];
    [done| |].
  - exists devicePath, instance', tu, false, err, mk. split_and!; try done.
    by rewrite app_nil_r.
  - destruct x0; [done|].
    by exists devicePath, instance', tu, true, err, mk.
Qed.

(** X6. A [NodeStageVolume] call that answers without an error answers
    with a response, and its log ends with: the record stored, the staging
    directory made, and the mounter's check of the staging path followed,
    when the path was reported as not being a mount point, by a
    successful [FormatAndMount] of the stored device at the staging path;
    when the path was reported as a mount point already, nothing is
    formatted or mounted. *)
Theorem X6_stage_success_means_stored_and_mounted
    (req : NodeStageVolumeRequest) (s s' : State World) (r : Result)
    (t : list Event) :
  NodeStageVolume req s = Some (r, s') → trace s' = trace s ++ t →
  r.2 = None →
  ∃ t0 cr notMnt err mk,
    r = (Some NodeStageVolumeResponse, None)
    ∧ remade (stage_StagingTargetPath req) err mk
    ∧ MountInfo (Spec cr)
      = {| FSType := resolvedFsType req; DevicePath := DevicePath (MountInfo (Spec cr));
           Path := stage_StagingTargetPath req |}
    ∧ t = t0 ++ [EvUpdateJivaVolume cr None;
                 EvMkdirAll (stage_StagingTargetPath req) perm_0750 None;
                 EvIsLikelyNotMountPoint (stage_StagingTargetPath req) (notMnt, err)]
             ++ mk
             ++ (if notMnt : bool
                 then [EvFormatAndMount (DevicePath (MountInfo (Spec cr)))
                         (stage_StagingTargetPath req)
                         (declaredFsType req) (declaredMountFlags req) None]
                 else []).
Proof.
  intros Hrun Ht Hok.
  destruct (NodeStageVolume_exit _ _ _ _ _ Hrun Ht)
    as [[_ [_ Hcode]]|(reqParam & Hv & Hexit)].
  { unfold result_code in Hcode. rewrite Hok in Hcode. by destruct Hcode. }
  destruct (validateStagingReq_ok _ _ Hv) as (_ & Hfs & Hpath & _).
  destruct (stageExit_success _ _ _ _ Hexit Hok)
    as (devicePath & instance' & tu & notMnt & err & mk & Hpers & Hmk & -> & ->).
  destruct Hpers as (instance & ta & _ & ->).
  exists (ta ++ [EvGetJivaVolume (volumeID reqParam) (inl instance')]),
    (stagedRecord reqParam devicePath instance'), notMnt, err, mk.
  rewrite Hpath. simpl. rewrite Hfs, Hpath.
  split_and!; try done. by rewrite <- !app_assoc.
Qed.

Lemma stageExit_failures req reqParam r t :
  stageExit req reqParam r t →
  (∀ mountList e, EvList (mountList, Some e) ∈ t →
     r = (None, Some (fmt_Errorf (Lit "Failed to list mount paths")))
     ∧ last t = Some (EvList (mountList, Some e)))
  ∧ (∀ c d e, EvConnect c (d, Some e) ∈ t →
       r = (None, Some (status_Error Internal (Lit (ext_msg e))))
       ∧ last t = Some (EvConnect c (d, Some e)))
  ∧ (∀ c, EvConnect c ("", None) ∈ t →
       r = (None, Some (status_Error Internal
                          (Lit "connect reported success, but no path returned")))
       ∧ last t = Some (EvConnect c ("", None)))
  ∧ (∀ p perm e, EvMkdirAll p perm (Some e) ∈ t →
       r = (None, Some (status_Error Internal (Lit (ext_msg e))))
       ∧ last t = Some (EvMkdirAll p perm (Some e))).
Proof.
  intros Hexit. split_and!.
  - intros ml0 e0 Hin.
    stage_exits Hexit; open_milestones; stage_facts; try (by event_cases).
    destruct lerr; [injection Hinspect as ->|by event_cases]. event_cases.
    by rewrite last_snoc.
  - intros c0 d0 e0 Hin.
    stage_exits Hexit; open_milestones; stage_facts; try (by event_cases).
    destruct aerr as [e'|]; [|by event_cases].
    event_cases. split; [done|]. by rewrite last_snoc.
  - intros c0 Hin.
    stage_exits Hexit; open_milestones; stage_facts; try (by event_cases).
    destruct aerr as [e'|]; [by event_cases|].
    destruct Hattach as [[-> ?]|[_ ?]]; event_cases. split; [done|].
    by rewrite last_snoc.
  - intros p0 perm0 e0 Hin.
    stage_exits Hexit; open_milestones; stage_facts; try (by event_cases).
    + event_cases. split; [done|]. by rewrite !app_assoc, last_snoc.
    + destruct Hformat
        as [notMnt err e' _ -> ->|err mk Hmk -> ->|err mk x0 Hmk -> ->].
      * event_cases. split; [done|]. rewrite !app_assoc. apply last_two.
      * destruct (remade_cases _ _ _ Hmk) as [->| ->]; by event_cases.
      * destruct (remade_cases _ _ _ Hmk) as [->| ->]; by event_cases.
Qed.

(** X7. In a run of [NodeStageVolume], a failed listing of the mount
    table is answered with the plain error "Failed to list mount paths",
    which carries no status code; a failed [iscsi.Connect], and a
    [iscsi.Connect] that reports success with an empty device path, are
    answered with Internal; so is a failed [os.MkdirAll], that of the
    handler as well as that of [formatAndMount]. In each case the failed
    call is the last call of the run: after a failed attach the record is
    not written and nothing is mounted. *)
Theorem X7_stage_stops_at_the_failed_call
    (req : NodeStageVolumeRequest) (s s' : State World) (r : Result)
    (t : list Event) :
  NodeStageVolume req s = Some (r, s') → trace s' = trace s ++ t →
  (∀ mountList e, EvList (mountList, Some e) ∈ t →
     r = (None, Some (fmt_Errorf (Lit "Failed to list mount paths")))
     ∧ result_code r = Some Unknown
     ∧ last t = Some (EvList (mountList, Some e)))
  ∧ (∀ c d e, EvConnect c (d, Some e) ∈ t →
       r = (None, Some (status_Error Internal (Lit (ext_msg e))))
       ∧ last t = Some (EvConnect c (d, Some e)))
  ∧ (∀ c, EvConnect c ("", None) ∈ t →
       r = (None, Some (status_Error Internal
                          (Lit "connect reported success, but no path returned")))
       ∧ last t = Some (EvConnect c ("", None)))
  ∧ (∀ p perm e, EvMkdirAll p perm (Some e) ∈ t →
       r = (None, Some (status_Error Internal (Lit (ext_msg e))))
       ∧ last t = Some (EvMkdirAll p perm (Some e))).
Proof.
  intros Hrun Ht.
  destruct (NodeStageVolume_exit _ _ _ _ _ Hrun Ht)
    as [[-> _]|(reqParam & Hv & Hexit)].
  { split_and!; intros; by event_cases. }
  destruct (stageExit_failures _ _ _ _ Hexit) as (Hlist & Hconnect & Hempty & Hmkdir).
  split_and!; try done.
  intros mountList e Hin. destruct (Hlist mountList e Hin) as [-> Hlast]. done.
Qed.

Lemma stageExit_FailedPrecondition req reqParam r t :
  stageExit req reqParam r t → result_code r = Some FailedPrecondition →
  Forall beforeAttach t
  ∧ ((∃ err, pollExit (StripName (volumeID reqParam)) maxChecks 0 (inr err) t
             ∧ r = (None, Some (status_Error FailedPrecondition (Error err))))
     ∨ (∃ instance tp mountList errs e,
          pollExit (StripName (volumeID reqParam)) maxChecks 0 (inl instance) tp
          ∧ length (errs ++ [e]) = maxProbes
          ∧ t = tp ++ [EvList (mountList, None)]
                  ++ failedProbes (targetPortalOf instance) (errs ++ [e])
          ∧ r = (None, Some (status_Error FailedPrecondition
                   (Sprintf "iSCSI Target not reachable, TargetPortal {%v}, err:%v"
                            [targetPortalOf instance; Lit (ext_msg e)]))))).
Proof.
  intros Hexit Hcode. unfold result_code in Hcode.
  stage_exits Hexit; simpl in Hcode; try done.
  - split; [eapply Forall_impl; [eassumption|by intros []]|].
    left. by exists err.
  - exfalso. destruct lerr; [by simplify_eq/=|].
    by destruct (Hinspect err eq_refl) as [m ->].
  - split.
    { rewrite !Forall_app. split_and!; [|by repeat constructor|];
        (eapply Forall_impl; [eassumption|by intros []]). }
    right. destruct Hprobe as (errs & Hlen & -> & e & Hlast & ->).
    apply last_Some in Hlast as [errs' ->].
    by exists instance, tp, mountList, errs', e.
  - by destruct rm.
Qed.

(** X8. A [NodeStageVolume] call answers FailedPrecondition in two cases
    only. Either the readiness poll failed: a status check failed, or the
    most status checks were made and none found the volume serving. Or
    the volume was found serving, the mount table was listed, and the most
    probes were made of the target portal, two seconds apart, and all
    failed; the message carries the portal and the error of the last
    probe. In both cases no call other than status checks, the listing and
    probes was made: nothing was attached, written or mounted. *)
Theorem X8_stage_FailedPrecondition_means_not_ready_or_unreachable
    (req : NodeStageVolumeRequest) (s s' : State World) (r : Result)
    (t : list Event) :
  NodeStageVolume req s = Some (r, s') → trace s' = trace s ++ t →
  result_code r = Some FailedPrecondition →
  Forall beforeAttach t
  ∧ ((∃ err,
        pollExit (StripName (StripName (stage_VolumeId req))) maxChecks 0 (inr err) t
        ∧ r = (None, Some (status_Error FailedPrecondition (Error err))))
     ∨ (∃ instance pending mountList errs e,
          serving instance
          ∧ Forall (λ instance, ¬ serving instance) pending
          ∧ (length pending < maxChecks)%nat
          ∧ length (errs ++ [e]) = maxProbes
          ∧ t = pendingChecks (StripName (StripName (stage_VolumeId req))) 0 pending
                ++ statusCheck (StripName (StripName (stage_VolumeId req)))
                               (nextDelay 0 pending) instance
                ++ [EvList (mountList, None)]
                ++ failedProbes (targetPortalOf instance) (errs ++ [e])
          ∧ r = (None, Some (status_Error FailedPrecondition
                   (Sprintf "iSCSI Target not reachable, TargetPortal {%v}, err:%v"
                            [targetPortalOf instance; Lit (ext_msg e)]))))).
Proof.
  intros Hrun Ht Hcode.
  destruct (NodeStageVolume_exit _ _ _ _ _ Hrun Ht)
    as [[_ [_ Haway]]|(reqParam & Hv & Hexit)].
  { rewrite Hcode in Haway. by destruct Haway. }
  destruct (validateStagingReq_ok _ _ Hv) as (Hkey & _).
  destruct (stageExit_FailedPrecondition _ _ _ _ Hexit Hcode)
    as [Hbefore [(err & Hpoll & ->)|(instance & tp & mountList & errs & e & Hpoll
                                     & Hlen & -> & ->)]];
    (split; [done|]); rewrite <- Hkey.
  - left. by exists err.
  - right. destruct Hpoll as (pending & Hpending & Hs & Hlen' & ->).
    exists instance, pending, mountList, errs, e. split_and!; try done.
    by rewrite <- !app_assoc.
Qed.

(** ** The two polls *)

Lemma delays_failedProbes targetPortal errs :
  delays (failedProbes targetPortal errs) = replicate (length errs) (2 * Second).
Proof. induction errs as [|e errs IH]; [done|]. simpl. by rewrite <- IH. Qed.

(** X1. [waitForVolumeToBeReachable] returns in every world, after a
    log of this form: probes of the target portal that failed, each
    followed by a sleep of two seconds, and then either a probe that
    connected and the close of that connection, with the answer nil; or
    nothing more, with an error that carries the portal and the message
    of the last failed probe. In the first case fewer probes failed than
    [MaxRetryCount] (none when it is below 2), in the second exactly
    [MaxRetryCount] did (one when it is below 1). *)
Theorem X1_reachability_poll_exits (targetPortal : Text) (w0 : World) :
  ∃ r w t errs,
    runs (waitForVolumeToBeReachable targetPortal) w0 r w t
    ∧ delays t = replicate (length errs) (2 * Second)
    ∧ match r with
      | None =>
        (length errs < Z.to_nat (Z.max 1 MaxRetryCount))%nat
        ∧ t = failedProbes targetPortal errs
              ++ [EvDial "tcp" targetPortal None; EvConnClose]
      | Some err =>
        length errs = Z.to_nat (Z.max 1 MaxRetryCount)
        ∧ t = failedProbes targetPortal errs
        ∧ ∃ e, last errs = Some e
               ∧ err = fmt_Errorf
                         (Sprintf "iSCSI Target not reachable, TargetPortal {%v}, err:%v"
                                  [targetPortal; Lit (ext_msg e)])
      end.
Proof.
  destruct (yields_probeExit targetPortal w0) as (r & w & t & Hrun & errs & Hexit).
  exists r, w, t, errs. split; [done|]. split; [|exact Hexit].
  destruct r as [err|].
  - destruct Hexit as (_ & -> & _). apply delays_failedProbes.
  - destruct Hexit as (_ & ->). rewrite delays_app, delays_failedProbes.
    apply app_nil_r.
Qed.

Lemma statusChecks_pendingChecks key d pending :
  statusChecks (pendingChecks key d pending) = length pending.
Proof.
  revert d. induction pending as [|instance pending IH]; intros d; [done|].
  simpl. unfold statusChecks in *. simpl. by rewrite IH.
Qed.

(** X2. [waitForVolumeToBeReady] returns in every world, after a log of
    this form: status checks (a sleep, [client.Set], a read of the record
    under the normalized id) that each read a record that is not Ready
    and RW, the first after no delay and the others after five seconds
    each; and then one of: a status check that read a record that is
    Ready and RW, which is the answer; nothing more, the number of checks
    being the most the poll makes, with the error that the retry count is
    exceeded; a status check whose [client.Set] failed, answered Internal;
    a status check whose read failed, answered NotFound when the record is
    missing and Internal otherwise. No more status checks are made than
    [MaxRetryCount + 1] (one when that is below 1). *)
Theorem X2_readiness_poll_exits (volID : string) (w0 : World) :
  ∃ r w t pending,
    runs (waitForVolumeToBeReady volID) w0 r w t
    ∧ Forall (λ instance, ¬ serving instance) pending
    ∧ (statusChecks t ≤ Z.to_nat (Z.max 1 (MaxRetryCount + 1)))%nat
    ∧ match r with
      | inl instance =>
        serving instance
        ∧ t = pendingChecks (StripName volID) 0 pending
              ++ [EvSleep (nextDelay 0 pending); EvClientSet None;
                  EvGetJivaVolume (StripName volID) (inl instance)]
      | inr err =>
        (length pending = Z.to_nat (Z.max 1 (MaxRetryCount + 1))
         ∧ t = pendingChecks (StripName volID) 0 pending
         ∧ err = fmt_Errorf (Lit "Max retry count exceeded, volume is not ready"))
        ∨ (∃ e,
             t = pendingChecks (StripName volID) 0 pending
                 ++ [EvSleep (nextDelay 0 pending); EvClientSet (Some e)]
             ∧ err = status_Error Internal (Lit (ext_msg e)))
        ∨ (∃ e,
             t = pendingChecks (StripName volID) 0 pending
                 ++ [EvSleep (nextDelay 0 pending); EvClientSet None;
                     EvGetJivaVolume (StripName volID) (inr e)]
             ∧ err = status_Error
                       (if errors_IsNotFound e then NotFound else Internal)
                       (Lit (ext_msg e)))
      end.
Proof.
  destruct (yields_pollExit volID w0)
    as (r & w & t & Hrun & pending & Hpending & Hexit).
  exists r, w, t, pending. split; [done|]. split; [done|].
  fold maxChecks.
  destruct r as [instance|err].
  - destruct Hexit as (Hs & Hlen & ->). split; [|done].
    rewrite statusChecks_app, statusChecks_pendingChecks. cbn. lia.
  - destruct Hexit as [(Hlen & -> & ->)|(Hlen & tl & (e & [[-> ->]|[-> ->]]) & ->)].
    + split; [|by left]. rewrite statusChecks_pendingChecks. lia.
    + split; [|right; left; by exists e].
      rewrite statusChecks_app, statusChecks_pendingChecks. cbn. lia.
    + split; [|right; right; by exists e].
      rewrite statusChecks_app, statusChecks_pendingChecks. cbn. lia.
Qed.

(** ** Unstage, call by call *)

Ltac unstage_exits H :=
  destruct H as [dev refCount e Hlog Hans|dev Hlog Hans
                |dev refCount e Hmounted Hlog Hans
                |dev refCount tl err Hmounted Hlookup Hlog Hans
                |dev refCount instance x tr Hmounted Hlog Hans];
  try subst.

Lemma lookupExit_failed key err tl :
  lookupExit key (inr err) tl →
  ∃ e, (tl = [EvClientSet (Some e)]
        ∧ err = status_Error Internal (Lit (ext_msg e)))
       ∨ (tl = [EvClientSet None; EvGetJivaVolume key (inr e)]
          ∧ err = status_Error (if errors_IsNotFound e then NotFound else Internal)
                               (Lit (ext_msg e))).
Proof. done. Qed.

(** X9. Whenever [NodeUnstageVolume] calls [iscsi.Disconnect], the log
    up to that call reads: the mounter found references to the staging
    path of the request, the unmount of that path succeeded, [client.Set]
    succeeded and the record was read under the normalized id. The
    session closed is the one of that record: its IQN and its one target
    portal. When the disconnect fails, the answer is Internal and nothing
    else is called; when it succeeds, [os.RemoveAll] is called on the
    mount path stored in the record (not on the path of the request) and
    its outcome decides the answer. [os.RemoveAll] is called in no other
    way. *)
Theorem X9_unstage_detaches_after_unmount
    (req : NodeUnstageVolumeRequest) (s s' : State World) (r : Result)
    (t : list Event) :
  NodeUnstageVolume req s = Some (r, s') → trace s' = trace s ++ t →
  (∀ iqn portals x, EvDisconnect iqn portals x ∈ t →
     ∃ dev refCount instance rest,
       refCount ≠ 0
       ∧ iqn = Iqn (ISCSISpec (Spec instance))
       ∧ portals = [targetPortalOf instance]
       ∧ t = [EvGetDeviceName (unstage_StagingTargetPath req) (dev, refCount, None);
              EvUnmount (unstage_StagingTargetPath req) None;
              EvClientSet None;
              EvGetJivaVolume (StripName (unstage_VolumeId req)) (inl instance);
              EvDisconnect iqn portals x] ++ rest
       ∧ match x with
         | Some e =>
           rest = [] ∧ r = (None, Some (status_Error Internal (Lit (ext_msg e))))
         | None =>
           ∃ y, rest = [EvRemoveAll (Path (MountInfo (Spec instance))) y]
                ∧ r = match y with
                      | Some e =>
                        (None, Some (status_Error Internal (Lit (ext_msg e))))
                      | None => (Some NodeUnstageVolumeResponse, None)
                      end
         end)
  ∧ (∀ p y, EvRemoveAll p y ∈ t → ∃ iqn portals, EvDisconnect iqn portals None ∈ t).
Proof.
  intros Hrun Ht.
  destruct (NodeUnstageVolume_exit _ _ _ _ _ Hrun Ht) as [[-> _]|Hexit].
  { split; intros; by event_cases. }
  split.
  - intros iqn portals x0 Hin. unstage_exits Hexit; try (by event_cases).
    + apply lookupExit_failed in Hlookup as (e & [[-> _]|[-> _]]); by event_cases.
    + assert (iqn = Iqn (ISCSISpec (Spec instance))
              ∧ portals = [targetPortalOf instance] ∧ x0 = x) as (-> & -> & ->).
      { destruct x as [e|]; [destruct Hans as [-> _]|destruct Hans as (y & -> & _)];
          by event_cases. }
      by exists dev, refCount, instance, tr.
  - intros p y0 Hin. unstage_exits Hexit; try (by event_cases).
    + apply lookupExit_failed in Hlookup as (e & [[-> _]|[-> _]]); by event_cases.
    + destruct x as [e|]; [destruct Hans as [-> _]; by event_cases|].
      eexists _, _. do 4 apply list_elem_of_further. apply list_elem_of_here.
Qed.

(** X10. In a run of [NodeUnstageVolume], a failed check of the staging
    path is answered with Internal and is the only call made; a failed
    unmount is answered with Internal and is the last call made, so the
    session stays and nothing is removed; a failed [client.Set] is
    answered with Internal, and a failed read of the record with NotFound
    when the record is missing and Internal otherwise: in both cases the
    staging path has been unmounted by then and the failed call is the
    last one, so the session stays open. *)
Theorem X10_unstage_stops_at_the_failed_call
    (req : NodeUnstageVolumeRequest) (s s' : State World) (r : Result)
    (t : list Event) :
  NodeUnstageVolume req s = Some (r, s') → trace s' = trace s ++ t →
  (∀ p dev refCount e, EvGetDeviceName p (dev, refCount, Some e) ∈ t →
     t = [EvGetDeviceName (unstage_StagingTargetPath req) (dev, refCount, Some e)]
     ∧ r = (None, Some (status_Error Internal
              (Sprintf "failed to check if volume is mounted: %v"
                       [Lit (ext_msg e)]))))
  ∧ (∀ p e, EvUnmount p (Some e) ∈ t →
       (∃ dev refCount,
          t = [EvGetDeviceName (unstage_StagingTargetPath req) (dev, refCount, None);
               EvUnmount (unstage_StagingTargetPath req) (Some e)])
       ∧ r = (None, Some (status_Errorf Internal "Could not unmount target %q: %v"
                            [Lit (unstage_StagingTargetPath req); Lit (ext_msg e)])))
  ∧ (∀ e, EvClientSet (Some e) ∈ t →
       (∃ dev refCount,
          t = [EvGetDeviceName (unstage_StagingTargetPath req) (dev, refCount, None);
               EvUnmount (unstage_StagingTargetPath req) None;
               EvClientSet (Some e)])
       ∧ r = (None, Some (status_Error Internal (Lit (ext_msg e)))))
  ∧ (∀ key e, EvGetJivaVolume key (inr e) ∈ t →
       (∃ dev refCount,
          t = [EvGetDeviceName (unstage_StagingTargetPath req) (dev, refCount, None);
               EvUnmount (unstage_StagingTargetPath req) None;
               EvClientSet None;
               EvGetJivaVolume (StripName (unstage_VolumeId req)) (inr e)])
       ∧ r = (None, Some (status_Error
                            (if errors_IsNotFound e then NotFound else Internal)
                            (Lit (ext_msg e))))).
Proof.
  intros Hrun Ht.
  destruct (NodeUnstageVolume_exit _ _ _ _ _ Hrun Ht) as [[-> _]|Hexit].
  { split_and!; intros; by event_cases. }
  assert (∀ x instance tr,
            match x with
            | Some e =>
              tr = [] ∧ r = (None, Some (status_Error Internal (Lit (ext_msg e))))
            | None =>
              ∃ y, tr = [EvRemoveAll (Path (MountInfo (Spec instance))) y]
                   ∧ r = match y with
                         | Some e =>
                           (None, Some (status_Error Internal (Lit (ext_msg e))))
                         | None => (Some NodeUnstageVolumeResponse, None)
                         end
            end →
            ∃ y, tr = [] ∨ tr = [EvRemoveAll (Path (MountInfo (Spec instance))) y])
    as Htail.
  { intros [e|] instance tr; [intros [-> _]; exists None; by left|].
    intros (y & -> & _). eauto. }
  split_and!.
  - intros p0 dev0 n0 e0 Hin. unstage_exits Hexit; try (by event_cases).
    + apply lookupExit_failed in Hlookup as (e & [[-> _]|[-> _]]); by event_cases.
    + destruct (Htail _ _ _ Hans) as (y & [->| ->]); by event_cases.
  - intros p0 e0 Hin. unstage_exits Hexit; try (by event_cases).
    + event_cases. eauto.
    + apply lookupExit_failed in Hlookup as (e & [[-> _]|[-> _]]); by event_cases.
    + destruct (Htail _ _ _ Hans) as (y & [->| ->]); by event_cases.
  - intros e0 Hin. unstage_exits Hexit; try (by event_cases).
    + apply lookupExit_failed in Hlookup as (e & [[-> ->]|[-> _]]);
        [|by event_cases].
      event_cases. eauto.
    + destruct (Htail _ _ _ Hans) as (y & [->| ->]); by event_cases.
  - intros key0 e0 Hin. unstage_exits Hexit; try (by event_cases).
    + apply lookupExit_failed in Hlookup as (e & [[-> _]|[-> ->]]);
        [by event_cases|].
      event_cases. eauto.
    + destruct (Htail _ _ _ Hans) as (y & [->| ->]); by event_cases.
Qed.

(** ** Publish and Unpublish, call by call *)

Lemma hasOption_spec options opt : hasOption options opt = true ↔ opt ∈ options.
Proof.
  induction options as [|o options IH]; simpl.
  - split; [done|by intros ?%elem_of_nil].
  - rewrite elem_of_cons. destruct (String.eqb_spec o opt) as [->|Hne].
    + split; [by left|done].
    + rewrite IH. split; [by right|]. by intros [->|?].
Qed.

Lemma mountFlags_appended flags mountOptions :
  NoDup mountOptions →
  ∃ added,
    fold_left (λ mountOptions f,
                 if negb (hasOption mountOptions f)
                 then mountOptions ++ [f] else mountOptions)
              flags mountOptions
    = mountOptions ++ added
    ∧ NoDup (mountOptions ++ added)
    ∧ sublist added flags
    ∧ ∀ f, f ∈ flags → f ∈ mountOptions ++ added.
Proof.
  revert mountOptions.
  induction flags as [|f flags IH]; intros mountOptions Hnd; simpl.
  - exists []. rewrite app_nil_r. split_and!; try done.
    by intros f ?%elem_of_nil.
  - destruct (hasOption mountOptions f) eqn:Hf; simpl.
    + destruct (IH mountOptions Hnd) as (added & -> & Hnd' & Hsub & Hin).
      exists added. split_and!; try done; [by apply sublist_cons|].
      intros f' [->|?]%elem_of_cons; [|by apply Hin].
      apply elem_of_app. left. by apply hasOption_spec.
    + assert (f ∉ mountOptions) as Hnew.
      { intros H%hasOption_spec. by rewrite H in Hf. }
      destruct (IH (mountOptions ++ [f])) as (added & Heq & Hnd' & Hsub & Hin).
      { apply NoDup_app. split_and!; [done| |apply NoDup_singleton].
        by intros x Hx ->%list_elem_of_singleton. }
      exists (f :: added). rewrite Heq, <- !app_assoc in *. simpl in *.
      split_and!; try done; [by apply sublist_skip|].
      intros f' [->|?]%elem_of_cons; [|by apply Hin].
      apply elem_of_app. right. by left.
Qed.

Lemma publishOptions_spec req mode_Mount :
  ∃ added,
    publishOptions req mode_Mount
    = ("bind" :: (if publish_Readonly req then ["ro"] else [])) ++ added
    ∧ NoDup (publishOptions req mode_Mount)
    ∧ sublist added (GetMountFlags mode_Mount)
    ∧ ∀ f, f ∈ GetMountFlags mode_Mount → f ∈ publishOptions req mode_Mount.
Proof.
  unfold publishOptions.
  assert (NoDup ("bind" :: (if publish_Readonly req then ["ro"] else [])))
    as Hbase.
  { destruct (publish_Readonly req); repeat constructor;
      rewrite ?elem_of_cons, ?elem_of_nil; intros H; by intuition. }
  assert ((if publish_Readonly req then ["bind"] ++ ["ro"] else ["bind"])
          = "bind" :: (if publish_Readonly req then ["ro"] else [])) as ->
    by (by destruct (publish_Readonly req)).
  destruct mode_Mount as [m|]; simpl.
  - destruct (mountFlags_appended (MountFlags m) _ Hbase)
      as (added & -> & Hnd & Hsub & Hin).
    by exists added.
  - exists []. rewrite app_nil_r. split_and!; try done.
    by intros f ?%elem_of_nil.
Qed.

Lemma publishFsType_spec mode_Mount :
  publishFsType mode_Mount
  = (if String.eqb (GetFsType mode_Mount) "" then "ext4" else GetFsType mode_Mount)
  ∧ publishFsType mode_Mount ≠ "".
Proof.
  unfold publishFsType.
  destruct (_ =? _)%nat eqn:E.
  - apply length_eqb_0 in E. rewrite E. done.
  - destruct (String.eqb_spec (GetFsType mode_Mount) "") as [H|H].
    + by rewrite H in E.
    + done.
Qed.

Ltac publish_exits H :=
  destruct H as [err Hinspect Hans|mountList Hmode Hlog Hans
                |mountList Hmode Hlog Hans
                |mountList mode_Mount rm tm Hmode Hmount Hlog Hans];
  try subst;
  repeat match goal with
         | H : inspectExit _ _ |- _ =>
           let mountList := fresh "mountList" in
           let lerr := fresh "lerr" in
           destruct H as (mountList & lerr & -> & H)
         end.

Ltac mount_exits H :=
  destruct H as [e Hlog' Hans'|e Hlog' Hans'|e y Hlog' Hans'|Hlog' Hans'];
  simplify_eq.

(** X11. Whenever [NodePublishVolume] calls the mounter's [Mount], the
    capability of the request has mount access type, and the log up to
    the call reads: a successful listing of the mount table, the target
    directory made with permissions 0, its mode changed to 0. The source
    is the staging path of the request and the target its target path;
    the filesystem type is the one of the capability, or "ext4" when that
    is empty, so never empty; the options are "bind", then "ro" when the
    request is read-only, then mount flags of the capability in their
    order, every flag being among the options and no option occurring
    twice. After a successful mount nothing more is called; after a
    failed one the target is removed, and nothing more. *)
Theorem X11_publish_mount_call
    (req : NodePublishVolumeRequest) (s s' : State World) (r : Result)
    (t : list Event) :
  NodePublishVolume req s = Some (r, s') → trace s' = trace s ++ t →
  ∀ src tgt fs opts x, EvMount src tgt fs opts x ∈ t →
    ∃ volCap mode_Mount mountList added rest,
      publish_VolumeCapability req = Some volCap
      ∧ AccessType volCap = Some (VolumeCapability_Mount mode_Mount)
      ∧ src = publish_StagingTargetPath req
      ∧ tgt = publish_TargetPath req
      ∧ fs = (if String.eqb (GetFsType mode_Mount) "" then "ext4"
              else GetFsType mode_Mount)
      ∧ fs ≠ ""
      ∧ opts = ("bind" :: (if publish_Readonly req then ["ro"] else [])) ++ added
      ∧ NoDup opts
      ∧ sublist added (GetMountFlags mode_Mount)
      ∧ (∀ f, f ∈ GetMountFlags mode_Mount → f ∈ opts)
      ∧ t = [EvList (mountList, None); EvMkdirAll tgt 0 None; EvChmod tgt 0 None;
             EvMount src tgt fs opts x] ++ rest
      ∧ match x with
        | Some _ => ∃ y, rest = [EvRemove tgt y]
        | None => rest = []
        end.
Proof.
  intros Hrun Ht src tgt fs opts x Hin.
  destruct (NodePublishVolume_exit _ _ _ _ _ Hrun Ht)
    as [[-> _]|(volCap & Hcap & Hexit)]; [by event_cases|].
  publish_exits Hexit; try (by event_cases).
  destruct (publishOptions_spec req mode_Mount) as (added & Hopts & Hnd & Hsub & Hall).
  destruct (publishFsType_spec mode_Mount) as [Hfs Hne].
  mount_exits Hmount; try (by event_cases).
  - event_cases.
    exists volCap, mode_Mount, mountList, added, [EvRemove (publish_TargetPath req) y].
    rewrite <- Hopts, <- Hfs. split_and!; try done. by exists y.
  - event_cases.
    exists volCap, mode_Mount, mountList, added, [].
    rewrite <- Hopts, <- Hfs. split_and!; done.
Qed.

(** X12. For a request whose capability has no mount access type,
    [NodePublishVolume] makes no call but the listing of the mount table:
    no directory is made and nothing is mounted. Once past validation,
    the guard and the inspector, a block capability is answered with the
    code Unimplemented, handed back together with a response, and a
    capability with no access type at all is answered with success. *)
Theorem X12_publish_without_mount_access
    (req : NodePublishVolumeRequest) (volCap : VolumeCapability)
    (s s' : State World) (r : Result) (t : list Event) :
  NodePublishVolume req s = Some (r, s') → trace s' = trace s ++ t →
  publish_VolumeCapability req = Some volCap →
  (∀ mode_Mount, AccessType volCap ≠ Some (VolumeCapability_Mount mode_Mount)) →
  (t = [] ∧ turnedAway r)
  ∨ (∃ mountList lerr err,
       t = [EvList (mountList, lerr)] ∧ r = (None, Some err)
       ∧ status_Code err = Unknown)
  ∨ (∃ mountList,
       t = [EvList (mountList, None)]
       ∧ r = match AccessType volCap with
             | Some VolumeCapability_Block =>
               (Some NodePublishVolumeResponse,
                Some (status_Error Unimplemented
                        (Lit "doesn't support block device provisioning")))
             | _ => (Some NodePublishVolumeResponse, None)
             end).
Proof.
  intros Hrun Ht Hcap Hnomount.
  destruct (NodePublishVolume_exit _ _ _ _ _ Hrun Ht)
    as [?|(volCap' & Hcap' & Hexit)]; [by left|].
  rewrite Hcap in Hcap'. injection Hcap' as <-. right.
  publish_exits Hexit.
  - left. exists mountList, lerr, err. split_and!; try done.
    destruct lerr; [by simplify_eq|].
    by destruct (Hinspect err eq_refl) as [m ->].
  - right. exists mountList. by rewrite Hmode.
  - right. exists mountList. by rewrite Hmode.
  - by destruct (Hnomount mode_Mount).
Qed.

(** X13. In a run of [NodePublishVolume], a failed listing of the mount
    table is answered with the plain error "Failed to list mount paths",
    without a status code, and is the only call made; a failed
    [os.MkdirAll] and a failed [os.Chmod] are answered with Internal and
    are the last call made, so nothing is mounted; after a failed [Mount]
    the target is removed with [os.Remove], which is the last call, and
    the answer is Internal with the message of the mount error, whether
    the removal succeeds or fails. *)
Theorem X13_publish_stops_at_the_failed_call
    (req : NodePublishVolumeRequest) (s s' : State World) (r : Result)
    (t : list Event) :
  NodePublishVolume req s = Some (r, s') → trace s' = trace s ++ t →
  (∀ mountList e, EvList (mountList, Some e) ∈ t →
     t = [EvList (mountList, Some e)]
     ∧ r = (None, Some (fmt_Errorf (Lit "Failed to list mount paths"))))
  ∧ (∀ p perm e, EvMkdirAll p perm (Some e) ∈ t →
       last t = Some (EvMkdirAll p perm (Some e))
       ∧ r = (None, Some (status_Errorf Internal "Could not create dir {%q}, err: %v"
                            [Lit (publish_TargetPath req); Lit (ext_msg e)])))
  ∧ (∀ p perm e, EvChmod p perm (Some e) ∈ t →
       last t = Some (EvChmod p perm (Some e))
       ∧ r = (None, Some (status_Errorf Internal
                            "Could not change mode of dir {%q}, err: %v"
                            [Lit (publish_TargetPath req); Lit (ext_msg e)])))
  ∧ (∀ src tgt fs opts e, EvMount src tgt fs opts (Some e) ∈ t →
       ∃ y,
         last t = Some (EvRemove (publish_TargetPath req) y)
         ∧ r = (None,
                Some (match y with
                      | Some _ =>
                        status_Errorf Internal "Could not remove mount target %q: %v"
                          [Lit (publish_TargetPath req); Lit (ext_msg e)]
                      | None =>
                        status_Errorf Internal "Could not mount %q at %q: %v"
                          [Lit (publish_StagingTargetPath req);
                           Lit (publish_TargetPath req); Lit (ext_msg e)]
                      end))).
Proof.
  intros Hrun Ht.
  destruct (NodePublishVolume_exit _ _ _ _ _ Hrun Ht)
    as [[-> _]|(volCap & Hcap & Hexit)].
  { split_and!; intros; by event_cases. }
  split_and!.
  - intros ml0 e0 Hin. publish_exits Hexit; try (by event_cases).
    mount_exits Hmount; by event_cases.
  - intros p0 perm0 e0 Hin. publish_exits Hexit; try (by event_cases).
    mount_exits Hmount; by event_cases.
  - intros p0 perm0 e0 Hin. publish_exits Hexit; try (by event_cases).
    mount_exits Hmount; by event_cases.
  - intros src0 tgt0 fs0 opts0 e0 Hin. publish_exits Hexit; try (by event_cases).
    mount_exits Hmount; try (by event_cases).
    event_cases. by exists y.
Qed.

(** X14. A run of [NodeUnpublishVolume] that gets past validation and
    the guard asks the mounter once whether the target path of the
    request is a mount point. When the answer is that it is none, without
    an error, or when the check fails because the path is missing, the
    call answers success and calls nothing else. In every other case,
    also when the check fails for another reason, it calls [Unmount] on
    the target path once, and answers success when that succeeds and
    Internal when it fails. It makes no other call: the record store, the
    iSCSI session and the target directory are left alone. *)
Theorem X14_unpublish_exits
    (req : NodeUnpublishVolumeRequest) (s s' : State World) (r : Result)
    (t : list Event) :
  NodeUnpublishVolume req s = Some (r, s') → trace s' = trace s ++ t →
  (t = [] ∧ turnedAway r)
  ∨ (∃ notMnt err,
       (isNil err && notMnt) || os_IsNotExist err = true
       ∧ t = [EvIsLikelyNotMountPoint (unpublish_TargetPath req) (notMnt, err)]
       ∧ r = (Some NodeUnpublishVolumeResponse, None))
  ∨ (∃ notMnt err x,
       (isNil err && notMnt) || os_IsNotExist err = false
       ∧ t = [EvIsLikelyNotMountPoint (unpublish_TargetPath req) (notMnt, err);
              EvUnmount (unpublish_TargetPath req) x]
       ∧ r = match x with
             | Some e =>
               (None, Some (status_Errorf Internal "Could not unmount %q: %v"
                              [Lit (unpublish_TargetPath req); Lit (ext_msg e)]))
             | None => (Some NodeUnpublishVolumeResponse, None)
             end).
Proof.
  intros Hrun Ht.
  destruct (NodeUnpublishVolume_exit _ _ _ _ _ Hrun Ht)
    as [?|[notMnt err Hcond -> ->|notMnt err x Hcond -> ->]]; [by left|..].
  - right. left. by exists notMnt, err.
  - right. right. by exists notMnt, err, x.
Qed.

(** X15. [NodeGetVolumeStats] does not take the guard: whatever ids are
    in transition, the id of the request among them, it returns the same
    answer, which is never Aborted, and leaves the transition set and the
    record of guard acquisitions as they are. The only calls it makes are
    the check of the volume path of the request and, after it, the usage
    query on the same path. *)
Theorem X15_stats_is_not_guarded (req : NodeGetVolumeStatsRequest) (w0 : World) :
  ∃ r w t,
    (∀ T tr ids,
       NodeGetVolumeStats req (Build_State T w0 tr ids)
       = Some (r, Build_State T w (tr ++ t) ids))
    ∧ result_code r ≠ Some Aborted
    ∧ (t = []
       ∨ (∃ x, t = [EvExistsPath (stats_VolumePath req) x])
       ∨ (∃ x y, t = [EvExistsPath (stats_VolumePath req) x;
                      EvGetStatistics (stats_VolumePath req) y])).
Proof.
  assert (yields (NodeGetVolumeStats req)
            (λ r t, result_code r ≠ Some Aborted
                    ∧ (t = []
                       ∨ (∃ x, t = [EvExistsPath (stats_VolumePath req) x])
                       ∨ (∃ x y, t = [EvExistsPath (stats_VolumePath req) x;
                                      EvGetStatistics (stats_VolumePath req) y]))))
    as Hstats.
  { unfold NodeGetVolumeStats, mounter_ExistsPath, getStatistics.
    destruct (String.eqb _ _); [apply yields_ret; split; [done|by left]|].
    destruct (String.eqb _ _); [apply yields_ret; split; [done|by left]|].
    eapply yields_bind;
      [apply (yields_extern _ _
                (λ r t, t = [EvExistsPath (stats_VolumePath req) r]))|]; [done|].
    intros [mounted [e|]] ? ->.
    { apply yields_ret. split; [done|]. right. left. eauto. }
    destruct mounted; simpl.
    2:{ apply yields_ret. split; [done|]. right. left. eauto. }
    eapply yields_bind;
      [apply (yields_extern _ _
                (λ r t, t = [EvGetStatistics (stats_VolumePath req) r]))|]; [done|].
    intros [stats [e|]] ? ->; apply yields_ret; (split; [done|]);
      right; right; eauto. }
  destruct (Hstats w0) as (r & w & t & Hrun & Hcode & Hlog).
  by exists r, w, t.
Qed.

(** ** Validation *)

(** X16. The two validators at the end of node.go, which no handler
    calls, turn away no request that the handlers accept: a request that
    [validateNodeUnpublishReq] rejects is rejected by
    [NodeUnpublishVolume] with InvalidArgument and the node state
    untouched, and the other way round; a request that
    [validateNodePublishReq] rejects, which is one without a capability
    or without a volume id, is rejected in the same way by
    [NodePublishVolume]. Both validators answer InvalidArgument. *)
Theorem X16_unused_validators_agree_with_handlers (s : State World) :
  (∀ req,
     validateNodeUnpublishReq req ≠ None
     ↔ ∃ msg, NodeUnpublishVolume req s
              = Some ((None, Some (status_Error InvalidArgument msg)), s))
  ∧ (∀ req,
       validateNodePublishReq req ≠ None
       ↔ publish_VolumeCapability req = None ∨ publish_VolumeId req = "")
  ∧ (∀ req,
       validateNodePublishReq req ≠ None →
       ∃ msg, NodePublishVolume req s
              = Some ((None, Some (status_Error InvalidArgument msg)), s))
  ∧ (∀ req e, validateNodeUnpublishReq req = Some e → status_Code e = InvalidArgument)
  ∧ (∀ req e, validateNodePublishReq req = Some e → status_Code e = InvalidArgument).
Proof.
  split_and!.
  - intros req. unfold validateNodeUnpublishReq. split.
    + intros Hbad. unfold NodeUnpublishVolume, ret.
      destruct (String.eqb_spec (unpublish_VolumeId req) "") as [->|Hid];
        [by eauto|].
      destruct (String.eqb_spec (unpublish_TargetPath req) "") as [->|Hpath];
        [|done].
      destruct (_ =? _)%nat; by eauto.
    + intros [msg Hrun] Hok.
      destruct (String.eqb_spec (unpublish_VolumeId req) "") as [|Hid]; [done|].
      destruct (String.eqb_spec (unpublish_TargetPath req) "") as [|Hpath]; [done|].
      rewrite NodeUnpublishVolume_valid in Hrun by done.
      destruct (guarded_yields _ _ _ _ _ _
                  (yields_unpublishExit (unpublish_VolumeId req)
                     (unpublish_TargetPath req)) Hrun)
        as [[[=] _]|(_ & t & _ & [? ? _ _ [=]|? ? [?|] _ _ [=]])].
  - intros req. unfold validateNodePublishReq.
    destruct (publish_VolumeCapability req); [|by split; auto].
    destruct (_ =? _)%nat eqn:E.
    + apply length_eqb_0 in E. by split; auto.
    + split; [done|]. intros [?|H]; [done|]. by rewrite H in E.
  - intros req. unfold validateNodePublishReq, NodePublishVolume, ret.
    destruct (String.length (publish_VolumeId req) =? 0)%nat; [by eauto|].
    destruct (String.length (publish_TargetPath req) =? 0)%nat; [by eauto|].
    destruct (publish_VolumeCapability req); [done|by eauto].
  - intros req e. unfold validateNodeUnpublishReq.
    repeat case_match; by intros [= <-].
  - intros req e. unfold validateNodePublishReq.
    repeat case_match; by intros [= <-].
Qed.

(** X17. [validateStagingReq] accepts exactly the requests with a volume
    id and a staging path that are not empty and a capability that is
    supported and has mount access type with a mount. An accepted request
    is handed on with the normalized id, the staging path, and the
    filesystem type of the mount, or "ext4" when that is empty. In
    particular a capability with block access type is turned away by
    [NodeStageVolume] with InvalidArgument and the node state untouched,
    where [NodePublishVolume] answers Unimplemented. *)
Theorem X17_stage_accepts_mount_capabilities_only (req : NodeStageVolumeRequest) :
  ((validateStagingReq req).2 = None
   ↔ stage_VolumeId req ≠ "" ∧ stage_StagingTargetPath req ≠ ""
     ∧ ∃ volCap m,
         stage_VolumeCapability req = Some volCap
         ∧ isValidVolumeCapabilities [volCap] = true
         ∧ AccessType volCap = Some (VolumeCapability_Mount (Some m)))
  ∧ (∀ reqParam m,
       validateStagingReq req = (reqParam, None) →
       GetMount <$> stage_VolumeCapability req = Some (Some m) →
       reqParam = {| stagingPath := stage_StagingTargetPath req;
                     fsType := if String.eqb (FsType m) "" then "ext4" else FsType m;
                     volumeID := StripName (stage_VolumeId req) |})
  ∧ (∀ volCap s,
       stage_VolumeCapability req = Some volCap →
       AccessType volCap = Some VolumeCapability_Block →
       ∃ msg, NodeStageVolume req s
              = Some ((None, Some (status_Error InvalidArgument msg)), s)).
Proof.
  split_and!.
  - unfold validateStagingReq. split.
    + destruct (String.length (stage_VolumeId req) =? 0)%nat eqn:E1; [done|].
      destruct (stage_VolumeCapability req) as [volCap|]; [|done].
      destruct (isValidVolumeCapabilities [volCap]) eqn:Hvalid; [|done]. simpl.
      unfold GetMount.
      destruct (AccessType volCap) as [[|[m|]]|] eqn:Hmode; try done.
      destruct (String.length (stage_StagingTargetPath req) =? 0)%nat eqn:E2;
        [done|].
      intros _. split_and!.
      * intros H. by rewrite H in E1.
      * intros H. by rewrite H in E2.
      * by exists volCap, m.
    + intros (Hid & Hpath & volCap & m & -> & -> & Hmode).
      unfold GetMount. rewrite Hmode.
      destruct (String.length (stage_VolumeId req) =? 0)%nat eqn:E1;
        [by apply length_eqb_0 in E1|].
      destruct (String.length (stage_StagingTargetPath req) =? 0)%nat eqn:E2;
        [by apply length_eqb_0 in E2|].
      done.
  - intros reqParam m Hv Hm.
    unfold validateStagingReq in Hv.
    destruct (String.length (stage_VolumeId req) =? 0)%nat; [done|].
    destruct (stage_VolumeCapability req) as [volCap|]; [|done].
    destruct (negb _); [done|]. simpl in Hm. injection Hm as Hm.
    rewrite Hm in Hv.
    destruct (String.length (stage_StagingTargetPath req) =? 0)%nat; [done|].
    injection Hv as <-. f_equal.
    destruct (String.eqb_spec (FsType m) "") as [->|Hne]; [done|].
    destruct (_ =? _)%nat eqn:E; [by apply length_eqb_0 in E|done].
  - intros volCap s Hcap Hmode.
    assert (is_Some (validateStagingReq req).2) as [e He].
    { unfold validateStagingReq, GetMount. rewrite Hcap, Hmode.
      repeat case_match; simpl; eauto. }
    destruct (validateStagingReq_error req e He) as [msg ->].
    exists msg. by apply NodeStageVolume_invalid.
Qed.

(** ** The answers of the handlers *)

Lemma guarded_log volID rest (s s' : State World) (r : Result) :
  outside rest → guarded volID rest s = Some (r, s') → ∃ t, trace s' = trace s ++ t.
Proof.
  intros Hrest Hrun.
  destruct (guarded_yields _ _ (λ _ _, True) _ _ _ (yields_of_outside _ Hrest) Hrun)
    as [[_ ->]|(_ & t & Ht & _)]; [|by exists t].
  exists []. by rewrite app_nil_r.
Qed.

Lemma serve_log c (s s' : State World) r :
  serve c s = Some (r, s') → ∃ t, trace s' = trace s ++ t.
Proof.
  assert (∀ x : Result, ret x s = Some (r, s') → ∃ t, trace s' = trace s ++ t)
    as Hret.
  { unfold ret. intros x [= _ <-]. exists []. by rewrite app_nil_r. }
  destruct c as [req|req|req|req]; simpl.
  - unfold NodeStageVolume. destruct (validateStagingReq req) as [reqParam [e|]].
    + apply Hret.
    + apply guarded_log, outside_NodeStageVolume_body.
  - unfold NodeUnstageVolume. repeat case_match; try apply Hret.
    apply guarded_log, outside_NodeUnstageVolume_body.
  - unfold NodePublishVolume. repeat case_match; try apply Hret.
    apply guarded_log, outside_NodePublishVolume_body.
  - unfold NodeUnpublishVolume. repeat case_match; try apply Hret.
    apply guarded_log, outside_NodeUnpublishVolume_body.
Qed.

Ltac in_codes :=
  solve [simpl; repeat first [apply list_elem_of_here | apply list_elem_of_further]].

Lemma turnedAway_answer c r :
  turnedAway r →
  match r with
  | (None, Some e) => status_Code e ∈ codes c
  | _ => False
  end.
Proof.
  unfold turnedAway, result_code.
  destruct r as [[resp|] [e|]]; intros [Hnone Hcode]; simpl in *; try done.
  - destruct Hcode as [[= ->]|[= ->]]; destruct c; in_codes.
  - by destruct Hcode.
Qed.

(** X18. The answers of the four mutating handlers. A call answers
    either with the response of its handler and no error, or with an
    error and no response, the one exception being [NodePublishVolume] on
    a capability with block access type, which hands back a response
    together with the code Unimplemented. The code of an error is one of:
    InvalidArgument, Aborted, FailedPrecondition, Internal or none
    (Unknown) for Stage, which never answers NotFound; InvalidArgument,
    Aborted, Internal or NotFound for Unstage; InvalidArgument, Aborted,
    Internal or none for Publish; InvalidArgument, Aborted or Internal for
    Unpublish. *)
Theorem X18_answers_of_the_handlers (c : MutatingCall) (s s' : State World)
    (r : Result) :
  serve c s = Some (r, s') →
  match r with
  | (Some resp, None) => resp = responseOf c
  | (None, Some e) => status_Code e ∈ codes c
  | (Some resp, Some e) =>
    resp = NodePublishVolumeResponse ∧ status_Code e = Unimplemented
    ∧ ∃ req volCap,
        c = CallPublish req ∧ publish_VolumeCapability req = Some volCap
        ∧ AccessType volCap = Some VolumeCapability_Block
  | (None, None) => False
  end.
Proof.
  intros Hrun. destruct (serve_log _ _ _ _ Hrun) as [t Ht].
  assert (∀ c', turnedAway r →
            match r with
            | (Some resp, None) => resp = responseOf c'
            | (None, Some e) => status_Code e ∈ codes c'
            | (Some resp, Some e) =>
              resp = NodePublishVolumeResponse ∧ status_Code e = Unimplemented
              ∧ ∃ req volCap,
                  c' = CallPublish req ∧ publish_VolumeCapability req = Some volCap
                  ∧ AccessType volCap = Some VolumeCapability_Block
            | (None, None) => False
            end) as Haway.
  { intros c' H%(turnedAway_answer c'). by destruct r as [[?|] [?|]]. }
  destruct c as [req|req|req|req]; simpl in Hrun.
  - destruct (NodeStageVolume_exit _ _ _ _ _ Hrun Ht)
      as [[_ ?]|(reqParam & Hv & Hexit)]; [by apply Haway|].
    clear Hrun Ht Haway. stage_exits Hexit; try in_codes.
    + destruct lerr; [by simplify_eq; in_codes|].
      destruct (Hinspect err eq_refl) as [m ->]. in_codes.
    + destruct rm; [in_codes|done].
  - destruct (NodeUnstageVolume_exit _ _ _ _ _ Hrun Ht) as [[_ ?]|Hexit];
      [by apply Haway|].
    clear Hrun Ht Haway. unstage_exits Hexit; try in_codes; try done.
    + apply lookupExit_failed in Hlookup as (e & [[_ ->]|[_ ->]]); [in_codes|].
      destruct (errors_IsNotFound e); in_codes.
    + destruct x as [e|]; [destruct Hans as [_ ->]; in_codes|].
      destruct Hans as ([e|] & _ & ->); [in_codes|done].
  - destruct (NodePublishVolume_exit _ _ _ _ _ Hrun Ht)
      as [[_ ?]|(volCap & Hcap & Hexit)]; [by apply Haway|].
    clear Hrun Ht Haway. publish_exits Hexit; try done.
    + destruct lerr; [by simplify_eq; in_codes|].
      destruct (Hinspect err eq_refl) as [m ->]. in_codes.
    + split_and!; try done. by exists req, volCap.
    + destruct rm as [err|]; [|done].
      mount_exits Hmount; try in_codes. destruct y; in_codes.
  - destruct (NodeUnpublishVolume_exit _ _ _ _ _ Hrun Ht)
      as [[_ ?]|[notMnt err Hcond -> ->|notMnt err x Hcond -> ->]];
      [by apply Haway|done|].
    destruct x; [in_codes|done].
Qed.

(** ** Stage, then Unstage *)

(** X19. What Unstage removes is what Stage recorded. When a run of
    [NodeUnstageVolume] reads from the store a record that a run of
    [NodeStageVolume] wrote, the directory it removes with
    [os.RemoveAll] is the staging path of that Stage request, whatever
    the staging path of the Unstage request, which is the path it
    unmounts. *)
Theorem X19_unstage_removes_the_staged_path
    (stage : NodeStageVolumeRequest) (unstage : NodeUnstageVolumeRequest)
    (s1 s1' s2 s2' : State World) (r1 r2 : Result) (t1 t2 : list Event)
    (cr : JivaVolume) (ans : option ExtError) (key : string) :
  NodeStageVolume stage s1 = Some (r1, s1') → trace s1' = trace s1 ++ t1 →
  NodeUnstageVolume unstage s2 = Some (r2, s2') → trace s2' = trace s2 ++ t2 →
  EvUpdateJivaVolume cr ans ∈ t1 →
  EvGetJivaVolume key (inl cr) ∈ t2 →
  (∀ p y, EvRemoveAll p y ∈ t2 → p = stage_StagingTargetPath stage)
  ∧ (∀ p y, EvUnmount p y ∈ t2 → p = unstage_StagingTargetPath unstage).
Proof.
  intros Hrun1 Ht1 Hrun2 Ht2 Hwritten Hread.
  destruct (NodeStageVolume_exit _ _ _ _ _ Hrun1 Ht1)
    as [[-> _]|(reqParam & Hv & Hexit1)]; [by event_cases|].
  destruct (validateStagingReq_ok _ _ Hv) as (_ & _ & Hpath & _).
  destruct (stageExit_update _ _ _ _ _ _ Hexit1 Hwritten)
    as (instance0 & devicePath & ta & instance' & rest & _ & -> & _).
  destruct (NodeUnstageVolume_exit _ _ _ _ _ Hrun2 Ht2) as [[-> _]|Hexit2];
    [by event_cases|].
  clear Hrun1 Ht1 Hrun2 Ht2 Hwritten Hexit1.
  split.
  - intros p0 y0 Hin. unstage_exits Hexit2; try (by event_cases).
    + apply lookupExit_failed in Hlookup as (e & [[-> _]|[-> _]]); by event_cases.
    + destruct x as [e|]; [destruct Hans as [-> _]; by event_cases|].
      destruct Hans as (y & -> & _). event_cases. by rewrite <- Hpath.
  - intros p0 y0 Hin. unstage_exits Hexit2; try (by event_cases).
    + apply lookupExit_failed in Hlookup as (e & [[-> _]|[-> _]]); by event_cases.
    + destruct x as [e|]; [destruct Hans as [-> _]; by event_cases|].
      destruct Hans as (y & -> & _). by event_cases.
Qed.

End Node.

(** ** Runs on the in-memory double *)

Ltac in_log := repeat first [apply list_elem_of_here | apply list_elem_of_further].

(** Stage "pvc-1" has taken the guard; Unstage "pvc-1" comes in. *)
Lemma C1_stage_and_unstage_both_in_flight :
  ∃ s1 reqParam,
    volumeTransition_Insert (stripPvc "pvc-1") (start staged) = Some (true, s1)
    ∧ NodeStageVolume cannedEnv stripPvc anyCapability 3
        (stageReq "pvc-1" "/staging/pvc-1" "ext4") (start staged)
      = defer (volumeTransition_Delete (stripPvc "pvc-1"))
              (NodeStageVolume_body cannedEnv stripPvc 3
                 (stageReq "pvc-1" "/staging/pvc-1" "ext4") reqParam) s1
    ∧ ∃ r w t,
        serve cannedEnv stripPvc anyCapability 3
          (CallUnstage (unstageReq "pvc-1" "/staging/pvc-1")) s1
        = Some (r, Build_State (volumeTransition s1) w (trace s1 ++ t)
                               (acquired s1 ++ ["pvc-1"]))
        ∧ proceeds r t.
Proof.
  apply (C1_stage_does_not_exclude_other_calls cannedEnv stripPvc anyCapability 3
           (stageReq "pvc-1" "/staging/pvc-1" "ext4")
           (CallUnstage (unstageReq "pvc-1" "/staging/pvc-1")) (start staged)).
  - reflexivity.
  - split; discriminate.
  - intros req'. discriminate.
  - reflexivity.
  - intros H. vm_compute in H. discriminate.
  - apply not_elem_of_empty.
  - apply not_elem_of_empty.
Defined.

(** What that Unstage does while Stage holds the guard: it unmounts and
    detaches. *)
Example unstage_runs_while_stage_holds_guard :
  ∃ t,
    observe (NodeUnstageVolume cannedEnv stripPvc
               (unstageReq "pvc-1" "/staging/pvc-1")
               {| volumeTransition := {[stripPvc "pvc-1"]}; world := staged;
                  trace := []; acquired := [stripPvc "pvc-1"] |})
    = Some ((Some NodeUnstageVolumeResponse, None), t, false)
    ∧ EvUnmount "/staging/pvc-1" None ∈ t
    ∧ ∃ portals, EvDisconnect "iqn.2016-09.com.openebs.jiva:1" portals None ∈ t.
Proof.
  eexists. split; [vm_compute; reflexivity|]. split; [in_log|].
  eexists. in_log.
Qed.

Lemma C2_three_retries_four_checks :
  ∃ w t,
    NodeStageVolume cannedEnv stripPvc anyCapability 3
      (stageReq "pvc-1" "/staging" "ext4") (start pending)
    = Some ((None, Some (status_Error FailedPrecondition
                           (Lit "Max retry count exceeded, volume is not ready"))),
            Build_State ∅ w t ["1"])
    ∧ statusChecks t = 4%nat
    ∧ delays t = [0; 5 * Second; 5 * Second; 5 * Second]
    ∧ length t = 12%nat.
Proof.
  refine (C2_readiness_poll_bound cannedEnv stripPvc anyCapability 3
            (λ w, w = pending) (stageReq "pvc-1" "/staging" "ext4")
            {| stagingPath := "/staging"; fsType := "ext4"; volumeID := "1" |}
            (start pending) _ _ _ _ _ _ _).
  - lia.
  - reflexivity.
  - apply not_elem_of_empty.
  - reflexivity.
  - by intros d w ->.
  - by intros w ->.
  - intros id w ->. eexists. split; [reflexivity|]. split; [|reflexivity].
    intros [H _]. discriminate.
Defined.

Lemma C3_empty_fsType_run :
  match NodeStageVolume cannedEnv stripPvc anyCapability 3
          (stageReq "pvc-1" "/staging" "") (start healthy) with
  | Some (r, s') =>
    r = (Some NodeStageVolumeResponse, None)
    ∧ (∃ cr, EvUpdateJivaVolume cr None ∈ trace s'
             ∧ FSType (MountInfo (Spec cr)) = "ext4")
    ∧ (∃ fs, EvFormatAndMount "/dev/sdb" "/staging" fs [] None ∈ trace s'
             ∧ fs = "")
  | None => False
  end.
Proof.
  destruct (NodeStageVolume _ _ _ _ _ _) as [[r s']|] eqn:Hrun;
    [|vm_compute in Hrun; discriminate].
  destruct (C3_fsType_in_record_and_in_mount_call _ _ _ _ _ _ _ _ (trace s') Hrun eq_refl)
    as [Hrecord Hmount].
  vm_compute in Hrun. injection Hrun as <- <-. split; [reflexivity|]. split.
  - eexists. split; [simpl; in_log|]. eapply Hrecord. simpl. in_log.
  - eexists. split; [simpl; in_log|]. eapply Hmount. simpl. in_log.
Defined.

(** The normalized id "1" is held; Unstage "pvc-1" is let through. *)
Lemma C4_unstage_ignores_normalized_id :
  ∃ r w t,
    serve cannedEnv stripPvc anyCapability 3
      (CallUnstage (unstageReq "pvc-1" "/staging/pvc-1"))
      {| volumeTransition := {["1"]}; world := staged; trace := [];
         acquired := ["1"] |}
    = Some (r, Build_State {["1"]} w t ["1"; "pvc-1"])
    ∧ proceeds r t.
Proof.
  refine (proj2 (C4_guard_key_of_teardown_and_publish_is_raw cannedEnv stripPvc
                   anyCapability 3
                   (CallUnstage (unstageReq "pvc-1" "/staging/pvc-1"))
                   {| volumeTransition := {["1"]}; world := staged; trace := [];
                      acquired := ["1"] |}
                   _ _) _ _).
  - split; discriminate.
  - intros req. discriminate.
  - apply elem_of_singleton. reflexivity.
  - simpl. intros H%elem_of_singleton. discriminate.
Defined.

(** A read of the record fails in the first status check: the answer is
    FailedPrecondition, not Internal. *)
Lemma C5_poll_read_failure_is_FailedPrecondition :
  observe (NodeStageVolume cannedEnv stripPvc anyCapability 3
             (stageReq "pvc-1" "/staging" "ext4") (start storeDown))
  = Some ((None, Some (status_Error FailedPrecondition
                         (Sprintf "rpc error: code = %s desc = %s"
                                  [CodeName Internal; Lit "connection refused"]))),
          [EvSleep 0; EvClientSet None; EvGetJivaVolume "1" (inr ioError)],
          true)
  ∧ ext_IsNotFound ioError = false
  ∧ FailedPrecondition ≠ Internal.
Proof. split; [vm_compute; reflexivity|]. split; [reflexivity|discriminate]. Qed.

(** The same for a record that is missing. *)
Example missing_record_in_poll_is_FailedPrecondition :
  observe (NodeStageVolume cannedEnv stripPvc anyCapability 3
             (stageReq "pvc-1" "/staging" "ext4")
             (start (withGet (inr notFound) healthy)))
  = Some ((None, Some (status_Error FailedPrecondition
                         (Sprintf "rpc error: code = %s desc = %s"
                                  [CodeName NotFound; Lit "jivavolume 1 not found"]))),
          [EvSleep 0; EvClientSet None; EvGetJivaVolume "1" (inr notFound)],
          true).
Proof. vm_compute. reflexivity. Qed.

Lemma C5_update_failure_run :
  match NodeStageVolume cannedEnv stripPvc anyCapability 3
          (stageReq "pvc-1" "/staging" "ext4") (start updateFails) with
  | Some (r, s') =>
    (∃ cr, EvUpdateJivaVolume cr (Some ioError) ∈ trace s')
    ∧ r = (None, Some (status_Error Internal (Lit "connection refused")))
  | None => False
  end.
Proof.
  destruct (NodeStageVolume _ _ _ _ _ _) as [[r s']|] eqn:Hrun;
    [|vm_compute in Hrun; discriminate].
  destruct (C5_store_failures_in_stage _ _ _ _ _ _ _ _ (trace s') Hrun eq_refl)
    as (_ & _ & Hupdate).
  assert (∃ cr, EvUpdateJivaVolume cr (Some ioError) ∈ trace s') as [cr Hcr].
  { vm_compute in Hrun. injection Hrun as <- <-. eexists. simpl. in_log. }
  split; [by exists cr|]. exact (Hupdate cr ioError Hcr).
Defined.

Lemma C6_two_mounts :
  ∃ r s',
    isAlreadyMounted cannedEnv "pvc-1" "/elsewhere" (start mountedTwice) = Some (r, s')
    ∧ ((size (pathsContaining "pvc-1" (c_list mountedTwice).1) ≤ 1)%nat → r = None)
    ∧ ((1 < size (pathsContaining "pvc-1" (c_list mountedTwice).1))%nat →
         (r = None ↔ "/elsewhere" ∈ pathsContaining "pvc-1" (c_list mountedTwice).1))
    ∧ ((1 < size (pathsContaining "pvc-1" (c_list mountedTwice).1))%nat →
       "/elsewhere" ∉ pathsContaining "pvc-1" (c_list mountedTwice).1 →
       ∃ currentMounts,
         dom currentMounts = pathsContaining "pvc-1" (c_list mountedTwice).1
         ∧ r = Some (fmt_Errorf
                 (Sprintf "Volume is already mounted at more than one place: {%v}"
                          [PathSet currentMounts]))).
Proof.
  apply (C6_isAlreadyMounted_accepts cannedEnv "pvc-1" "/elsewhere"
           (start mountedTwice) (c_list mountedTwice).1 mountedTwice).
  reflexivity.
Defined.

(** The request's path is one of the two, and another time it is not. *)
Example inspector_on_two_mounts :
  size (pathsContaining "pvc-1" (c_list mountedTwice).1) = 2%nat
  ∧ (fst <$> isAlreadyMounted cannedEnv "pvc-1" "/staging/pvc-1" (start mountedTwice))
    = Some None
  ∧ ∃ e, (fst <$> isAlreadyMounted cannedEnv "pvc-1" "/elsewhere" (start mountedTwice))
         = Some (Some (fmt_Errorf e)).
Proof.
  split; [vm_compute; reflexivity|]. split; [vm_compute; reflexivity|].
  eexists. vm_compute. reflexivity.
Qed.

(** Unstage twice: the first call unmounts and detaches, the second finds
    nothing mounted. *)
Lemma C7_unstage_twice :
  ∃ s1 w,
    NodeUnstageVolume cannedEnv stripPvc (unstageReq "pvc-1" "/staging/pvc-1")
      (start staged)
    = Some ((Some NodeUnstageVolumeResponse, None), s1)
    ∧ NodeUnstageVolume cannedEnv stripPvc (unstageReq "pvc-1" "/staging/pvc-1") s1
      = Some ((Some NodeUnstageVolumeResponse, None),
              Build_State (volumeTransition s1) w
                (trace s1 ++ [EvGetDeviceName "/staging/pvc-1" ("", 0, None)])
                (acquired s1 ++ ["pvc-1"])).
Proof.
  destruct (NodeUnstageVolume cannedEnv stripPvc
              (unstageReq "pvc-1" "/staging/pvc-1") (start staged))
    as [[r1 s1]|] eqn:Hfirst; [|vm_compute in Hfirst; discriminate].
  assert (r1 = (Some NodeUnstageVolumeResponse, None) ∧ world s1 = unmounted staged)
    as [-> Hworld].
  { vm_compute in Hfirst. injection Hfirst as <- <-. split; reflexivity. }
  exists s1, (unmounted staged). split; [reflexivity|].
  refine (proj1 (proj2 (proj2 (C7_idempotent_teardown cannedEnv stripPvc (start staged))))
            (unstageReq "pvc-1" "/staging/pvc-1") _ s1 "" (unmounted staged)
            _ _ _ Hfirst _).
  - discriminate.
  - discriminate.
  - apply not_elem_of_empty.
  - simpl. rewrite Hworld. reflexivity.
Defined.

Lemma C8_empty_staging_path_run :
  ∃ msg,
    NodeStageVolume cannedEnv stripPvc anyCapability 3 (stageReq "pvc-1" "" "ext4")
      (start healthy)
    = Some ((None, Some (status_Error InvalidArgument msg)), start healthy).
Proof.
  refine (proj1 (C8_validation_precedes_side_effects cannedEnv stripPvc
                   anyCapability 3 (start healthy))
            (stageReq "pvc-1" "" "ext4") _).
  reflexivity.
Defined.

(** The check of the path fails and reports the path as not mounted: the
    answer is Internal, neither NotFound nor the usage statistics. *)
Lemma C10_failed_path_check_is_Internal :
  observe (NodeGetVolumeStats cannedEnv (statsReq "pvc-1" "/staging/pvc-1")
             (start (withExists (false, Some ioError) healthy)))
  = Some ((None, Some (status_Errorf Internal
                         "failed to check if volume path %q is mounted: %s"
                         [Lit "/staging/pvc-1"; Lit "connection refused"])),
          [EvExistsPath "/staging/pvc-1" (false, Some ioError)],
          true)
  ∧ Internal ≠ NotFound.
Proof. split; [vm_compute; reflexivity|discriminate]. Qed.

Lemma C10_stats_run :
  ∃ s',
    NodeGetVolumeStats cannedEnv (statsReq "pvc-1" "/staging/pvc-1") (start healthy)
    = Some ((Some (NodeGetVolumeStatsResponse (c_stats healthy).1), None), s').
Proof.
  refine (proj2 (C10_NodeGetVolumeStats_outcomes cannedEnv
                   (statsReq "pvc-1" "/staging/pvc-1") (start healthy))
            _ _ true None healthy _ (c_stats healthy).1 None healthy _).
  - discriminate.
  - discriminate.
  - reflexivity.
  - reflexivity.
Defined.

(** ** More runs on the in-memory double *)

(** Stage on a healthy node: the attach comes after the one status check,
    the listing and the one probe. *)
Lemma X3_attach_in_a_healthy_run :
  match NodeStageVolume cannedEnv stripPvc anyCapability 3
          (stageReq "pvc-1" "/staging/pvc-1" "ext4") (start healthy) with
  | Some (r, s') =>
    ∃ c x instance pending mountList errs rest,
      EvConnect c x ∈ trace s'
      ∧ serving instance
      ∧ Forall (λ instance, ¬ serving instance) pending
      ∧ (length pending < maxChecks 3)%nat
      ∧ (length errs < maxProbes 3)%nat
      ∧ c = {| VolumeName := Name instance;
               TargetIqn := Iqn (ISCSISpec (Spec instance));
               Lun := 0; Interface := "default";
               TargetPortals := [targetPortalOf instance];
               DoDiscovery := true |}
      ∧ trace s'
        = pendingChecks (stripPvc (stripPvc "pvc-1")) 0 pending
          ++ statusCheck (stripPvc (stripPvc "pvc-1")) (nextDelay 0 pending) instance
          ++ [EvList (mountList, None)]
          ++ failedProbes (targetPortalOf instance) errs
          ++ [EvDial "tcp" (targetPortalOf instance) None; EvConnClose]
          ++ EvConnect c x :: rest
      ∧ ∀ c' x', EvConnect c' x' ∉ rest
  | None => False
  end.
Proof.
  destruct (NodeStageVolume _ _ _ _ _ _) as [[r s']|] eqn:Hrun;
    [|vm_compute in Hrun; discriminate].
  pose proof (X3_stage_attaches_only_when_ready_and_reachable _ _ _ _ _ _ _ _
                (trace s') Hrun eq_refl) as Hattach.
  assert (∃ c x, EvConnect c x ∈ trace s') as (c & x & Hin).
  { vm_compute in Hrun. injection Hrun as <- <-. eexists _, _. simpl. in_log. }
  destruct (Hattach c x Hin)
    as (instance & pending & mountList & errs & rest & H).
  exists c, x, instance, pending, mountList, errs, rest.
  split; [exact Hin|exact H].
Defined.

(** Stage of a request that declares no filesystem type: the record
    written has the default type, the staging path and a device path. *)
Lemma X4_record_of_a_healthy_run :
  match NodeStageVolume cannedEnv stripPvc anyCapability 3
          (stageReq "pvc-1" "/staging/pvc-1" "") (start healthy) with
  | Some (r, s') =>
    ∃ cr,
      EvUpdateJivaVolume cr None ∈ trace s'
      ∧ FSType (MountInfo (Spec cr)) = "ext4"
      ∧ Path (MountInfo (Spec cr)) = "/staging/pvc-1"
      ∧ DevicePath (MountInfo (Spec cr)) ≠ ""
  | None => False
  end.
Proof.
  destruct (NodeStageVolume _ _ _ _ _ _) as [[r s']|] eqn:Hrun;
    [|vm_compute in Hrun; discriminate].
  pose proof (X4_stage_writes_record_after_attach _ _ _ _ _ _ _ _
                (trace s') Hrun eq_refl) as Hrecord.
  assert (∃ cr, EvUpdateJivaVolume cr None ∈ trace s') as (cr & Hin).
  { vm_compute in Hrun. injection Hrun as <- <-. eexists. simpl. in_log. }
  exists cr. split; [exact Hin|].
  destruct (Hrecord cr None Hin)
    as (t0 & c & devicePath & instance' & rest & _ & Hdev & -> & _).
  split; [reflexivity|]. split; [reflexivity|exact Hdev].
Defined.

(** The same run formats and mounts last, and succeeds. *)
Lemma X5_format_in_a_healthy_run :
  match NodeStageVolume cannedEnv stripPvc anyCapability 3
          (stageReq "pvc-1" "/staging/pvc-1" "ext4") (start healthy) with
  | Some (r, s') =>
    EvFormatAndMount "/dev/sdb" "/staging/pvc-1" "ext4" [] None ∈ trace s'
    ∧ r = (Some NodeStageVolumeResponse, None)
    ∧ last (trace s')
      = Some (EvFormatAndMount "/dev/sdb" "/staging/pvc-1" "ext4" [] None)
  | None => False
  end.
Proof.
  destruct (NodeStageVolume _ _ _ _ _ _) as [[r s']|] eqn:Hrun;
    [|vm_compute in Hrun; discriminate].
  pose proof (X5_stage_formats_after_record_is_stored _ _ _ _ _ _ _ _
                (trace s') Hrun eq_refl) as Hformat.
  assert (EvFormatAndMount "/dev/sdb" "/staging/pvc-1" "ext4" [] None ∈ trace s')
    as Hin.
  { vm_compute in Hrun. injection Hrun as <- <-. simpl. in_log. }
  split; [exact Hin|].
  destruct (Hformat _ _ _ _ _ Hin) as (t0 & cr & err & mk & Heq & _ & _ & _ & _ & _ & Hr).
  split; [exact Hr|].
  rewrite Heq, !app_assoc. apply last_snoc.
Defined.

(** A successful Stage has stored the record with the staging path. *)
Lemma X6_success_of_a_healthy_run :
  match NodeStageVolume cannedEnv stripPvc anyCapability 3
          (stageReq "pvc-1" "/staging/pvc-1" "ext4") (start healthy) with
  | Some (r, s') =>
    r = (Some NodeStageVolumeResponse, None)
    ∧ ∃ cr, EvUpdateJivaVolume cr None ∈ trace s'
            ∧ Path (MountInfo (Spec cr)) = "/staging/pvc-1"
  | None => False
  end.
Proof.
  destruct (NodeStageVolume _ _ _ _ _ _) as [[r s']|] eqn:Hrun;
    [|vm_compute in Hrun; discriminate].
  assert (r.2 = None) as Hok.
  { vm_compute in Hrun. injection Hrun as <- <-. reflexivity. }
  destruct (X6_stage_success_means_stored_and_mounted _ _ _ _ _ _ _ _
              (trace s') Hrun eq_refl Hok)
    as (t0 & cr & notMnt & err & mk & Hr & _ & Hinfo & Heq).
  split; [exact Hr|]. exists cr. split.
  - rewrite Heq. apply elem_of_app. right. apply elem_of_app. left.
    apply list_elem_of_here.
  - apply (f_equal Path) in Hinfo. exact Hinfo.
Defined.

(** The attach fails: Internal, and the failed attach is the last call. *)
Lemma X7_failed_attach_run :
  match NodeStageVolume cannedEnv stripPvc anyCapability 3
          (stageReq "pvc-1" "/staging/pvc-1" "ext4") (start attachFails) with
  | Some (r, s') =>
    ∃ c,
      EvConnect c ("", Some ioError) ∈ trace s'
      ∧ r = (None, Some (status_Error Internal (Lit "connection refused")))
      ∧ last (trace s') = Some (EvConnect c ("", Some ioError))
  | None => False
  end.
Proof.
  destruct (NodeStageVolume _ _ _ _ _ _) as [[r s']|] eqn:Hrun;
    [|vm_compute in Hrun; discriminate].
  destruct (X7_stage_stops_at_the_failed_call _ _ _ _ _ _ _ _
              (trace s') Hrun eq_refl) as (_ & Hconnect & _).
  assert (∃ c, EvConnect c ("", Some ioError) ∈ trace s') as (c & Hin).
  { vm_compute in Hrun. injection Hrun as <- <-. eexists. simpl. in_log. }
  exists c. split; [exact Hin|]. exact (Hconnect c "" ioError Hin).
Defined.

(** The target portal does not answer: FailedPrecondition, and no call
    but status checks, the listing and probes. *)
Lemma X8_unreachable_run :
  match NodeStageVolume cannedEnv stripPvc anyCapability 3
          (stageReq "pvc-1" "/staging/pvc-1" "ext4") (start unreachable) with
  | Some (r, s') =>
    result_code r = Some FailedPrecondition ∧ Forall beforeAttach (trace s')
  | None => False
  end.
Proof.
  destruct (NodeStageVolume _ _ _ _ _ _) as [[r s']|] eqn:Hrun;
    [|vm_compute in Hrun; discriminate].
  assert (result_code r = Some FailedPrecondition) as Hcode.
  { vm_compute in Hrun. injection Hrun as <- <-. reflexivity. }
  split; [exact Hcode|].
  exact (proj1 (X8_stage_FailedPrecondition_means_not_ready_or_unreachable
                  _ _ _ _ _ _ _ _ (trace s') Hrun eq_refl Hcode)).
Defined.

(** Unstage of a staged volume: the disconnect comes after the unmount. *)
Lemma X9_unstage_of_a_staged_volume :
  match NodeUnstageVolume cannedEnv stripPvc (unstageReq "pvc-1" "/staging/pvc-1")
          (start staged) with
  | Some (r, s') =>
    ∃ iqn portals t1 t2,
      EvDisconnect iqn portals None ∈ trace s'
      ∧ trace s' = t1 ++ [EvUnmount "/staging/pvc-1" None] ++ t2
      ∧ EvDisconnect iqn portals None ∈ t2
  | None => False
  end.
Proof.
  destruct (NodeUnstageVolume _ _ _ _) as [[r s']|] eqn:Hrun;
    [|vm_compute in Hrun; discriminate].
  destruct (X9_unstage_detaches_after_unmount _ _ _ _ _ _
              (trace s') Hrun eq_refl) as [Hdetach _].
  assert (∃ iqn portals, EvDisconnect iqn portals None ∈ trace s')
    as (iqn & portals & Hin).
  { vm_compute in Hrun. injection Hrun as <- <-. eexists _, _. simpl. in_log. }
  destruct (Hdetach iqn portals None Hin)
    as (dev & refCount & instance & rest & _ & _ & _ & Heq & _).
  eexists iqn, portals, [_], (_ :: _ :: _ :: rest).
  split; [exact Hin|]. split; [exact Heq|]. in_log.
Defined.

(** The unmount fails: Internal, and nothing is called after it. *)
Lemma X10_failed_unmount_run :
  match NodeUnstageVolume cannedEnv stripPvc (unstageReq "pvc-1" "/staging/pvc-1")
          (start busy) with
  | Some (r, s') =>
    EvUnmount "/staging/pvc-1" (Some ioError) ∈ trace s'
    ∧ r = (None, Some (status_Errorf Internal "Could not unmount target %q: %v"
                         [Lit "/staging/pvc-1"; Lit "connection refused"]))
    ∧ length (trace s') = 2%nat
  | None => False
  end.
Proof.
  destruct (NodeUnstageVolume _ _ _ _) as [[r s']|] eqn:Hrun;
    [|vm_compute in Hrun; discriminate].
  destruct (X10_unstage_stops_at_the_failed_call _ _ _ _ _ _
              (trace s') Hrun eq_refl) as (_ & Hunmount & _).
  assert (EvUnmount "/staging/pvc-1" (Some ioError) ∈ trace s') as Hin.
  { vm_compute in Hrun. injection Hrun as <- <-. simpl. in_log. }
  split; [exact Hin|].
  destruct (Hunmount _ _ Hin) as [(dev & refCount & Heq) Hr].
  split; [exact Hr|]. by rewrite Heq.
Defined.

(** Publish, read-only, with flags that repeat: the options of the mount
    call have no duplicate, and the filesystem type is the default. *)
Lemma X11_publish_run :
  match NodePublishVolume cannedEnv anyCapability
          (publishReq "pvc-1" "/staging/pvc-1" "/pods/a"
             (mountCapabilityWith "" ["noatime"; "ro"; "noatime"]) true)
          (start healthy) with
  | Some (r, s') =>
    ∃ fs opts,
      EvMount "/staging/pvc-1" "/pods/a" fs opts None ∈ trace s'
      ∧ fs = "ext4" ∧ NoDup opts ∧ "noatime" ∈ opts
      ∧ last (trace s') = Some (EvMount "/staging/pvc-1" "/pods/a" fs opts None)
  | None => False
  end.
Proof.
  destruct (NodePublishVolume _ _ _ _) as [[r s']|] eqn:Hrun;
    [|vm_compute in Hrun; discriminate].
  pose proof (X11_publish_mount_call _ _ _ _ _ _ (trace s') Hrun eq_refl) as Hmount.
  assert (∃ fs opts, EvMount "/staging/pvc-1" "/pods/a" fs opts None ∈ trace s')
    as (fs & opts & Hin).
  { vm_compute in Hrun. injection Hrun as <- <-. eexists _, _. simpl. in_log. }
  exists fs, opts. split; [exact Hin|].
  destruct (Hmount _ _ _ _ _ Hin)
    as (volCap & mode_Mount & mountList & added & rest & Hcap & Hmode & _ & _
        & Hfs & _ & _ & Hnd & _ & Hall & Heq & ->).
  injection Hcap as <-. injection Hmode as <-.
  split; [exact Hfs|]. split; [exact Hnd|]. split.
  - apply Hall. simpl. in_log.
  - rewrite Heq. reflexivity.
Defined.

(** Publish of a block volume: no success, and one call at most. *)
Lemma X12_publish_block_run :
  match NodePublishVolume cannedEnv anyCapability
          (publishReq "pvc-1" "/staging/pvc-1" "/pods/a" blockCapability false)
          (start healthy) with
  | Some (r, s') => r.2 ≠ None ∧ (length (trace s') ≤ 1)%nat
  | None => False
  end.
Proof.
  destruct (NodePublishVolume _ _ _ _) as [[r s']|] eqn:Hrun;
    [|vm_compute in Hrun; discriminate].
  destruct (X12_publish_without_mount_access _ _ _ blockCapability _ _ _
              (trace s') Hrun eq_refl eq_refl)
    as [[-> [_ Hcode]]|[(mountList & lerr & err & -> & -> & _)
                        |(mountList & -> & ->)]].
  - intros mode_Mount. discriminate.
  - split; [|simpl; lia]. intros Hnone. unfold result_code in Hcode.
    rewrite Hnone in Hcode. destruct Hcode; discriminate.
  - split; [discriminate|simpl; lia].
  - split; [discriminate|simpl; lia].
Defined.

(** The bind mount fails: the target is removed, and the answer is
    Internal. *)
Lemma X13_failed_mount_run :
  match NodePublishVolume cannedEnv anyCapability
          (publishReq "pvc-1" "/staging/pvc-1" "/pods/a" (mountCapability "ext4")
             false)
          (start mountFails) with
  | Some (r, s') =>
    ∃ y, last (trace s') = Some (EvRemove "/pods/a" y)
         ∧ result_code r = Some Internal
  | None => False
  end.
Proof.
  destruct (NodePublishVolume _ _ _ _) as [[r s']|] eqn:Hrun;
    [|vm_compute in Hrun; discriminate].
  destruct (X13_publish_stops_at_the_failed_call _ _ _ _ _ _
              (trace s') Hrun eq_refl) as (_ & _ & _ & Hmount).
  assert (∃ src tgt fs opts, EvMount src tgt fs opts (Some ioError) ∈ trace s')
    as (src & tgt & fs & opts & Hin).
  { vm_compute in Hrun. injection Hrun as <- <-. eexists _, _, _, _. simpl. in_log. }
  destruct (Hmount _ _ _ _ _ Hin) as (y & Hlast & ->).
  exists y. split; [exact Hlast|]. by destruct y.
Defined.

(** Unpublish of a mounted target: two calls at most. *)
Lemma X14_unpublish_run :
  match NodeUnpublishVolume cannedEnv (unpublishReq "pvc-1" "/pods/a")
          (start staged) with
  | Some (r, s') =>
    (length (trace s') ≤ 2)%nat
    ∧ (r.2 = None ∨ result_code r = Some InvalidArgument
       ∨ result_code r = Some Aborted ∨ result_code r = Some Internal)
  | None => False
  end.
Proof.
  destruct (NodeUnpublishVolume _ _ _) as [[r s']|] eqn:Hrun;
    [|vm_compute in Hrun; discriminate].
  destruct (X14_unpublish_exits _ _ _ _ _ (trace s') Hrun eq_refl)
    as [[-> [_ Hcode]]|[(notMnt & err & _ & -> & ->)
                        |(notMnt & err & x & _ & -> & ->)]].
  - split; [simpl; lia|]. destruct Hcode; auto.
  - split; [simpl; lia|]. by left.
  - split; [simpl; lia|]. destruct x; [|by left]. by do 3 right.
Defined.

(** Stage while the record store is down: an error with one of the codes
    of Stage. *)
Lemma X18_answer_of_a_failed_stage :
  match serve cannedEnv stripPvc anyCapability 3
          (CallStage (stageReq "pvc-1" "/staging/pvc-1" "ext4"))
          (start storeDown) with
  | Some (r, s') =>
    ∃ e, r = (None, Some e)
         ∧ status_Code e
           ∈ [InvalidArgument; Aborted; FailedPrecondition; Unknown; Internal]
  | None => False
  end.
Proof.
  destruct (serve _ _ _ _ _ _) as [[r s']|] eqn:Hrun;
    [|vm_compute in Hrun; discriminate].
  pose proof (X18_answers_of_the_handlers _ _ _ _ _ _ _ _ Hrun) as Hanswer.
  assert (r.1 = None) as Hnone.
  { vm_compute in Hrun. injection Hrun as <- <-. reflexivity. }
  destruct r as [[resp|] [e|]]; try discriminate Hnone; [|destruct Hanswer].
  by exists e.
Defined.

(** Stage at "/staging/pvc-1", then Unstage, asked for another path, on a
    node whose store holds the record Stage wrote: the directory removed
    is "/staging/pvc-1". *)
Lemma X19_stage_then_unstage :
  match NodeStageVolume cannedEnv stripPvc anyCapability 3
          (stageReq "pvc-1" "/staging/pvc-1" "ext4") (start healthy),
        NodeUnstageVolume cannedEnv stripPvc (unstageReq "pvc-1" "/elsewhere/pvc-1")
          (start stagedAndRecorded) with
  | Some (r1, s1'), Some (r2, s2') =>
    (∃ y, EvRemoveAll "/staging/pvc-1" y ∈ trace s2')
    ∧ (∀ p y, EvRemoveAll p y ∈ trace s2' → p = "/staging/pvc-1")
    ∧ (∀ p y, EvUnmount p y ∈ trace s2' → p = "/elsewhere/pvc-1")
  | _, _ => False
  end.
Proof.
  destruct (NodeStageVolume _ _ _ _ _ _) as [[r1 s1']|] eqn:Hrun1;
    [|vm_compute in Hrun1; discriminate].
  destruct (NodeUnstageVolume _ _ _ _) as [[r2 s2']|] eqn:Hrun2;
    [|vm_compute in Hrun2; discriminate].
  assert (EvUpdateJivaVolume stagedVolume None ∈ trace s1') as Hwritten.
  { vm_compute in Hrun1. injection Hrun1 as <- <-. simpl. in_log. }
  assert (EvGetJivaVolume "1" (inl stagedVolume) ∈ trace s2') as Hread.
  { vm_compute in Hrun2. injection Hrun2 as <- <-. simpl. in_log. }
  split.
  - vm_compute in Hrun2. injection Hrun2 as <- <-. eexists. simpl. in_log.
  - exact (X19_unstage_removes_the_staged_path _ _ _ _ _ _ _ _ _ _ _ _
             (trace s1') (trace s2') _ _ _ Hrun1 eq_refl Hrun2 eq_refl
             Hwritten Hread).
Defined.

(** Unstage "pvc-1" while "pvc-1" is in transition: Aborted, and nothing
    has changed. *)
Lemma X20_second_unstage_is_aborted :
  ∃ r,
    serve cannedEnv stripPvc anyCapability 3
      (CallUnstage (unstageReq "pvc-1" "/staging/pvc-1"))
      {| volumeTransition := {["pvc-1"]}; world := staged; trace := [];
         acquired := ["pvc-1"] |}
    = Some (r, {| volumeTransition := {["pvc-1"]}; world := staged; trace := [];
                  acquired := ["pvc-1"] |})
    ∧ result_code r = Some Aborted.
Proof.
  apply (same_key_excluded cannedEnv stripPvc anyCapability 3
           (CallUnstage (unstageReq "pvc-1" "/staging/pvc-1"))).
  - split; discriminate.
  - apply elem_of_singleton. reflexivity.
Defined.

(** Unstage "pvc-1" does the same whatever other volumes are in
    transition. *)
Lemma X21_unstage_whatever_else_is_in_transition :
  ∃ r w t, ∀ T tr ids,
    "pvc-1" ∉ T →
    serve cannedEnv stripPvc anyCapability 3
      (CallUnstage (unstageReq "pvc-1" "/staging/pvc-1")) (Build_State T staged tr ids)
    = Some (r, Build_State T w (tr ++ t) (ids ++ ["pvc-1"])).
Proof.
  apply (other_ids_do_not_matter cannedEnv stripPvc anyCapability 3
           (CallUnstage (unstageReq "pvc-1" "/staging/pvc-1")) staged).
  split; discriminate.
Defined.
